(** * EigenPod proof generation CLI: a shallow embedding and its properties

    The development follows the Go sources of the command line tool:
    - [cli/main.go]: [findAllValidatorsForEigenpod], [getOnchainValidatorInfo]
      and the [status] and [credentials] actions of [main];
    - [cli/commands]: [CredentialsCommand].

    Go slices of bytes are lists of [byte]; [uint64] values are [N] (no
    arithmetic in the modelled code can reach 2^64); a nil pointer is [None];
    a run-time panic (index or slice bound out of range) and the fatal exits
    of [PanicOnError]/[Panic] are outcomes of their own. *)

From Stdlib Require Import ZArith NArith List Lia Bool.
From Stdlib Require Import Strings.Byte.
From Equations Require Import Equations.
From stdpp Require Import base option list sorting strings gmap.

Local Open Scope N_scope.

#[global] Instance byte_eq_dec : EqDecision byte := Byte.byte_eq_dec.

(** ** Outcomes of Go code that may abort *)

Module Go.

(** What a call ends in: a value, a fatal exit with the message handed to
    [PanicOnError] or [Panic], or a run-time panic of the Go runtime. *)
Inductive outcome (A : Type) : Type :=
| Ok (a : A)
| Fatal (message : string)
| RuntimePanic.
Arguments Ok {A} a.
Arguments Fatal {A} message.
Arguments RuntimePanic {A}.

Definition bind {A B} (m : outcome A) (k : A → outcome B) : outcome B :=
  match m with
  | Ok a => k a
  | Fatal s => Fatal s
  | RuntimePanic => RuntimePanic
  end.

(** [s[0]] on a byte slice. *)
Definition index0 (s : list byte) : outcome byte :=
  match s with
  | b :: _ => Ok b
  | [] => RuntimePanic
  end.

(** [s[n:]] on a slice whose capacity is its length. *)
Definition slice_from (n : nat) (s : list byte) : outcome (list byte) :=
  if decide (n ≤ length s)%nat then Ok (drop n s) else RuntimePanic.

(** [bytes.Equal]. *)
Definition bytes_Equal (a b : list byte) : bool := bool_decide (a = b).

(** Go errors carry a text; [nil] is [None]. *)
Definition error := option string.

(** Modelled from the spec: [PanicOnError] is defined in another file of the
    package; section 6 and section 9 of the specification describe it: a
    fatal error aborts the whole invocation and surfaces a message, a nil
    error lets the run go on. *)
Definition PanicOnError (message : string) (err : error) : outcome unit :=
  match err with
  | Some _ => Fatal message
  | None => Ok tt
  end.

End Go.

#[global] Instance outcome_bind : MBind Go.outcome := λ A B k m, Go.bind m k.
#[global] Instance outcome_ret : MRet Go.outcome := λ A a, Go.Ok a.

(** ** Beacon state *)

(** [phase0.Validator], with the fields the tool reads. *)
Record phase0_Validator := {
  PublicKey : list byte;
  WithdrawalCredentials : list byte;
  EffectiveBalance : N;
  Slashed : bool
}.

#[global] Instance phase0_Validator_eq_dec : EqDecision phase0_Validator.
Proof. solve_decision. Defined.

Record ValidatorWithIndex := {
  Validator : phase0_Validator;
  Index : N
}.

#[global] Instance ValidatorWithIndex_eq_dec : EqDecision ValidatorWithIndex.
Proof. solve_decision. Defined.

(** [spec.VersionedBeaconState] as far as the tool looks at it: the call
    [beaconState.Validators()] gives an error or the slice of validator
    pointers, some of which may be nil. *)
Record VersionedBeaconState := {
  Validators : list (option phase0_Validator) * Go.error
}.

(** ** The credential scan of [cli/main.go] *)

Section Scan.

(** [common.FromHex] of go-ethereum. *)
Variable FromHex : string → list byte.

(** The body of the [for] loop at index [i], with [outputValidators] so far. *)
Definition scan_step (eigenpodAddressBytes : list byte) (i : N)
    (validator : option phase0_Validator)
    (outputValidators : list ValidatorWithIndex)
  : Go.outcome (list ValidatorWithIndex) :=
  match validator with
  | None => Go.Ok outputValidators
  | Some v =>
      b0 ← Go.index0 (WithdrawalCredentials v) ;
      if negb (bool_decide (b0 = x01)) then Go.Ok outputValidators
      else
        tail ← Go.slice_from 12 (WithdrawalCredentials v) ;
        if Go.bytes_Equal eigenpodAddressBytes tail
        then Go.Ok (outputValidators ++ [ {| Validator := v; Index := i |} ])
        else Go.Ok outputValidators
  end.

(** The loop [for i = 0; i < maxValidators; i++], run over the part of the
    slice from [i] on. *)
Fixpoint scan_loop (eigenpodAddressBytes : list byte) (i : N)
    (rest : list (option phase0_Validator))
    (outputValidators : list ValidatorWithIndex)
  : Go.outcome (list ValidatorWithIndex) :=
  match rest with
  | [] => Go.Ok outputValidators
  | validator :: rest' =>
      out ← scan_step eigenpodAddressBytes i validator outputValidators ;
      scan_loop eigenpodAddressBytes (N.succ i) rest' out
  end.

Definition findAllValidatorsForEigenpod (eigenpodAddress : string)
    (beaconState : VersionedBeaconState)
  : Go.outcome (list ValidatorWithIndex) :=
  let '(allValidators, err) := Validators beaconState in
  _ ← Go.PanicOnError "failed to fetch beacon state" err ;
  let eigenpodAddressBytes := FromHex eigenpodAddress in
  scan_loop eigenpodAddressBytes 0 allValidators [].

(** The match condition in the words of the specification. *)
Definition last_bytes (n : nat) (s : list byte) : list byte :=
  drop (length s - n) s.

Definition credentials_match (poolAddressBytes : list byte)
    (v : phase0_Validator) : Prop :=
  head (WithdrawalCredentials v) = Some x01
  ∧ last_bytes 20 (WithdrawalCredentials v) = poolAddressBytes.

#[global] Instance credentials_match_dec a v : Decision (credentials_match a v).
Proof. unfold credentials_match. apply _. Defined.

(** The data model gives withdrawal credentials 32 bytes; nil entries
    carry none. *)
Definition credentials_wf (vs : list (option phase0_Validator)) : Prop :=
  Forall (λ o, from_option
                 (λ v, length (WithdrawalCredentials v) = 32%nat) True o) vs.

#[global] Instance credentials_wf_dec vs : Decision (credentials_wf vs).
Proof.
  unfold credentials_wf. apply Forall_dec. intros [v|]; simpl; apply _.
Defined.

(** The matching validators of a slice, each with its position counted
    from [i]. *)
Fixpoint matching_from (poolAddressBytes : list byte) (i : N)
    (vs : list (option phase0_Validator)) : list ValidatorWithIndex :=
  match vs with
  | [] => []
  | None :: vs' => matching_from poolAddressBytes (N.succ i) vs'
  | Some v :: vs' =>
      if decide (credentials_match poolAddressBytes v)
      then {| Validator := v; Index := i |}
             :: matching_from poolAddressBytes (N.succ i) vs'
      else matching_from poolAddressBytes (N.succ i) vs'
  end.

End Scan.

(** ** Commands: a state monad over what a run has done so far *)

(** A command threads a state of type [S] and ends as Go code does; after a
    fatal exit or a run-time panic nothing more happens to the state. *)
Definition Cmd (S A : Type) : Type := S → Go.outcome A * S.

#[global] Instance Cmd_bind {S} : MBind (Cmd S) := λ A B k m s,
  match m s with
  | (Go.Ok a, s') => k a s'
  | (Go.Fatal message, s') => (Go.Fatal message, s')
  | (Go.RuntimePanic, s') => (Go.RuntimePanic, s')
  end.
#[global] Instance Cmd_ret {S} : MRet (Cmd S) := λ A a s, (Go.Ok a, s).

Definition lift {S A} (o : Go.outcome A) : Cmd S A := λ s, (o, s).

(** Appending to a trace of events. *)
Definition emit {E} (e : E) : Cmd (list E) unit := λ tr, (Go.Ok tt, tr ++ [e]).

(** [if b { c }]. *)
Definition when {S} (b : bool) (c : Cmd S unit) : Cmd S unit :=
  if b then c else mret tt.

(** Modelled from the spec: [Panic] is defined in package [core];
    like [PanicOnError] it surfaces its message and aborts the invocation
    (sections 6 and 9 of the specification). *)
Definition Panic {S} (message : string) : Cmd S unit := lift (Go.Fatal message).

Definition PanicOnError {S} (message : string) (err : Go.error) : Cmd S unit :=
  lift (Go.PanicOnError message err).

(** Arguments of a formatted print. *)
Inductive arg :=
| AUint (n : N)
| AInt (z : Z)
| AStr (s : string).

(** ** [CredentialsCommand] of package [commands] *)

Module Commands.

Record TCredentialCommandArgs := {
  EigenpodAddress : string;
  DisableColor : bool;
  UseJSON : bool;
  SimulateTransaction : bool;
  Node : string;
  BeaconNode : string;
  Sender : string;
  SpecificValidator : N;
  BatchSize : N;
  NoPrompt : bool;
  Verbose : bool
}.

(** The arguments with another [SpecificValidator]. *)
Definition with_SpecificValidator (n : N) (a : TCredentialCommandArgs)
  : TCredentialCommandArgs :=
  {| EigenpodAddress := EigenpodAddress a;
     DisableColor := DisableColor a;
     UseJSON := UseJSON a;
     SimulateTransaction := SimulateTransaction a;
     Node := Node a;
     BeaconNode := BeaconNode a;
     Sender := Sender a;
     SpecificValidator := n;
     BatchSize := BatchSize a;
     NoPrompt := NoPrompt a;
     Verbose := Verbose a |}.

(** [math.MaxUint64]. *)
Definition MaxUint64 : N := 2 ^ 64 - 1.

(** [*types.Transaction] of go-ethereum, as read here: [To()] is nil for a
    contract creation; [To().Hex()], [Data()] in hex and [Hash().Hex()]. *)
Record types_Transaction := {
  To : option string;
  Data : string;
  Hash : string
}.

Record Transaction := {
  Type_ : string;
  To_ : string;
  CallData : string
}.

Record CredentialProofTransaction := {
  Transaction_ : Transaction;
  ValidatorIndices : list N
}.

(** [*eigenpodproofs.VerifyValidatorFieldsCallParams]: the command hands it
    on without looking inside. *)
Record VerifyValidatorFieldsCallParams := {
  ProvenValidatorIndices : list N;
  ProofPayload : list (list byte)
}.

(** The three clients and the chain id that [core.GetClients] returns. *)
Record Clients := {
  eth : N;
  beaconClient : N;
  chainId : Z
}.

(** Modelled from the spec: the functions of package [core] are defined
    outside [cli/commands]. Each is an operation of the environment; by
    sections 4.2, 5 and 6 of the specification [GetClients] connects to the
    execution and beacon endpoints and fetches the chain id,
    [GenerateValidatorProof] fetches the latest block and the beacon
    state, and [SubmitValidatorProof] sends or simulates transactions:
    each is a network call. Their results are whatever the environment
    answers. *)
Record Core := {
  GetClients : string → string → bool → Clients * Go.error;
  GenerateValidatorProof :
    string → Clients → option N → bool →
    option VerifyValidatorFieldsCallParams * N * Go.error;
  SubmitValidatorProof :
    string → string → Clients → N → VerifyValidatorFieldsCallParams → N →
    bool → bool → bool →
    list types_Transaction * list (list N) * Go.error
}.

(** What a run does, in order. *)
Inductive event :=
| SetNoColor
| CallGetClients (node beaconNode : string) (isVerbose : bool)
| CallGenerateValidatorProof (eigenpodAddress : string)
    (specificValidatorIndex : option N) (isVerbose : bool)
| CallSubmitValidatorProof (sender eigenpodAddress : string) (batchSize : N)
    (validatorProofs : VerifyValidatorFieldsCallParams)
    (oracleBeaconTimestamp : N) (noPrompt simulate isVerbose : bool)
| Printf (format : string) (args : list arg)
| Green (format : string) (args : list arg)
| PrintProofs (out : list CredentialProofTransaction).

(** The specific index a call of [GenerateValidatorProof] was given. *)
Definition requested_index (e : event) : option (option N) :=
  match e with
  | CallGenerateValidatorProof _ specificValidatorIndex _ =>
      Some specificValidatorIndex
  | _ => None
  end.

Definition generate_requests (tr : list event) : list (option N) :=
  omap requested_index tr.

Definition is_network_call (e : event) : bool :=
  match e with
  | CallGetClients _ _ _
  | CallGenerateValidatorProof _ _ _
  | CallSubmitValidatorProof _ _ _ _ _ _ _ _ => true
  | _ => false
  end.

(** [txn.To().Hex()]: a nil [To()] is dereferenced. *)
Definition To_Hex (txn : types_Transaction) : Go.outcome string :=
  match To txn with
  | Some a => Go.Ok a
  | None => Go.RuntimePanic
  end.

(** [index.Uint64()] of a [*big.Int]: the low 64 bits of the value, so an
    index of 2^64 or more is cut down. The [*big.Int]s are validator
    indices: none of them is nil or negative. *)
Definition Uint64 (index : N) : N := index mod 2 ^ 64.

(** [aMap] over the transactions, with the failing dereference passed on;
    every entry lists [aMap(aFlatten(indices), ...)], each index through
    [Uint64()]. *)
Fixpoint aMap_txns (indices : list (list N)) (txns : list types_Transaction)
  : Go.outcome (list CredentialProofTransaction) :=
  match txns with
  | [] => Go.Ok []
  | txn :: txns' =>
      to ← To_Hex txn ;
      rest ← aMap_txns indices txns' ;
      Go.Ok ({| Transaction_ := {| Type_ := "credential_proof";
                                   To_ := to;
                                   CallData := Data txn |};
                ValidatorIndices := Uint64 <$> concat indices |} :: rest)
  end.

(** [for i, txn := range txns { color.Green(...) }]. *)
Fixpoint print_hashes (i : N) (txns : list types_Transaction)
  : Cmd (list event) unit :=
  match txns with
  | [] => mret tt
  | txn :: txns' =>
      _ ← emit (Green "transaction(%d): %s" [AUint i; AStr (Hash txn)]) ;
      print_hashes (N.succ i) txns'
  end.

(** The test [args.SpecificValidator != math.MaxUint64 &&
    args.SpecificValidator != 0] and the pointer it decides: nil unless the
    test holds. *)
Definition is_specific (args : TCredentialCommandArgs) : bool :=
  negb (SpecificValidator args =? MaxUint64)
  && negb (SpecificValidator args =? 0).

Definition specificValidatorIndex (args : TCredentialCommandArgs) : option N :=
  if is_specific args then Some (SpecificValidator args) else None.

(** [isVerbose]. *)
Definition isVerbose (args : TCredentialCommandArgs) : bool :=
  (negb (UseJSON args) && negb (SimulateTransaction args)) || Verbose args.

(** The events of the command up to the check of the two flags: colour,
    then the clients. *)
Definition prelude (args : TCredentialCommandArgs) : list event :=
  (if DisableColor args then [SetNoColor] else [])
  ++ [CallGetClients (Node args) (BeaconNode args) (isVerbose args)].

Section WithCore.

Variable core : Core.

Definition CredentialsCommand (args : TCredentialCommandArgs)
  : Cmd (list event) Go.error :=
  _ ← when (DisableColor args) (emit SetNoColor) ;
  let isVerbose := isVerbose args in
  _ ← emit (CallGetClients (Node args) (BeaconNode args) isVerbose) ;
  let '(clients, err) := GetClients core (Node args) (BeaconNode args) isVerbose in
  _ ← PanicOnError "failed to reach ethereum clients" err ;
  if SimulateTransaction args && negb (String.length (Sender args) =? 0)%nat
  then
    _ ← Panic "if using --print-calldata, please do not specify a --sender." ;
    mret None
  else
    let specificValidatorIndex := specificValidatorIndex args in
    _ ← when (is_specific args && isVerbose)
          (emit (Printf "Using specific validator: %d"
                        [AUint (SpecificValidator args)])) ;
    _ ← emit (CallGenerateValidatorProof (EigenpodAddress args)
                specificValidatorIndex isVerbose) ;
    let '(validatorProofs, oracleBeaconTimestamp, err) :=
      GenerateValidatorProof core (EigenpodAddress args) clients
        specificValidatorIndex isVerbose in
    _ ← match err, validatorProofs with
        | None, Some _ => mret tt
        | _, _ =>
            _ ← PanicOnError "Failed to generate validator proof" err ;
            Panic "no inactive validators"
        end ;
    match validatorProofs with
    | None => lift Go.RuntimePanic (* not reached: the guard has exited *)
    | Some proofs =>
        if negb (String.length (Sender args) =? 0)%nat
           || SimulateTransaction args
        then
          _ ← emit (CallSubmitValidatorProof (Sender args)
                      (EigenpodAddress args) (BatchSize args) proofs
                      oracleBeaconTimestamp (NoPrompt args)
                      (SimulateTransaction args) isVerbose) ;
          let '(txns, indices, err) :=
            SubmitValidatorProof core (Sender args) (EigenpodAddress args)
              clients (BatchSize args) proofs oracleBeaconTimestamp
              (NoPrompt args) (SimulateTransaction args) isVerbose in
          _ ← PanicOnError
                (if SimulateTransaction args
                 then "failed to simulate validator proof"
                 else "failed to submit validator proof") err ;
          _ ← (if SimulateTransaction args
               then
                 out ← lift (aMap_txns indices txns) ;
                 emit (PrintProofs out)
               else print_hashes 0 txns) ;
          _ ← PanicOnError "failed to invoke verifyWithdrawalCredentials" err ;
          mret None
        else mret None
    end.

End WithCore.

End Commands.

(** ** The actions of [cli/main.go] *)

(** [common.Proof] is a list of 32-byte nodes. *)
Definition Bytes32 := list byte.
Definition Proof := list Bytes32.

Record StateRootProof := {
  BeaconStateRoot : Bytes32;
  StateRootProof_Proof : Proof
}.

(** The proof document of the credentials action. *)
Record VerifyValidatorFieldsCallParams := {
  StateRootProof_ : StateRootProof;
  ValidatorFieldsProofs : list Proof;
  ValidatorFields : list (list Bytes32)
}.

(** [onchain.IEigenPodValidatorInfo]. *)
Record IEigenPodValidatorInfo := {
  ValidatorIndex : N;
  RestakedBalanceGwei : N;
  LastCheckpointedAt : N;
  Status : N
}.

(** [color.Attribute]; the zero value is [Reset]. *)
Inductive Attribute := Reset | Bold | Italic | FgGreen | FgBlue | FgHiRed | FgHiYellow.

(** What a run of an action does, in order. *)
Inductive event :=
| SetNoColor
| Dial (node : string)
| ChainID
| NewBeaconClient (beaconUri : string)
| BlockByNumber
| NewEigenPod (eigenpodAddress : string)
| CallGetStatus (eigenpodAddress : string)
| CallGenerateValidatorProof (eigenpodAddress : string) (chainId : Z)
| WriteOutputToFileOrStdout (jsonString : string) (out : option string)
| CallPrepareAccount (owner : string) (chainId : Z)
| CallValidatorPubkeyHashToInfo (pubKeyHash : list byte)
| CallVerifyWithdrawalCredentials (time : N) (stateRootProof : list byte)
    (beaconStateRoot : Bytes32) (indices : list Z)
    (validatorFieldsProofs : list (list byte))
    (validatorFields : list (list Bytes32))
| Println (line : string)
| Printf (attributes : list Attribute) (format : string) (args : list arg).

(** The one event that changes the chain. *)
Definition is_transaction (e : event) : bool :=
  match e with
  | CallVerifyWithdrawalCredentials _ _ _ _ _ _ => true
  | _ => false
  end.

(** What [cli/main.go] calls and does not define: the clients of
    go-ethereum and of the beacon node, the contract binding, the standard
    library, and the helpers of the package that live in other files. The
    environment answers each call. *)
Record Env := {
  ethclient_Dial : string → Go.error;
  eth_ChainID : Z * Go.error;
  beacon_NewBeaconClient : string → Go.error;
  eth_BlockByNumber : N * Go.error;
  onchain_NewEigenPod : string → Go.error;
  eigenPod_ValidatorPubkeyHashToInfo : list byte → IEigenPodValidatorInfo * Go.error;
  eigenPod_VerifyWithdrawalCredentials :
    N → list byte → Bytes32 → list Z → list (list byte) → list (list Bytes32) →
    string * Go.error;
  sha256_Sum256 : list byte → list byte;
  json_Marshal : VerifyValidatorFieldsCallParams → string * Go.error;
  GenerateValidatorProof :
    string → Z → option VerifyValidatorFieldsCallParams * option (list N);
  prepareAccount : string → Z → Go.error;
  Uint64ArrayToBigIntArray : list N → list Z;
  ToByteSlice : Proof → list byte;
  castValidatorFields : list (list Bytes32) → list (list Bytes32)
}.

Section Actions.

Variable env : Env.

Definition getBeaconClient (beaconUri : string) : Cmd (list event) Go.error :=
  _ ← emit (NewBeaconClient beaconUri) ;
  mret (beacon_NewBeaconClient env beaconUri).

Definition getClients (node beaconNodeUri : string) : Cmd (list event) Z :=
  _ ← emit (Dial node) ;
  _ ← PanicOnError "failed to reach eth --node." (ethclient_Dial env node) ;
  _ ← emit ChainID ;
  let '(chainId, err) := eth_ChainID env in
  _ ← PanicOnError "failed to fetch chain id" err ;
  err ← getBeaconClient beaconNodeUri ;
  _ ← PanicOnError "failed to reach beacon chain." err ;
  mret chainId.

(** The [zeroes] of [getOnchainValidatorInfo]. *)
Definition zeroes : list byte :=
  [x00; x00; x00; x00; x00; x00; x00; x00; x00; x00; x00; x00; x00; x00; x00; x00].

(** The key of one lookup: [sha256.Sum256(append(PublicKey[:], zeroes[:]...))].
    [PublicKey] is an array, so the slice has no spare capacity and
    [append] copies. *)
Definition pubKeyHash (v : ValidatorWithIndex) : list byte :=
  sha256_Sum256 env (PublicKey (Validator v) ++ zeroes).

(** The loop of [getOnchainValidatorInfo]. *)
Fixpoint lookup_loop (rest : list ValidatorWithIndex)
    (validatorInfo : list IEigenPodValidatorInfo)
  : Cmd (list event) (list IEigenPodValidatorInfo) :=
  match rest with
  | [] => mret validatorInfo
  | v :: rest' =>
      let key := pubKeyHash v in
      _ ← emit (CallValidatorPubkeyHashToInfo key) ;
      let '(info, err) := eigenPod_ValidatorPubkeyHashToInfo env key in
      _ ← PanicOnError "failed to fetch validator eigeninfo." err ;
      lookup_loop rest' (validatorInfo ++ [info])
  end.

Definition getOnchainValidatorInfo (eigenpodAddress : string)
    (allValidators : list ValidatorWithIndex)
  : Cmd (list event) (list IEigenPodValidatorInfo) :=
  _ ← emit (NewEigenPod eigenpodAddress) ;
  _ ← PanicOnError "failed to locate Eigenpod. Is your address correct?"
        (onchain_NewEigenPod env eigenpodAddress) ;
  lookup_loop allValidators [].

(** The keys a run has looked up in the pool contract, in order. *)
Definition lookup_key (e : event) : option (list byte) :=
  match e with
  | CallValidatorPubkeyHashToInfo key => Some key
  | _ => None
  end.

Definition lookup_keys (tr : list event) : list (list byte) :=
  omap lookup_key tr.

(** The key in the words of the claim: the hash of the public key padded
    on the right with zero bytes up to 64 bytes. *)
Definition padded_key_hash (publicKey : list byte) : list byte :=
  sha256_Sum256 env (publicKey ++ replicate (64 - length publicKey) x00).

(** The global flags and the two string flags the action reads. *)
Record Flags := {
  eigenpodAddress : string;
  beacon : string;
  node : string;
  disableColor : bool;
  verbose : bool;
  useJson : bool;
  flag_out : string;
  flag_owner : string
}.

(** [if len(s) > 0 { p = &s }]. *)
Definition nonempty (s : string) : option string :=
  if (String.length s =? 0)%nat then None else Some s.

(** The action of the [credentials] command. *)
Definition credentials_action (f : Flags) : Cmd (list event) Go.error :=
  _ ← when (disableColor f) (emit SetNoColor) ;
  let out := nonempty (flag_out f) in
  let owner := nonempty (flag_owner f) in
  chainId ← getClients (node f) (beacon f) ;
  _ ← emit (CallGenerateValidatorProof (eigenpodAddress f) chainId) ;
  match GenerateValidatorProof env (eigenpodAddress f) chainId with
  | (Some validatorProofs, Some validatorIndices) =>
      let '(jsonString, err) := json_Marshal env validatorProofs in
      _ ← PanicOnError "failed to generate JSON proof data." err ;
      _ ← emit (WriteOutputToFileOrStdout jsonString out) ;
      match owner with
      | Some owner =>
          _ ← emit (CallPrepareAccount owner chainId) ;
          _ ← PanicOnError "failed to parse private key"
                (prepareAccount env owner chainId) ;
          _ ← emit (NewEigenPod (eigenpodAddress f)) ;
          _ ← PanicOnError "failed to reach eigenpod"
                (onchain_NewEigenPod env (eigenpodAddress f)) ;
          let indices := Uint64ArrayToBigIntArray env validatorIndices in
          let validatorFieldsProofs :=
            ToByteSlice env <$> ValidatorFieldsProofs validatorProofs in
          let validatorFields :=
            castValidatorFields env (ValidatorFields validatorProofs) in
          _ ← emit BlockByNumber ;
          let '(time, err) := eth_BlockByNumber env in
          _ ← PanicOnError "failed to load latest block" err ;
          _ ← emit (Printf [FgGreen] "submitting onchain..." []) ;
          let stateRootProof :=
            ToByteSlice env (StateRootProof_Proof (StateRootProof_ validatorProofs)) in
          let beaconStateRoot := BeaconStateRoot (StateRootProof_ validatorProofs) in
          _ ← emit (CallVerifyWithdrawalCredentials time stateRootProof
                      beaconStateRoot indices validatorFieldsProofs
                      validatorFields) ;
          let '(txnHash, err) :=
            eigenPod_VerifyWithdrawalCredentials env time stateRootProof
              beaconStateRoot indices validatorFieldsProofs validatorFields in
          _ ← PanicOnError "failed to invoke verifyWithdrawalCredentials" err ;
          _ ← emit (Printf [FgGreen] "transaction: %s" [AStr txnHash]) ;
          mret None
      | None => mret None
      end
  | _ => mret None
  end.

End Actions.

(** [shortenHex] of [cli/main.go]; a string shorter than 6 bytes makes the
    first slice expression panic. *)
Definition shortenHex (publicKey : string) : Go.outcome string :=
  if decide (6 ≤ String.length publicKey)%nat
  then Go.Ok (String.substring 0 6 publicKey ++ ".."
              ++ String.substring (String.length publicKey - 4) 4 publicKey)%string
  else Go.RuntimePanic.

(** [int64(x)] of a [uint64]. *)
Definition int64_of_uint64 (x : N) : Z :=
  if (x <? 2 ^ 63)%N then Z.of_N x else (Z.of_N x - 2 ^ 64)%Z.

(** ** The [status] action of [cli/main.go] *)

Module Status.

(** Modelled from the spec: the status types are declared in another file
    of the package; section 3 gives a validator the status enum
    [{Active, Inactive, Withdrawn}] and a checkpoint its fields. *)
Inductive ValidatorStatus :=
| ValidatorStatusInactive
| ValidatorStatusActive
| ValidatorStatusWithdrawn.

Record Validator := {
  Status : ValidatorStatus;
  Slashed : bool;
  PublicKey : string
}.

Record Checkpoint := {
  StartedAt : N;
  PendingSharesGwei : N;
  ProofsRemaining : N
}.

(** [*big.Float] values live in a store; a pointer is a location or nil. *)
Definition pointer := option positive.

(** [status.Validators] is a Go map; the list holds its entries in the
    order in which [range] happens to visit them. *)
Record EigenpodStatus := {
  Validators : list (string * Validator);
  ActiveCheckpoint : option Checkpoint;
  CurrentTotalSharesETH : pointer;
  TotalSharesAfterCheckpointETH : pointer
}.

Section WithFloat.

(** [big.Float] values, with what the action does to them. [Float_Sub x y]
    is the value of [new(big.Float).Sub(x, y)]: the difference rounded to
    the larger of the two precisions. *)
Variable Float : Type.
Variable Float_Sub : Float → Float → Float.
Variable Float_String : Float → string.
Variable Float_verb_f : Float → string.
Variable time_String : Z → string.

(** [gweiToEther] and [getStatus] are defined in other files of the
    package: the first gives the value of a fresh [big.Float], the second
    the status and the [big.Float]s it points to. *)
Variable gweiToEther : N → Float.
Variable getStatus : string → EigenpodStatus * gmap positive Float.
Variable json_MarshalIndent :
  EigenpodStatus → gmap positive Float → string * Go.error.
Variable env : Env.

Record store := {
  trace : list event;
  floats : gmap positive Float
}.

Definition emitS (e : event) : Cmd store unit :=
  λ s, (Go.Ok tt, {| trace := trace s ++ [e]; floats := floats s |}).

(** Running a command that only appends to the trace. *)
Definition on_trace {A} (c : Cmd (list event) A) : Cmd store A :=
  λ s, let '(o, tr) := c (trace s) in
       (o, {| trace := tr; floats := floats s |}).

(** A fresh [big.Float] holding [v]. *)
Definition alloc (v : Float) : Cmd store pointer :=
  λ s, let l := fresh (dom (floats s)) in
       (Go.Ok (Some l), {| trace := trace s; floats := <[l := v]> (floats s) |}).

(** Reading through a pointer; nil (or dangling) panics. *)
Definition deref (p : pointer) : Cmd store Float :=
  λ s, match p ≫= (λ l, floats s !! l) with
       | Some v => (Go.Ok v, s)
       | None => (Go.RuntimePanic, s)
       end.

(** [new(big.Float).Sub(x, y)]: the operands are read, the result goes to
    a fresh [big.Float]. *)
Definition new_Float_Sub (x y : pointer) : Cmd store pointer :=
  vx ← deref x ;
  vy ← deref y ;
  alloc (Float_Sub vx vy).

Definition gweiToEther_new (gwei : N) : Cmd store pointer :=
  alloc (gweiToEther gwei).

(** The body of [for index, validator := range status.Validators]. *)
Definition print_validator (verbose : bool) (entry : string * Validator)
  : Cmd store unit :=
  let '(index, validator) := entry in
  let '(targetColor, description) :=
    match Status validator with
    | ValidatorStatusActive => (FgGreen, "active")
    | ValidatorStatusInactive => (FgHiYellow, "inactive")
    | ValidatorStatusWithdrawn => (FgHiRed, "withdrawn")
    end in
  let description :=
    if Slashed validator then (description ++ " (slashed)")%string
    else description in
  publicKey ← (if verbose then mret (PublicKey validator)
               else lift (shortenHex (PublicKey validator))) ;
  emitS (Printf [targetColor] "\t- #%s (%s) [%s]\n"
           [AStr index; AStr publicKey; AStr description]).

Fixpoint print_validators (verbose : bool) (entries : list (string * Validator))
  : Cmd store unit :=
  match entries with
  | [] => mret tt
  | entry :: entries' =>
      _ ← print_validator verbose entry ;
      print_validators verbose entries'
  end.

Definition bold := [Bold; FgBlue].
Definition ital := [Italic; FgBlue].

(** The last part of the pretty printer: the projected share delta. *)
Definition print_delta (status : EigenpodStatus) : Cmd store unit :=
  match ActiveCheckpoint status with
  | Some checkpoint =>
      let startTime := int64_of_uint64 (StartedAt checkpoint) in
      _ ← emitS (Printf bold
             "!NOTE: There is a checkpoint active! (started at: %s)\n"
             [AStr (time_String startTime)]) ;
      endSharesETH ← gweiToEther_new (PendingSharesGwei checkpoint) ;
      deltaETH ← new_Float_Sub endSharesETH (CurrentTotalSharesETH status) ;
      delta ← deref deltaETH ;
      current ← deref (CurrentTotalSharesETH status) ;
      endShares ← deref endSharesETH ;
      _ ← emitS (Printf ital
             "\t- If you finish it, you may receive up to %s shares. (%s -> %s)\n"
             [AStr (Float_String delta); AStr (Float_String current);
              AStr (Float_String endShares)]) ;
      emitS (Printf ital "\t- %d proof(s) remaining until completion.\n"
               [AUint (ProofsRemaining checkpoint)])
  | None =>
      _ ← emitS (Printf bold
             "Runing a `checkpoint` right now will result in: \n" []) ;
      let startEther := CurrentTotalSharesETH status in
      let endEther := TotalSharesAfterCheckpointETH status in
      delta ← new_Float_Sub endEther startEther ;
      d ← deref delta ;
      s ← deref startEther ;
      e ← deref endEther ;
      emitS (Printf ital "\t%f new shares issued (%f ==> %f)\n"
               [AStr (Float_verb_f d); AStr (Float_verb_f s);
                AStr (Float_verb_f e)])
  end.

(** The report: plain JSON, or the validators and the projected share
    delta. *)
Definition report (f : Flags) (status : EigenpodStatus)
    (heap : gmap positive Float) : Cmd store unit :=
  if useJson f
  then
    let '(statusStr, err) := json_MarshalIndent status heap in
    _ ← PanicOnError "failed to get status" err ;
    emitS (Println statusStr)
  else
    _ ← emitS (Printf bold "Eigenpod validators\n" []) ;
    _ ← print_validators (verbose f) (Validators status) ;
    _ ← emitS (Println "") ;
    print_delta status.

(** [getStatus] has allocated the [big.Float]s of the status. *)
Definition allocated (heap : gmap positive Float) : Cmd store unit :=
  λ s, (Go.Ok tt, {| trace := trace s; floats := heap |}).

(** The action of the [status] command. *)
Definition status_action (f : Flags) : Cmd store Go.error :=
  _ ← when (disableColor f) (emitS SetNoColor) ;
  _ ← emitS (Dial (node f)) ;
  _ ← PanicOnError "failed to reach eth --node." (ethclient_Dial env (node f)) ;
  err ← on_trace (getBeaconClient env (beacon f)) ;
  _ ← PanicOnError "failed to reach beacon chain." err ;
  _ ← emitS (CallGetStatus (eigenpodAddress f)) ;
  let '(status, heap) := getStatus (eigenpodAddress f) in
  _ ← allocated heap ;
  _ ← report f status heap ;
  mret None.

(** A command is read-only when it leaves every [big.Float] it finds as
    it is and sends no transaction. *)
Definition read_only {A} (c : Cmd store A) : Prop :=
  ∀ s, floats s ⊆ floats (c s).2
       ∧ ∃ events, trace (c s).2 = trace s ++ events
                   ∧ Forall (λ e, is_transaction e = false) events.

End WithFloat.

Arguments trace {Float}.
Arguments floats {Float}.
Arguments emitS {Float}.
Arguments on_trace {Float A}.
Arguments alloc {Float}.
Arguments deref {Float}.
Arguments new_Float_Sub {Float}.
Arguments gweiToEther_new {Float}.
Arguments print_validator {Float}.
Arguments print_validators {Float}.
Arguments print_delta {Float}.
Arguments report {Float}.
Arguments allocated {Float}.
Arguments status_action {Float}.
Arguments read_only {Float A}.

End Status.

(** ** The engine of the specification *)

(** The error kinds of section 7. *)
Inductive EngineError :=
| ValidatorNotFoundError (specificIndex : N)
| MalformedTreeError
| StaleCheckpointRootError
| SubmissionError
| ValidationError.

#[global] Instance EngineError_eq_dec : EqDecision EngineError.
Proof. solve_decision. Defined.

Section FindMatching.

Variable FromHex : string → list byte.

(** Modelled from the spec: the function that applies the specific-index
    filter, [GenerateValidatorProof] of package [core], is defined outside
    [cli/commands]. Section 4.3: the linear scan, and if [specificIndex] is
    provided, the result is filtered to that single index (fails with
    [ValidatorNotFoundError] if absent or non-matching). The scan itself is
    [findAllValidatorsForEigenpod] of [cli/main.go]. *)
Definition findMatchingValidators (snapshot : VersionedBeaconState)
    (poolAddress : string) (specificIndex : option N)
  : Go.outcome (list ValidatorWithIndex * option EngineError) :=
  all ← findAllValidatorsForEigenpod FromHex poolAddress snapshot ;
  match specificIndex with
  | None => Go.Ok (all, None)
  | Some index =>
      match filter (λ v, Index v = index) all with
      | [] => Go.Ok ([], Some (ValidatorNotFoundError index))
      | found => Go.Ok (found, None)
      end
  end.

(** Modelled from the spec: the caller of [findMatchingValidators] inside
    [core.GenerateValidatorProof], which is defined outside [cli/commands].
    Section 4.3: only validators not already proven are eligible, and this
    filter is applied by the caller, not hidden inside the scan; a failure
    of the specific-index filter is passed on. *)
Definition selectValidators (eligible : ValidatorWithIndex → bool)
    (snapshot : VersionedBeaconState) (poolAddress : string)
    (specificIndex : option N)
  : Go.outcome (EngineError + list ValidatorWithIndex) :=
  '(found, err) ← findMatchingValidators snapshot poolAddress specificIndex ;
  match err with
  | Some e => Go.Ok (inl e)
  | None => Go.Ok (inr (filter eligible found))
  end.

(** Modelled from the spec: what [core.GenerateValidatorProof] answers for
    the snapshot it fetched, for every index it may be given (section 4.3).
    A failure of the filter is an error; with no validator left there is
    nothing to prove, nil proofs and no error; otherwise the proofs pair
    one-to-one with the selected validators, order preserved. *)
Definition generates_as_specified (eligible : ValidatorWithIndex → bool)
    (core : Commands.Core) (snapshot : VersionedBeaconState)
    (poolAddress : string) (clients : Commands.Clients) (isVerbose : bool)
  : Prop :=
  ∀ specificIndex,
    match selectValidators eligible snapshot poolAddress specificIndex with
    | Go.Ok (inl _) =>
        is_Some (Commands.GenerateValidatorProof core poolAddress clients
                   specificIndex isVerbose).2
    | Go.Ok (inr []) =>
        ∃ timestamp,
          Commands.GenerateValidatorProof core poolAddress clients
            specificIndex isVerbose = (None, timestamp, None)
    | Go.Ok (inr selected) =>
        ∃ proofs timestamp,
          Commands.GenerateValidatorProof core poolAddress clients
            specificIndex isVerbose = (Some proofs, timestamp, None)
          ∧ Commands.ProvenValidatorIndices proofs = Index <$> selected
    | _ => True
    end.

End FindMatching.

(** The validator indices of the proofs that a run hands to
    [core.SubmitValidatorProof], call by call. *)
Definition submitted_indices (tr : list Commands.event) : list (list N) :=
  omap (λ e, match e with
             | Commands.CallSubmitValidatorProof _ _ _ validatorProofs _ _ _ _ =>
                 Some (Commands.ProvenValidatorIndices validatorProofs)
             | _ => None
             end) tr.

(** ** MerkleProofBuilder (section 4.1) *)

Module Merkle.

Record MerkleProof := {
  leaf : list byte;
  path : list Bytes32;
  generalizedIndex : N;
  root : Bytes32
}.

Section WithHash.

(** The hash function, SHA-256 in the tool. *)
Variable sha256 : list byte → Bytes32.

(** An interior node is the hash of its two children, concatenated. *)
Definition hash_pair (l r : Bytes32) : Bytes32 := sha256 (l ++ r).

(** Modelled from the spec: a leaf shorter than the hash width is
    zero-padded on the right before hashing. *)
Definition pad_leaf (leaf : list byte) : Bytes32 :=
  leaf ++ replicate (32 - length leaf) x00.

(** Modelled from the spec: leaves are hashed pairwise, bottom-up. One
    level of that. *)
Fixpoint hash_level (nodes : list Bytes32) : list Bytes32 :=
  match nodes with
  | l :: r :: rest => hash_pair l r :: hash_level rest
  | _ => []
  end.

(** The position, in its level, of the sibling of the node at generalized
    index [index]: opposite the path bit. *)
Definition sibling_position (level : list Bytes32) (index : N) : nat :=
  let position := N.to_nat (index - N.of_nat (length level)) in
  if N.testbit index 0 then (position - 1)%nat else (position + 1)%nat.

(** Modelled from the spec: at each level the sibling opposite the path
    bit is recorded into [path]; the last level is the root. *)
Fixpoint climb (depth : nat) (level : list Bytes32) (index : N)
  : option (list Bytes32 * Bytes32) :=
  match depth with
  | O => r ← head level ; Some ([], r)
  | S depth' =>
      sibling ← level !! sibling_position level index ;
      '(path, r) ← climb depth' (hash_level level) (N.div2 index) ;
      Some (sibling :: path, r)
  end.

(** Modelled from the spec: [build(leaves, generalizedIndex)]; fails with
    [MalformedTreeError] if the number of leaves is not a power of two or
    the generalized index is out of range. The module that holds the
    builder belongs to the proof library, outside [cli]. *)
Definition build (leaves : list (list byte)) (generalizedIndex : N)
  : EngineError + MerkleProof :=
  let n := length leaves in
  let depth := Nat.log2 n in
  if decide ((n = 2 ^ depth)%nat
             ∧ N.of_nat n ≤ generalizedIndex < 2 * N.of_nat n)
  then
    match leaves !! N.to_nat (generalizedIndex - N.of_nat n),
          climb depth (pad_leaf <$> leaves) generalizedIndex with
    | Some leaf, Some (path, r) =>
        inr {| leaf := leaf; path := path;
               generalizedIndex := generalizedIndex; root := r |}
    | _, _ => inl MalformedTreeError
    end
  else inl MalformedTreeError.

(** Folding a path against a node: the low bit of the index is the
    direction at the deepest level. *)
Fixpoint fold_path (path : list Bytes32) (node : Bytes32) (index : N)
  : Bytes32 :=
  match path with
  | [] => node
  | sibling :: path' =>
      let parent :=
        if N.testbit index 0 then hash_pair sibling node
        else hash_pair node sibling in
      fold_path path' parent (N.div2 index)
  end.

(** Modelled from the spec: [verify(proof, expectedRoot)]; false, never an
    error, on mismatch. *)
Definition verify (proof : MerkleProof) (expectedRoot : Bytes32) : bool :=
  bool_decide
    (fold_path (path proof) (pad_leaf (leaf proof)) (generalizedIndex proof)
     = expectedRoot).

(** The root of the tree over the leaves: the levels hashed pairwise
    until one node is left. *)
Fixpoint reduce (depth : nat) (level : list Bytes32) : option Bytes32 :=
  match depth with
  | O => head level
  | S depth' => reduce depth' (hash_level level)
  end.

Definition tree_root (leaves : list (list byte)) : option Bytes32 :=
  reduce (Nat.log2 (length leaves)) (pad_leaf <$> leaves).

End WithHash.

End Merkle.

(** ** ProofBatcher (section 4.5) *)

Module Batcher.

Section Chunks.

Context {A : Type}.

(** Modelled from the spec: validator indices are split into contiguous
    chunks of size [batchSize], the last chunk possibly smaller. The
    function that partitions, inside [SubmitValidatorProof] of package
    [core], is defined outside [cli/commands]. *)
Equations? chunks (batchSize : nat) (l : list A) : list (list A)
  by wf (length l) lt :=
  chunks 0 _ := [];
  chunks (S b) [] := [];
  chunks (S b) (x :: l) :=
    take (S b) (x :: l) :: chunks (S b) (drop (S b) (x :: l)).
Proof. simpl. rewrite length_drop. lia. Qed.

End Chunks.

(** A batch size of zero holds no validator: the specification leaves the
    case open and the partition rejects it. *)
Definition partition (validatorIndices : list N) (batchSize : N)
  : EngineError + list (list N) :=
  if batchSize =? 0 then inl ValidationError
  else inr (chunks (N.to_nat batchSize) validatorIndices).

(** [ceil(n / b)] on integers. *)
Definition ceil_div (n b : Z) : Z := ((n + b - 1) / b)%Z.

End Batcher.

(** ** CheckpointProtocol (sections 3 and 4.4) *)

Module CheckpointProtocol.

Record Checkpoint := {
  startedAtTimestamp : Z;
  beaconBlockRoot : Bytes32;
  proofsRemaining : Z;
  pendingSharesGwei : Z
}.

(** Modelled from the spec: the states of section 4.4. The checkpoint is
    kept by the pool contract, outside the command line tool. With
    the checkpoint goes the set of validators that still require a balance
    proof against its beacon block root. *)
Inductive state :=
| NoActiveCheckpoint
| CheckpointStarted (startedAt : Z) (root : Bytes32)
| ProofsPending (checkpoint : Checkpoint) (requiring : gset N)
| Completed.

Inductive request :=
| Start (hasNativeBalance force : bool) (timestamp : Z) (root : Bytes32)
| Count (requiring : gset N) (pendingSharesGwei : Z)
| Submit (root : Bytes32) (validators : list N)
| Finish.

(** A submission proves validators that still require a proof, each once. *)
Definition proves (requiring : gset N) (validators : list N) : Prop :=
  NoDup validators ∧ Forall (λ v, v ∈ requiring) validators.

#[global] Instance proves_dec requiring validators :
  Decision (proves requiring validators).
Proof. unfold proves. apply _. Defined.

Definition decrement (c : Checkpoint) (k : Z) : Checkpoint :=
  {| startedAtTimestamp := startedAtTimestamp c;
     beaconBlockRoot := beaconBlockRoot c;
     proofsRemaining := (proofsRemaining c - k)%Z;
     pendingSharesGwei := pendingSharesGwei c |}.

(** Modelled from the spec: the transitions of section 4.4.
    - a start is gated by the native balance unless forced;
    - on start, the count of validators requiring a balance proof becomes
      [proofsRemaining];
    - a successful submission of [k] proofs, against the root recorded at
      the start, decrements [proofsRemaining] by [k]; another root is a
      [StaleCheckpointRootError];
    - with nothing remaining the checkpoint completes. *)
Definition step (s : state) (r : request) : EngineError + state :=
  match s, r with
  | NoActiveCheckpoint, Start hasNativeBalance force timestamp root =>
      if hasNativeBalance || force
      then inr (CheckpointStarted timestamp root)
      else inl ValidationError
  | CheckpointStarted startedAt root, Count requiring pending =>
      inr (ProofsPending
             {| startedAtTimestamp := startedAt;
                beaconBlockRoot := root;
                proofsRemaining := Z.of_nat (size requiring);
                pendingSharesGwei := pending |}
             requiring)
  | ProofsPending c requiring, Submit root validators =>
      if decide (root = beaconBlockRoot c)
      then
        if decide (proves requiring validators)
        then inr (ProofsPending
                    (decrement c (Z.of_nat (length validators)))
                    (requiring ∖ list_to_set validators))
        else inl SubmissionError
      else inl StaleCheckpointRootError
  | ProofsPending c requiring, Finish =>
      if (proofsRemaining c =? 0)%Z then inr Completed
      else inl ValidationError
  | _, _ => inl ValidationError
  end.

(** The states a pool can be in. *)
Inductive reachable : state → Prop :=
| reachable_init : reachable NoActiveCheckpoint
| reachable_step s r s' :
    reachable s → step s r = inr s' → reachable s'.

(** The counter agrees with the set: it is the number of validators that
    still require a proof. *)
Definition counted (s : state) : Prop :=
  match s with
  | ProofsPending c requiring =>
      proofsRemaining c = Z.of_nat (size requiring)
  | _ => True
  end.

(** A run of successful submissions. *)
Fixpoint submit_all (s : state) (root : Bytes32) (batches : list (list N))
  : EngineError + state :=
  match batches with
  | [] => inr s
  | batch :: batches' =>
      match step s (Submit root batch) with
      | inr s' => submit_all s' root batches'
      | inl e => inl e
      end
  end.

End CheckpointProtocol.

(** ** Concrete inputs *)

Module Examples.

(** A decoder that reads hexadecimal text the way [common.FromHex] does:
    an optional [0x], a leading zero for an odd number of digits, and the
    bytes decoded before the first character that is not a digit. *)
Definition hex_digit (c : Ascii.ascii) : option N :=
  let n := Ascii.N_of_ascii c in
  if (48 <=? n) && (n <=? 57) then Some (n - 48)
  else if (97 <=? n) && (n <=? 102) then Some (n - 87)
  else if (65 <=? n) && (n <=? 70) then Some (n - 55)
  else None.

Fixpoint Hex2Bytes (s : string) : list byte :=
  match s with
  | String a (String b rest) =>
      match hex_digit a, hex_digit b with
      | Some h, Some l =>
          match Byte.of_N (16 * h + l) with
          | Some x => x :: Hex2Bytes rest
          | None => []
          end
      | _, _ => []
      end
  | _ => []
  end.

Definition has0xPrefix (s : string) : bool :=
  match s with
  | String a (String b _) =>
      (Ascii.N_of_ascii a =? 48)
      && ((Ascii.N_of_ascii b =? 120) || (Ascii.N_of_ascii b =? 88))
  | _ => false
  end.

Definition FromHex (s : string) : list byte :=
  let s := if has0xPrefix s
           then String.substring 2 (String.length s - 2) s else s in
  let s := if Nat.odd (String.length s) then ("0" ++ s)%string else s in
  Hex2Bytes s.

Definition pool : string := "0x1111111111111111111111111111111111111111".

Definition pool_credentials : list byte :=
  x01 :: replicate 11 x00 ++ replicate 20 x11.

Definition other_credentials : list byte :=
  x01 :: replicate 11 x00 ++ replicate 20 x22.

Definition bls_credentials : list byte := replicate 32 x00.

Definition validator (key : byte) (credentials : list byte) : phase0_Validator :=
  {| PublicKey := replicate 48 key;
     WithdrawalCredentials := credentials;
     EffectiveBalance := 32000000000;
     Slashed := false |}.

(** Five validators; those at index 2 and 4 withdraw to the pool. *)
Definition five_validators : list (option phase0_Validator) :=
  [ Some (validator xa0 bls_credentials);
    Some (validator xa1 other_credentials);
    Some (validator xa2 pool_credentials);
    None;
    Some (validator xa4 pool_credentials) ].

Definition snapshot : VersionedBeaconState :=
  {| Validators := (five_validators, None) |}.

(** A stand-in for the hash function: any function will do where the
    statement holds for all of them. *)
Definition digest (bs : list byte) : list byte := take 32 (reverse bs).

Definition four_leaves : list (list byte) :=
  [ [x01]; [x02]; [x03]; replicate 32 x04 ].

(** Arguments and environments for [CredentialsCommand]. *)
Definition clients : Commands.Clients :=
  {| Commands.eth := 1; Commands.beaconClient := 2; Commands.chainId := 17000 |}.

Definition proofs : Commands.VerifyValidatorFieldsCallParams :=
  {| Commands.ProvenValidatorIndices := [4]; Commands.ProofPayload := [] |}.

Definition txn : Commands.types_Transaction :=
  {| Commands.To := Some pool; Commands.Data := "3f65cf19";
     Commands.Hash := "0xfeed" |}.

(** Every call succeeds and there is a proof to submit. *)
Definition busy_core : Commands.Core :=
  {| Commands.GetClients := λ _ _ _, (clients, None);
     Commands.GenerateValidatorProof := λ _ _ _ _, (Some proofs, 1700000000, None);
     Commands.SubmitValidatorProof :=
       λ _ _ _ _ _ _ _ _ _, ([txn], [[4]], None) |}.

(** Every call succeeds and no validator awaits a proof. *)
Definition idle_core : Commands.Core :=
  {| Commands.GetClients := λ _ _ _, (clients, None);
     Commands.GenerateValidatorProof := λ _ _ _ _, (None, 0, None);
     Commands.SubmitValidatorProof := λ _ _ _ _ _ _ _ _ _, ([], [], None) |}.

(** The requested validator is not found. *)
Definition missing_core : Commands.Core :=
  {| Commands.GetClients := λ _ _ _, (clients, None);
     Commands.GenerateValidatorProof :=
       λ _ _ _ _, (None, 0, Some "validator not found");
     Commands.SubmitValidatorProof := λ _ _ _ _ _ _ _ _ _, ([], [], None) |}.

Definition args (simulate : bool) (sender : string) (specific : N)
  : Commands.TCredentialCommandArgs :=
  {| Commands.EigenpodAddress := pool;
     Commands.DisableColor := false;
     Commands.UseJSON := false;
     Commands.SimulateTransaction := simulate;
     Commands.Node := "http://localhost:8545";
     Commands.BeaconNode := "http://localhost:5052";
     Commands.Sender := sender;
     Commands.SpecificValidator := specific;
     Commands.BatchSize := 2;
     Commands.NoPrompt := true;
     Commands.Verbose := false |}.

(** Flags and an environment for the actions of [cli/main.go]; no
    validator awaits a proof. *)
Definition flags : Flags :=
  {| eigenpodAddress := pool;
     beacon := "http://localhost:5052";
     node := "http://localhost:8545";
     disableColor := false;
     verbose := false;
     useJson := false;
     flag_out := "";
     flag_owner := "" |}.

Definition info : IEigenPodValidatorInfo :=
  {| ValidatorIndex := 0; RestakedBalanceGwei := 0;
     LastCheckpointedAt := 0; Status := 0 |}.

Definition idle_env : Env :=
  {| ethclient_Dial := λ _, None;
     eth_ChainID := (17000%Z, None);
     beacon_NewBeaconClient := λ _, None;
     eth_BlockByNumber := (1700000000, None);
     onchain_NewEigenPod := λ _, None;
     eigenPod_ValidatorPubkeyHashToInfo := λ _, (info, None);
     eigenPod_VerifyWithdrawalCredentials := λ _ _ _ _ _ _, ("0xfeed", None);
     sha256_Sum256 := digest;
     json_Marshal := λ _, ("{}", None);
     GenerateValidatorProof := λ _ _, (None, None);
     prepareAccount := λ _ _, None;
     Uint64ArrayToBigIntArray := λ l, Z.of_N <$> l;
     ToByteSlice := λ proof, concat proof;
     castValidatorFields := id |}.

(** A pool status with the [big.Float]s it points to; the stand-in for
    [big.Float] is [Z], counted in gwei. *)
Definition shares : gmap positive Z :=
  {[ 1%positive := 64000000000%Z; 2%positive := 96000000000%Z ]}.

Definition status_of (checkpoint : option Status.Checkpoint)
  : Status.EigenpodStatus :=
  {| Status.Validators :=
       [ ("2", {| Status.Status := Status.ValidatorStatusActive;
                  Status.Slashed := false;
                  Status.PublicKey := "0xa2a2a2a2a2a2" |}) ];
     Status.ActiveCheckpoint := checkpoint;
     Status.CurrentTotalSharesETH := Some 1%positive;
     Status.TotalSharesAfterCheckpointETH := Some 2%positive |}.

Definition pending_checkpoint : Status.Checkpoint :=
  {| Status.StartedAt := 1700000000;
     Status.PendingSharesGwei := 96000000000;
     Status.ProofsRemaining := 3 |}.

Definition store_of (heap : gmap positive Z) : Status.store Z :=
  {| Status.trace := []; Status.floats := heap |}.

Definition no_text (z : Z) : string := "".

(** A checkpoint that has just counted three validators. *)
Definition three_requiring : gset N := {[ 1; 2; 3 ]}.

Definition block_root : Bytes32 := replicate 32 x07.

Definition counted_checkpoint : CheckpointProtocol.Checkpoint :=
  {| CheckpointProtocol.startedAtTimestamp := 1700000000;
     CheckpointProtocol.beaconBlockRoot := block_root;
     CheckpointProtocol.proofsRemaining := Z.of_nat (size three_requiring);
     CheckpointProtocol.pendingSharesGwei := 0 |}.

End Examples.

(** ** The [checkpoint] action of [cli/main.go] *)

(** The events and the environment of the other actions, under the names
    this part uses for them. *)
Definition main_event : Type := event.
Definition main_Env : Type := Env.
Definition main_is_transaction : main_event → bool := is_transaction.

Module CheckpointAction.

(** The proof document of the checkpoint action, as the action reads it: the
    root of the balances and its proof, and the balance proofs, which are
    handed on without a look inside. *)
Record VerifyCheckpointProofsCallParams := {
  ValidatorBalancesRoot : Bytes32;
  ValidatorBalancesRootProof : Proof;
  BalanceProofs : list (list byte)
}.

(** What a run does, in order: the events of the other actions, and the
    calls that only this one makes. *)
Inductive event :=
| Main (e : main_event)
| CallCurrentCheckpointTimestamp
| CallCurrentCheckpoint
| CallStartCheckpoint (eigenpodAddress owner : string) (chainId : Z)
    (forceCheckpoint : bool)
| CallGenerateCheckpointProof (eigenpodAddress : string) (chainId : Z)
| CallVerifyCheckpointProofs (balanceContainerRoot : Bytes32)
    (proof : list byte) (balanceProofs : list (list byte)).

(** The events that change the chain. *)
Definition is_transaction (e : event) : bool :=
  match e with
  | Main e => main_is_transaction e
  | CallStartCheckpoint _ _ _ _ => true
  | CallVerifyCheckpointProofs _ _ _ => true
  | _ => false
  end.

(** What the action calls beyond the environment of the other actions: two
    reads and one call of the contract binding, and three functions that are
    defined in other files of the package. A nil proof is [None]. *)
Record Env := {
  main : main_Env;
  eigenPod_CurrentCheckpointTimestamp : N * Go.error;
  eigenPod_CurrentCheckpoint : Bytes32 * Go.error;
  startCheckpoint : string → string → Z → bool → N * Go.error;
  GenerateCheckpointProof :
    string → Z → option VerifyCheckpointProofsCallParams;
  json_Marshal : option VerifyCheckpointProofsCallParams → string * Go.error;
  castBalanceProofs : list (list byte) → list (list byte);
  eigenPod_VerifyCheckpointProofs :
    Bytes32 → list byte → list (list byte) → string * Go.error
}.

(** A command of the other actions, run here: its events are appended. *)
Definition on_main {A} (c : Cmd (list main_event) A) : Cmd (list event) A :=
  λ tr, let '(o, events) := c [] in (o, tr ++ (Main <$> events)).

Section WithEnv.

Variable env : Env.

Definition getCurrentCheckpoint (eigenpodAddress : string)
  : Cmd (list event) N :=
  _ ← emit (Main (NewEigenPod eigenpodAddress)) ;
  _ ← PanicOnError "failed to locate eigenpod. is your address correct?"
        (onchain_NewEigenPod (main env) eigenpodAddress) ;
  _ ← emit CallCurrentCheckpointTimestamp ;
  let '(timestamp, err) := eigenPod_CurrentCheckpointTimestamp env in
  _ ← PanicOnError "failed to locate eigenpod. Is your address correct?" err ;
  mret timestamp.

(** The pointer returned is never nil and the error always is. *)
Definition getCurrentCheckpointBlockRoot (eigenpodAddress : string)
  : Cmd (list event) (Bytes32 * Go.error) :=
  _ ← emit (Main (NewEigenPod eigenpodAddress)) ;
  _ ← PanicOnError "failed to locate Eigenpod. Is your address correct?"
        (onchain_NewEigenPod (main env) eigenpodAddress) ;
  _ ← emit CallCurrentCheckpoint ;
  let '(beaconBlockRoot, err) := eigenPod_CurrentCheckpoint env in
  _ ← PanicOnError "failed to reach eigenpod." err ;
  mret (beaconBlockRoot, None).

(** [if currentCheckpoint == 0 { ... }]: the timestamp the action goes on
    with. *)
Definition ensure_checkpoint (eigenpodAddress : string) (owner : option string)
    (chainId : Z) (forceCheckpoint : bool) (currentCheckpoint : N)
  : Cmd (list event) N :=
  if currentCheckpoint =? 0 then
    match owner with
    | Some owner =>
        _ ← emit (CallStartCheckpoint eigenpodAddress owner chainId
                    forceCheckpoint) ;
        let '(newCheckpoint, err) :=
          startCheckpoint env eigenpodAddress owner chainId forceCheckpoint in
        _ ← PanicOnError "failed to start checkpoint" err ;
        mret newCheckpoint
    | None =>
        _ ← PanicOnError
              "no checkpoint active and no private key provided to start one"
              (Some "no checkpoint") ;
        mret currentCheckpoint
    end
  else mret currentCheckpoint.

(** [if owner != nil { ... }]: the submission of the proof. *)
Definition submit_checkpoint_proof (eigenpodAddress : string)
    (owner : option string) (chainId : Z)
    (proof : option VerifyCheckpointProofsCallParams)
  : Cmd (list event) unit :=
  match owner with
  | Some owner =>
      _ ← emit (Main (CallPrepareAccount owner chainId)) ;
      _ ← PanicOnError "failed to parse private key"
            (prepareAccount (main env) owner chainId) ;
      _ ← emit (Main (NewEigenPod eigenpodAddress)) ;
      _ ← PanicOnError "failed to reach eigenpod"
            (onchain_NewEigenPod (main env) eigenpodAddress) ;
      _ ← emit (Main (Printf [FgGreen]
                        "calling EigenPod.VerifyCheckpointProofs()..." [])) ;
      p ← lift (match proof with
                | Some p => Go.Ok p
                | None => Go.RuntimePanic
                end) ;
      let balanceContainerRoot := ValidatorBalancesRoot p in
      let proofBytes := ToByteSlice (main env) (ValidatorBalancesRootProof p) in
      let balanceProofs := castBalanceProofs env (BalanceProofs p) in
      _ ← emit (CallVerifyCheckpointProofs balanceContainerRoot proofBytes
                  balanceProofs) ;
      let '(txnHash, err) :=
        eigenPod_VerifyCheckpointProofs env balanceContainerRoot proofBytes
          balanceProofs in
      _ ← PanicOnError "failed to invoke verifyCheckpointProofs" err ;
      emit (Main (Printf [FgGreen] "transaction: %s" [AStr txnHash]))
  | None => mret tt
  end.

(** The action of the [checkpoint] command; [forceCheckpoint] is its flag
    [--force]. *)
Definition checkpoint_action (f : Flags) (forceCheckpoint : bool)
  : Cmd (list event) Go.error :=
  _ ← when (disableColor f) (emit (Main SetNoColor)) ;
  let out := nonempty (flag_out f) in
  let owner := nonempty (flag_owner f) in
  chainId ← on_main (getClients (main env) (node f) (beacon f)) ;
  currentCheckpoint ← getCurrentCheckpoint (eigenpodAddress f) ;
  currentCheckpoint ← ensure_checkpoint (eigenpodAddress f) owner chainId
                        forceCheckpoint currentCheckpoint ;
  _ ← emit (Main (Printf [FgGreen]
                    "pod has active checkpoint! checkpoint timestamp: %d"
                    [AUint currentCheckpoint])) ;
  _ ← emit (CallGenerateCheckpointProof (eigenpodAddress f) chainId) ;
  let proof := GenerateCheckpointProof env (eigenpodAddress f) chainId in
  let '(jsonString, err) := json_Marshal env proof in
  _ ← PanicOnError "failed to generate JSON proof data." err ;
  _ ← emit (Main (WriteOutputToFileOrStdout jsonString out)) ;
  _ ← submit_checkpoint_proof (eigenpodAddress f) owner chainId proof ;
  mret None.

End WithEnv.

End CheckpointAction.

(** ** Conditions on inputs that the code is sensitive to *)

(** Credentials on which the scan indexes or slices out of range: none at
    all, or first byte 1 and fewer than 12 bytes. *)
Definition out_of_range_credentials (o : option phase0_Validator) : Prop :=
  match o with
  | None => False
  | Some v =>
      WithdrawalCredentials v = []
      ∨ (head (WithdrawalCredentials v) = Some x01
         ∧ (length (WithdrawalCredentials v) < 12)%nat)
  end.

#[global] Instance out_of_range_credentials_dec o :
  Decision (out_of_range_credentials o).
Proof. destruct o; simpl; apply _. Defined.

(** The test of the scan itself: first byte 1 and the bytes from position 12
    on equal to the address. *)
Definition scan_test (eigenpodAddressBytes : list byte)
    (v : phase0_Validator) : Prop :=
  head (WithdrawalCredentials v) = Some x01
  ∧ drop 12 (WithdrawalCredentials v) = eigenpodAddressBytes.

(** A public key too short for [shortenHex]. *)
Definition short_key (entry : string * Status.Validator) : Prop :=
  (String.length (Status.PublicKey entry.2) < 6)%nat.

#[global] Instance short_key_dec entry : Decision (short_key entry).
Proof. unfold short_key. apply _. Defined.

(** The line [print_validator] prints for an entry whose key is shown as
    [publicKey]. *)
Definition validator_line (publicKey : string)
    (entry : string * Status.Validator) : event :=
  let description :=
    match Status.Status entry.2 with
    | Status.ValidatorStatusActive => "active"
    | Status.ValidatorStatusInactive => "inactive"
    | Status.ValidatorStatusWithdrawn => "withdrawn"
    end in
  Printf
    [ match Status.Status entry.2 with
      | Status.ValidatorStatusActive => FgGreen
      | Status.ValidatorStatusInactive => FgHiYellow
      | Status.ValidatorStatusWithdrawn => FgHiRed
      end ]
    "\t- #%s (%s) [%s]\n"
    [ AStr entry.1; AStr publicKey;
      AStr (if Status.Slashed entry.2
            then (description ++ " (slashed)")%string else description) ].

(** A pointer of the status that is nil or points into the store. *)
Definition nil_or_allocated {Float} (heap : gmap positive Float)
    (p : Status.pointer) : Prop :=
  match p with
  | None => True
  | Some l => is_Some (heap !! l)
  end.

(** The lines [print_hashes] prints, counted from [i]. *)
Definition hash_lines (i : N) (txns : list Commands.types_Transaction)
  : list Commands.event :=
  imap (λ k txn, Commands.Green "transaction(%d): %s"
                   [AUint (i + N.of_nat k); AStr (Commands.Hash txn)]) txns.

(** What the scan keeps of a slice when it does not panic: the validators
    that pass [scan_test], each with its position counted from [i]. *)
Fixpoint scanned_from (eigenpodAddressBytes : list byte) (i : N)
    (vs : list (option phase0_Validator)) : list ValidatorWithIndex :=
  match vs with
  | [] => []
  | o :: vs' =>
      match o with
      | Some v =>
          if decide (scan_test eigenpodAddressBytes v)
          then [ {| Validator := v; Index := i |} ] else []
      | None => []
      end ++ scanned_from eigenpodAddressBytes (N.succ i) vs'
  end.

(** When [CredentialsCommand] returns instead of exiting: the clients are
    reached, the two flags are not both set, proofs are generated without an
    error, and, where proofs are submitted or simulated, that succeeds and
    (for the print of a simulation) every transaction has a destination. *)
Definition returns_normally (core : Commands.Core)
    (args : Commands.TCredentialCommandArgs) : Prop :=
  let '(clients, err) :=
    Commands.GetClients core (Commands.Node args) (Commands.BeaconNode args)
      (Commands.isVerbose args) in
  err = None
  ∧ (Commands.SimulateTransaction args = false ∨ Commands.Sender args = "")
  ∧ match Commands.GenerateValidatorProof core (Commands.EigenpodAddress args)
            clients (Commands.specificValidatorIndex args)
            (Commands.isVerbose args) with
    | (Some proofs, timestamp, None) =>
        Commands.SimulateTransaction args = false ∧ Commands.Sender args = ""
        ∨ let '(txns, indices, err) :=
            Commands.SubmitValidatorProof core (Commands.Sender args)
              (Commands.EigenpodAddress args) clients (Commands.BatchSize args)
              proofs timestamp (Commands.NoPrompt args)
              (Commands.SimulateTransaction args) (Commands.isVerbose args) in
          err = None
          ∧ (Commands.SimulateTransaction args = true →
             Forall (λ txn, is_Some (Commands.To txn)) txns)
    | _ => False
    end.

(** The key as the listing of validators shows it. *)
Definition shown_key (verbose : bool) (publicKey : string) : string :=
  if verbose then publicKey
  else (String.substring 0 6 publicKey ++ ".."
        ++ String.substring (String.length publicKey - 4) 4 publicKey)%string.

(** The entries the listing gets to: all of them when verbose, and otherwise
    those before the first key that is too short to be shortened. *)
Fixpoint listed (verbose : bool) (entries : list (string * Status.Validator))
  : list (string * Status.Validator) :=
  match entries with
  | [] => []
  | entry :: entries' =>
      if decide (verbose = false ∧ short_key entry) then []
      else entry :: listed verbose entries'
  end.

(** A formatted line, as opposed to a plain one. *)
Definition is_Printf (e : event) : bool :=
  match e with
  | Printf _ _ _ => true
  | _ => false
  end.

Definition is_Println (e : event) : bool :=
  match e with
  | Println _ => true
  | _ => false
  end.

(** The submission of a checkpoint proof among the events. *)
Definition is_verify_checkpoint (e : CheckpointAction.event) : bool :=
  match e with
  | CheckpointAction.CallVerifyCheckpointProofs _ _ _ => true
  | _ => false
  end.

(** ** More concrete inputs *)

Module MoreExamples.

(** Flags with an owner key, and flags that ask for JSON. *)
Definition owner_flags : Flags :=
  {| eigenpodAddress := Examples.pool;
     beacon := "http://localhost:5052";
     node := "http://localhost:8545";
     disableColor := false;
     verbose := false;
     useJson := false;
     flag_out := "proof.json";
     flag_owner := "0xkey" |}.

Definition json_flags : Flags :=
  {| eigenpodAddress := Examples.pool;
     beacon := "http://localhost:5052";
     node := "http://localhost:8545";
     disableColor := false;
     verbose := false;
     useJson := true;
     flag_out := "";
     flag_owner := "" |}.

Definition credential_proofs : VerifyValidatorFieldsCallParams :=
  {| StateRootProof_ :=
       {| BeaconStateRoot := replicate 32 x09;
          StateRootProof_Proof := [replicate 32 x0a] |};
     ValidatorFieldsProofs := [ [replicate 32 x0b] ];
     ValidatorFields := [ [replicate 32 x0c] ] |}.

(** Every call succeeds and validator 4 awaits a proof. *)
Definition busy_env : Env :=
  {| ethclient_Dial := λ _, None;
     eth_ChainID := (17000%Z, None);
     beacon_NewBeaconClient := λ _, None;
     eth_BlockByNumber := (1700000000, None);
     onchain_NewEigenPod := λ _, None;
     eigenPod_ValidatorPubkeyHashToInfo := λ _, (Examples.info, None);
     eigenPod_VerifyWithdrawalCredentials := λ _ _ _ _ _ _, ("0xfeed", None);
     sha256_Sum256 := Examples.digest;
     json_Marshal := λ _, ("{}", None);
     GenerateValidatorProof := λ _ _, (Some credential_proofs, Some [4]);
     prepareAccount := λ _ _, None;
     Uint64ArrayToBigIntArray := λ l, Z.of_N <$> l;
     ToByteSlice := λ proof, concat proof;
     castValidatorFields := id |}.

Definition checkpoint_proof : CheckpointAction.VerifyCheckpointProofsCallParams :=
  {| CheckpointAction.ValidatorBalancesRoot := replicate 32 x0d;
     CheckpointAction.ValidatorBalancesRootProof := [replicate 32 x0e];
     CheckpointAction.BalanceProofs := [ [x01]; [x02] ] |}.

(** No checkpoint is active; starting one gives timestamp 1700000000. *)
Definition checkpoint_env : CheckpointAction.Env :=
  {| CheckpointAction.main := busy_env;
     CheckpointAction.eigenPod_CurrentCheckpointTimestamp := (0, None);
     CheckpointAction.eigenPod_CurrentCheckpoint := (replicate 32 x07, None);
     CheckpointAction.startCheckpoint := λ _ _ _ _, (1700000000, None);
     CheckpointAction.GenerateCheckpointProof := λ _ _, Some checkpoint_proof;
     CheckpointAction.json_Marshal := λ _, ("{}", None);
     CheckpointAction.castBalanceProofs := id;
     CheckpointAction.eigenPod_VerifyCheckpointProofs :=
       λ _ _ _, ("0xfeed", None) |}.

(** No validator has been proven yet. *)
Definition not_yet_proven (v : ValidatorWithIndex) : bool := true.

(** Modelled from the spec: a [core] whose proof generation selects the
    validators of [Examples.snapshot] as section 4.3 says, and whose
    submission is one transaction for the proofs it is given. *)
Definition engine_core : Commands.Core :=
  {| Commands.GetClients := λ _ _ _, (Examples.clients, None);
     Commands.GenerateValidatorProof :=
       λ poolAddress _ specificIndex _,
         match selectValidators Examples.FromHex not_yet_proven
                 Examples.snapshot poolAddress specificIndex with
         | Go.Ok (inr []) => (None, 0, None)
         | Go.Ok (inr selected) =>
             (Some {| Commands.ProvenValidatorIndices := Index <$> selected;
                      Commands.ProofPayload := [] |}, 1700000000, None)
         | Go.Ok (inl _) => (None, 0, Some "validator not found")
         | _ => (None, 0, Some "failed to fetch beacon state")
         end;
     Commands.SubmitValidatorProof :=
       λ _ _ _ _ proofs _ _ _ _,
         ([Examples.txn], [Commands.ProvenValidatorIndices proofs], None) |}.

End MoreExamples.

(* ================================================================== *)
(** * Properties *)
(* ================================================================== *)

(** ** The credential scan *)

Section ScanProperties.

Variable FromHex : string → list byte.

Lemma last_bytes_32 (s : list byte) :
  length s = 32%nat → last_bytes 20 s = drop 12 s.
Proof. intros Hlen. unfold last_bytes. by rewrite Hlen. Qed.

(** On well-formed credentials one turn of the loop appends the validator
    exactly when it matches. *)
Lemma scan_step_matching addr i v out :
  length (WithdrawalCredentials v) = 32%nat →
  scan_step addr i (Some v) out =
    Go.Ok (out ++ matching_from addr i [Some v]).
Proof.
  intros Hlen.
  assert (Hm : credentials_match addr v ↔
               head (WithdrawalCredentials v) = Some x01
               ∧ addr = drop 12 (WithdrawalCredentials v)).
  { unfold credentials_match. rewrite (last_bytes_32 _ Hlen). naive_solver. }
  unfold scan_step. cbn [matching_from].
  destruct (WithdrawalCredentials v) as [|b0 cs] eqn:Hc; [done|].
  cbn [Go.index0 head] in *.
  unfold mbind, outcome_bind, Go.bind, Go.slice_from, Go.bytes_Equal.
  rewrite decide_True by (simpl in *; lia).
  destruct (decide (credentials_match addr v)) as [Hy|Hn].
  - apply Hm in Hy as [[= ->] Heq].
    by rewrite !bool_decide_eq_true_2.
  - rewrite app_nil_r.
    destruct (decide (b0 = x01)) as [->|Hb].
    + rewrite bool_decide_eq_true_2 by done. cbn [negb].
      rewrite bool_decide_eq_false_2; [done|].
      intros Heq. apply Hn, Hm. by split.
    + by rewrite bool_decide_eq_false_2.
Qed.

Lemma matching_from_cons addr i o vs :
  matching_from addr i (o :: vs) =
    matching_from addr i [o] ++ matching_from addr (N.succ i) vs.
Proof.
  destruct o as [v|]; cbn [matching_from]; [|done].
  by destruct (decide (credentials_match addr v)).
Qed.

Lemma scan_loop_matching addr vs : ∀ i out,
  credentials_wf vs →
  scan_loop addr i vs out = Go.Ok (out ++ matching_from addr i vs).
Proof.
  induction vs as [|o vs IH]; intros i out Hwf.
  - by rewrite app_nil_r.
  - apply Forall_cons in Hwf as [Ho Hwf].
    cbn [scan_loop]. rewrite (matching_from_cons addr i o vs), app_assoc.
    destruct o as [v|].
    + rewrite scan_step_matching by exact Ho.
      unfold mbind, outcome_bind, Go.bind. by apply IH.
    + cbn [scan_step matching_from]. rewrite app_nil_r.
      unfold mbind, outcome_bind, Go.bind. by apply IH.
Qed.

(** Membership in the reference list: positions are counted from [i]. *)
Lemma elem_of_matching_from addr vs : ∀ i v j,
  {| Validator := v; Index := j |} ∈ matching_from addr i vs ↔
  i ≤ j ∧ vs !! N.to_nat (j - i) = Some (Some v) ∧ credentials_match addr v.
Proof.
  induction vs as [|o vs IH]; intros i v j.
  - cbn [matching_from]. rewrite elem_of_nil, lookup_nil. naive_solver.
  - assert (Hshift : i < j → N.to_nat (j - i) = S (N.to_nat (j - N.succ i)))
      by lia.
    assert (Hzero : i = j → N.to_nat (j - i) = 0%nat) by lia.
    destruct o as [w|]; cbn [matching_from];
      [destruct (decide (credentials_match addr w)) as [Hm|Hm];
         [rewrite elem_of_cons|]|];
      rewrite IH; split.
    + intros [Heq|(Hle & Hl & Hmv)].
      * inversion Heq; subst. rewrite Hzero by done. split; [lia|done].
      * rewrite Hshift by lia. split; [lia|done].
    + intros (Hle & Hl & Hmv).
      destruct (decide (i = j)) as [->|Hne].
      * rewrite Hzero in Hl by done. left. naive_solver.
      * rewrite Hshift in Hl by lia. right. split; [lia|done].
    + intros (Hle & Hl & Hmv). rewrite Hshift by lia. split; [lia|done].
    + intros (Hle & Hl & Hmv).
      destruct (decide (i = j)) as [->|Hne].
      * rewrite Hzero in Hl by done. naive_solver.
      * rewrite Hshift in Hl by lia. split; [lia|done].
    + intros (Hle & Hl & Hmv). rewrite Hshift by lia. split; [lia|done].
    + intros (Hle & Hl & Hmv).
      destruct (decide (i = j)) as [->|Hne].
      * rewrite Hzero in Hl by done. naive_solver.
      * rewrite Hshift in Hl by lia. split; [lia|done].
Qed.

Lemma matching_from_lower addr vs : ∀ i,
  Forall (λ x, i ≤ Index x) (matching_from addr i vs).
Proof.
  induction vs as [|o vs IH]; intros i; [constructor|].
  assert (Hweak : Forall (λ x, i ≤ Index x) (matching_from addr (N.succ i) vs)).
  { eapply Forall_impl; [apply IH|]. intros x Hx. simpl in Hx. lia. }
  destruct o as [v|]; cbn [matching_from]; [|done].
  destruct (decide (credentials_match addr v)); [|done].
  constructor; [simpl; lia|done].
Qed.

Lemma matching_from_ascending addr vs : ∀ i,
  StronglySorted N.lt (Index <$> matching_from addr i vs).
Proof.
  induction vs as [|o vs IH]; intros i; [constructor|].
  destruct o as [v|]; cbn [matching_from]; [|apply IH].
  destruct (decide (credentials_match addr v)); [|apply IH].
  rewrite fmap_cons. constructor; [apply IH|].
  apply Forall_fmap. eapply Forall_impl; [apply (matching_from_lower addr vs)|].
  intros x Hx. simpl in *. lia.
Qed.

(** C1. Whatever the size of the validator set, the scan returns exactly
    the validators whose withdrawal credentials start with byte 1 and end,
    in their last 20 bytes, with the bytes of the pool address; they come
    in ascending order of validator index. *)
Theorem findAllValidatorsForEigenpod_exact eigenpodAddress beaconState vs :
  Validators beaconState = (vs, None) →
  credentials_wf vs →
  ∃ out,
    findAllValidatorsForEigenpod FromHex eigenpodAddress beaconState
      = Go.Ok out
    ∧ (∀ v i, {| Validator := v; Index := i |} ∈ out ↔
         vs !! N.to_nat i = Some (Some v)
         ∧ credentials_match (FromHex eigenpodAddress) v)
    ∧ StronglySorted N.lt (Index <$> out).
Proof.
  intros Hst Hwf. exists (matching_from (FromHex eigenpodAddress) 0 vs).
  split; [|split].
  - unfold findAllValidatorsForEigenpod. rewrite Hst. cbn.
    by rewrite scan_loop_matching.
  - intros v i. rewrite elem_of_matching_from, N.sub_0_r.
    split; [naive_solver|]. intros [? ?]. split; [lia|done].
  - apply matching_from_ascending.
Qed.

(** At most one scanned validator carries a given index: the one at that
    position of the slice, if it matches. *)
Lemma filter_index_matching addr vs : ∀ i j,
  filter (λ x, Index x = j) (matching_from addr i vs) =
    if decide (i ≤ j) then
      match vs !! N.to_nat (j - i) with
      | Some (Some v) =>
          if decide (credentials_match addr v)
          then [ {| Validator := v; Index := j |} ] else []
      | _ => []
      end
    else [].
Proof.
  induction vs as [|o vs IH]; intros i j.
  - cbn [matching_from]. rewrite filter_nil, lookup_nil. by case_decide.
  - assert (Hshift : i < j → N.to_nat (j - i) = S (N.to_nat (j - N.succ i)))
      by lia.
    assert (Hrest : filter (λ x, Index x = j)
                      (matching_from addr (N.succ i) vs) =
                    if decide (i < j) then
                      match (o :: vs) !! N.to_nat (j - i) with
                      | Some (Some v) =>
                          if decide (credentials_match addr v)
                          then [ {| Validator := v; Index := j |} ] else []
                      | _ => []
                      end
                    else []).
    { rewrite IH. destruct (decide (i < j)) as [Hlt|Hge].
      - rewrite decide_True by lia. by rewrite Hshift.
      - by rewrite decide_False by lia. }
    destruct (decide (i = j)) as [<-|Hne].
    + rewrite decide_False in Hrest by lia.
      rewrite decide_True by lia. replace (N.to_nat (i - i)) with 0%nat by lia.
      destruct o as [w|]; cbn [matching_from lookup list_lookup]; [|done].
      destruct (decide (credentials_match addr w)); [|done].
      rewrite filter_cons, decide_True by done. by rewrite Hrest.
    + assert (Hsame : (if decide (i ≤ j) then
                         match (o :: vs) !! N.to_nat (j - i) with
                         | Some (Some v) =>
                             if decide (credentials_match addr v)
                             then [ {| Validator := v; Index := j |} ] else []
                         | _ => []
                         end
                       else [])
                      = filter (λ x, Index x = j)
                          (matching_from addr (N.succ i) vs)).
      { rewrite Hrest. destruct (decide (i < j)).
        - by rewrite decide_True by lia.
        - by rewrite decide_False by lia. }
      rewrite Hsame.
      destruct o as [w|]; cbn [matching_from]; [|done].
      destruct (decide (credentials_match addr w)); [|done].
      by rewrite filter_cons, decide_False by done.
Qed.

End ScanProperties.

(** ** Merkle proofs: building and verifying *)

Section MerkleProperties.

Import Merkle.

Variable sha256 : list byte → Bytes32.

Lemma hash_level_length (k : nat) : ∀ nodes : list Bytes32,
  length nodes = (2 * k)%nat → length (hash_level sha256 nodes) = k.
Proof.
  induction k as [|k IH]; intros [|l [|r rest]] Hlen; simpl in *; try lia.
  f_equal. apply IH. lia.
Qed.

Lemma hash_level_lookup (i : nat) : ∀ (nodes : list Bytes32) l r,
  nodes !! (2 * i)%nat = Some l →
  nodes !! (2 * i + 1)%nat = Some r →
  hash_level sha256 nodes !! i = Some (hash_pair sha256 l r).
Proof.
  induction i as [|i IH]; intros [|a [|b rest]] l r Hl Hr; simpl in *;
    try discriminate.
  - by simplify_eq.
  - replace (i + S (i + 0))%nat with (S (2 * i)) in Hl by lia.
    replace (i + S (i + 0) + 1)%nat with (S (2 * i + 1)) in Hr by lia.
    simpl in Hl, Hr. by apply IH.
Qed.

(** The index splits into its low bit and the rest. *)
Lemma index_even_or_odd (index : N) :
  (N.testbit index 0 = false ∧ index = 2 * N.div2 index)
  ∨ (N.testbit index 0 = true ∧ index = 2 * N.div2 index + 1).
Proof.
  destruct index as [|[p|p|]]; simpl; auto.
Qed.

(** Climbing from a node of a complete level gives a path that folds back
    to the root of that level. *)
Lemma climb_fold (depth : nat) : ∀ (level : list Bytes32) (index : N),
  length level = (2 ^ depth)%nat →
  N.of_nat (2 ^ depth) ≤ index < 2 * N.of_nat (2 ^ depth) →
  ∃ node path r,
    level !! N.to_nat (index - N.of_nat (2 ^ depth)) = Some node
    ∧ climb sha256 depth level index = Some (path, r)
    ∧ reduce sha256 depth level = Some r
    ∧ fold_path sha256 path node index = r
    ∧ length path = depth.
Proof.
  induction depth as [|depth IH]; intros level index Hlen Hrange.
  - destruct level as [|node [|? ?]]; simpl in Hlen; try lia.
    exists node, [], node. simpl in *.
    replace (N.to_nat (index - N.of_nat 1)) with 0%nat by lia. done.
  - assert (Hpow : (2 ^ S depth = 2 * 2 ^ depth)%nat) by (simpl; lia).
    rewrite Hpow in *.
    pose proof (hash_level_length _ _ Hlen) as Hup.
    set (half := N.div2 index) in *.
    assert (Hhalf : N.of_nat (2 ^ depth) ≤ half < 2 * N.of_nat (2 ^ depth)).
    { destruct (index_even_or_odd index) as [[_ He]|[_ He]]; fold half in He; lia. }
    destruct (IH _ half Hup Hhalf) as (up & path & r & Hnode & Hclimb & Hred & Hfold & Hlp).
    set (k := N.to_nat (half - N.of_nat (2 ^ depth))) in *.
    assert (Hk : (k < 2 ^ depth)%nat) by (unfold k; lia).
    destruct (lookup_lt_is_Some_2 level (2 * k)%nat) as [a Ha]; [lia|].
    destruct (lookup_lt_is_Some_2 level (2 * k + 1)%nat) as [b Hb]; [lia|].
    pose proof (hash_level_lookup k level a b Ha Hb) as Hab.
    rewrite Hnode in Hab. injection Hab as ->.
    cbn [climb reduce fold_path]. fold half.
    unfold sibling_position. rewrite Hlen, Hclimb.
    destruct (index_even_or_odd index) as [[Hbit He]|[Hbit He]]; fold half in He.
    + exists a, (b :: path), r.
      replace (N.to_nat (index - N.of_nat (2 * 2 ^ depth))) with (2 * k)%nat
        by (unfold k; lia).
      rewrite Hbit, Hb. cbn [fold_path]. rewrite Hbit. fold half.
      rewrite Hfold. cbn. by rewrite Hlp.
    + exists b, (a :: path), r.
      replace (N.to_nat (index - N.of_nat (2 * 2 ^ depth))) with (2 * k + 1)%nat
        by (unfold k; lia).
      rewrite Hbit. replace (2 * k + 1 - 1)%nat with (2 * k)%nat by lia.
      rewrite Ha. cbn [fold_path]. rewrite Hbit. fold half.
      rewrite Hfold. cbn. by rewrite Hlp.
Qed.

(** C4. For a tree whose number of leaves is a power of two and a
    generalized index that points at one of its leaves, [build] succeeds
    and the proof it returns verifies against the root of the tree. *)
Theorem verify_build (leaves : list (list byte)) (index : N) (depth : nat) :
  length leaves = (2 ^ depth)%nat →
  N.of_nat (length leaves) ≤ index < 2 * N.of_nat (length leaves) →
  ∃ proof r,
    build sha256 leaves index = inr proof
    ∧ tree_root sha256 leaves = Some r
    ∧ verify sha256 proof r = true
    ∧ root proof = r
    ∧ generalizedIndex proof = index
    ∧ leaves !! N.to_nat (index - N.of_nat (length leaves)) = Some (leaf proof)
    ∧ length (path proof) = depth.
Proof.
  intros Hlen Hrange.
  assert (Hlog : Nat.log2 (length leaves) = depth).
  { rewrite Hlen. apply Nat.log2_pow2. lia. }
  destruct (climb_fold depth (pad_leaf <$> leaves) index)
    as (node & path & r & Hnode & Hclimb & Hred & Hfold & Hlp).
  { by rewrite length_fmap. }
  { by rewrite <- Hlen. }
  rewrite <- Hlen, list_lookup_fmap in Hnode.
  destruct (leaves !! N.to_nat (index - N.of_nat (length leaves)))
    as [lf|] eqn:Hleaf; [|done].
  injection Hnode as <-.
  exists {| leaf := lf; path := path; generalizedIndex := index; root := r |}, r.
  unfold build, tree_root, verify. rewrite Hlog, Hleaf, Hclimb, Hred.
  rewrite decide_True by (split; [done|lia]).
  cbn [Merkle.path Merkle.leaf Merkle.generalizedIndex Merkle.root].
  rewrite Hfold. by rewrite bool_decide_eq_true_2.
Qed.

End MerkleProperties.

(** ** Batching *)

Section BatcherProperties.

Import Batcher.

Context {A : Type}.

Lemma chunks_cons (b : nat) (l : list A) :
  l ≠ [] →
  chunks (S b) l = take (S b) l :: chunks (S b) (drop (S b) l).
Proof. destruct l as [|x l]; [done|]. intros _. by simp chunks. Qed.

(** The chunk at position [i] is the slice of [l] that starts at [i * b]. *)
Lemma chunks_lookup (b : nat) (l : list A) : ∀ (i : nat) (c : list A),
  chunks (S b) l !! i = Some c ↔
  (i * S b < length l)%nat ∧ c = take (S b) (drop (i * S b) l).
Proof.
  induction l as [l IH] using (induction_ltof1 _ (@length A)).
  unfold ltof in IH. intros i c.
  destruct (decide (l = [])) as [->|Hne].
  - simp chunks. rewrite lookup_nil. simpl. split; [done|lia].
  - assert (Hpos : (0 < length l)%nat) by (destruct l; [done|simpl; lia]).
    rewrite chunks_cons by done.
    destruct i as [|i].
    + simpl. rewrite (drop_0 l). split; [intros [= <-]; split; [lia|done]|].
      by intros [_ ->].
    + rewrite lookup_cons.
      assert (Hdec : (length (drop (S b) l) < length l)%nat)
        by (rewrite length_drop; lia).
      rewrite (IH (drop (S b) l) Hdec i c), length_drop, drop_drop.
      replace (S b + i * S b)%nat with (S i * S b)%nat by lia.
      split; intros [Hlt ->]; (split; [lia|done]).
Qed.

Lemma chunks_concat (b : nat) (l : list A) : concat (chunks (S b) l) = l.
Proof.
  induction l as [l IH] using (induction_ltof1 _ (@length A)).
  unfold ltof in IH.
  destruct (decide (l = [])) as [->|Hne]; [by simp chunks|].
  assert (Hpos : (0 < length l)%nat) by (destruct l; [done|simpl; lia]).
  rewrite chunks_cons by done. cbn [concat].
  rewrite IH by (rewrite length_drop; lia).
  apply take_drop.
Qed.

(** The number of chunks [m] sits between [n / b] and its successor. *)
Lemma chunks_count (b : nat) (l : list A) :
  let m := length (chunks (S b) l) in
  (length l ≤ m * S b)%nat ∧ (m = 0 ∨ (m - 1) * S b < length l)%nat.
Proof.
  intros m. split.
  - destruct (decide (length l ≤ m * S b)%nat) as [|Hgt]; [done|]. exfalso.
    destruct (chunks_lookup b l m (take (S b) (drop (m * S b) l))) as [_ Hin].
    assert (Hsome : chunks (S b) l !! m
                    = Some (take (S b) (drop (m * S b) l)))
      by (apply Hin; split; [lia|done]).
    apply lookup_lt_Some in Hsome. unfold m in Hsome. lia.
  - destruct (decide (m = 0)%nat) as [|Hm]; [by left|right].
    destruct (lookup_lt_is_Some_2 (chunks (S b) l) (m - 1)) as [c Hc];
      [unfold m in *; lia|].
    by apply chunks_lookup in Hc as [? _].
Qed.

Lemma ceil_div_unique (n b m : Z) :
  (0 < b → n ≤ m * b → (m - 1) * b < n → ceil_div n b = m)%Z.
Proof.
  intros Hb Hle Hlt. unfold ceil_div. symmetry.
  apply (Z.div_unique_pos _ _ m (n + b - 1 - b * m)%Z); lia.
Qed.

Lemma chunks_ceil (b : nat) (l : list A) :
  Z.of_nat (length (chunks (S b) l))
  = ceil_div (Z.of_nat (length l)) (Z.of_nat (S b)).
Proof.
  destruct (chunks_count b l) as [Hle Hlt]. symmetry.
  apply ceil_div_unique; [lia|nia|].
  destruct Hlt as [->|Hlt]; [simpl; lia|nia].
Qed.

End BatcherProperties.

(** C6. For [N] validator indices and a batch size [B ≥ 1], the partition
    consists of [ceil(N/B)] contiguous chunks in order (their concatenation
    is the input); every chunk but the last has exactly [B] elements and the
    last has [N - B * (ceil(N/B) - 1)]. *)
Theorem partition_arithmetic (validatorIndices : list N) (batchSize : N) :
  1 ≤ batchSize →
  let n := Z.of_nat (length validatorIndices) in
  let b := Z.of_N batchSize in
  ∃ batches,
    Batcher.partition validatorIndices batchSize = inr batches
    ∧ concat batches = validatorIndices
    ∧ Z.of_nat (length batches) = Batcher.ceil_div n b
    ∧ (∀ i batch, batches !! i = Some batch →
         (i + 1 < length batches)%nat → Z.of_nat (length batch) = b)
    ∧ (∀ batch, last batches = Some batch →
         Z.of_nat (length batch) = (n - b * (Batcher.ceil_div n b - 1))%Z).
Proof.
  intros Hb n b.
  destruct (N.to_nat batchSize) as [|b'] eqn:Hb'; [lia|].
  assert (Hbz : b = Z.of_nat (S b')) by lia.
  exists (Batcher.chunks (S b') validatorIndices).
  pose proof (chunks_count b' validatorIndices) as [Hle Hlt].
  pose proof (chunks_ceil b' validatorIndices) as Hceil.
  fold n in Hceil. rewrite <- Hbz in Hceil.
  split; [|split; [|split; [|split]]].
  - unfold Batcher.partition. rewrite (proj2 (N.eqb_neq _ _)) by lia.
    by rewrite Hb'.
  - apply chunks_concat.
  - done.
  - intros i batch Hi Hnext.
    apply chunks_lookup in Hi as [Hlt' ->].
    rewrite length_take, length_drop. nia.
  - intros batch Hlast. rewrite <- Hceil.
    rewrite last_lookup in Hlast.
    apply chunks_lookup in Hlast as [Hlt' ->].
    rewrite length_take, length_drop.
    set (m := length (Batcher.chunks (S b') validatorIndices)) in *.
    replace (Init.Nat.pred m) with (m - 1)%nat in * by lia.
    destruct Hlt as [Hm|Hlt]; [rewrite Hm in *; simpl in *; lia|].
    assert (Hm : (1 ≤ m)%nat) by (destruct m; simpl in *; lia).
    assert (Hk : (m * S b' = (m - 1) * S b' + S b')%nat) by nia.
    rewrite Nat.min_r by lia.
    rewrite Nat2Z.inj_sub, Nat2Z.inj_mul, Nat2Z.inj_sub by lia.
    unfold n. rewrite Hbz. lia.
Qed.

(** ** The checkpoint life cycle *)

Section CheckpointProperties.

Import CheckpointProtocol.

Lemma size_after_submission (requiring : gset N) (validators : list N) :
  proves requiring validators →
  size (requiring ∖ list_to_set validators)
  = (size requiring - length validators)%nat.
Proof.
  intros [Hnd Hin].
  rewrite size_difference.
  - by rewrite size_list_to_set.
  - intros v Hv. apply elem_of_list_to_set in Hv.
    by apply (proj1 (Forall_forall _ _) Hin).
Qed.

Lemma submission_fits (requiring : gset N) (validators : list N) :
  proves requiring validators → (length validators ≤ size requiring)%nat.
Proof.
  intros [Hnd Hin].
  rewrite <- (size_list_to_set (C := gset N) validators Hnd).
  apply subseteq_size. intros v Hv. apply elem_of_list_to_set in Hv.
  by apply (proj1 (Forall_forall _ _) Hin).
Qed.

(** What a successful submission does to a pending checkpoint. *)
Lemma step_submit c requiring root validators s' :
  step (ProofsPending c requiring) (Submit root validators) = inr s' →
  root = beaconBlockRoot c
  ∧ proves requiring validators
  ∧ s' = ProofsPending (decrement c (Z.of_nat (length validators)))
           (requiring ∖ list_to_set validators).
Proof.
  cbn [step]. intros Hstep.
  destruct (decide (root = beaconBlockRoot c)); [|done].
  destruct (decide (proves requiring validators)); [|done].
  by injection Hstep as <-.
Qed.

Lemma step_counted s r s' : counted s → step s r = inr s' → counted s'.
Proof.
  intros Hs Hstep. destruct s as [| | c requiring |], r; cbn [step] in Hstep;
    try discriminate.
  - destruct (_ || _); by simplify_eq.
  - by simplify_eq.
  - apply step_submit in Hstep as (_ & Hp & ->). cbn in *.
    rewrite size_after_submission by done.
    pose proof (submission_fits _ _ Hp). lia.
  - destruct (_ =? _)%Z; by simplify_eq.
Qed.

Lemma reachable_counted s : reachable s → counted s.
Proof.
  induction 1 as [|s r s' _ IH Hstep]; [done|]. by eapply step_counted.
Qed.

(** A run of successful submissions from a pending checkpoint. *)
Lemma submit_all_pending batches : ∀ c requiring root s',
  submit_all (ProofsPending c requiring) root batches = inr s' →
  ∃ c',
    s' = ProofsPending c' (requiring ∖ list_to_set (concat batches))
    ∧ proofsRemaining c'
      = (proofsRemaining c - Z.of_nat (length (concat batches)))%Z.
Proof.
  induction batches as [|batch batches IH]; intros c requiring root s' Hrun.
  - injection Hrun as <-. exists c. split.
    + f_equal. set_solver.
    + simpl. lia.
  - cbn [submit_all] in Hrun.
    destruct (step _ _) as [e|s1] eqn:Hstep; [done|].
    apply step_submit in Hstep as (_ & _ & ->).
    apply IH in Hrun as (c' & -> & Hc'). exists c'. split.
    + f_equal. cbn [concat]. set_solver.
    + rewrite Hc'. cbn. rewrite length_app. lia.
Qed.

Lemma submit_all_reachable batches : ∀ s root s',
  reachable s → submit_all s root batches = inr s' → reachable s'.
Proof.
  induction batches as [|batch batches IH]; intros s root s' Hs Hrun.
  - by injection Hrun as <-.
  - cbn [submit_all] in Hrun.
    destruct (step s (Submit root batch)) as [e|s1] eqn:Hstep; [done|].
    eapply IH; [|done]. by eapply reachable_step.
Qed.

(** C5. In every reachable state with an active checkpoint
    [proofsRemaining] is not negative; a successful submission of [k]
    validator balance proofs leaves it at its value before minus [k]; and
    once submissions have covered all the validators that required a proof
    it is exactly 0. *)
Theorem checkpoint_monotonicity c requiring :
  reachable (ProofsPending c requiring) →
  (0 ≤ proofsRemaining c)%Z
  ∧ (∀ root validators s',
       step (ProofsPending c requiring) (Submit root validators) = inr s' →
       ∃ c' requiring',
         s' = ProofsPending c' requiring'
         ∧ proofsRemaining c'
           = (proofsRemaining c - Z.of_nat (length validators))%Z
         ∧ (0 ≤ proofsRemaining c')%Z)
  ∧ (∀ root batches s',
       submit_all (ProofsPending c requiring) root batches = inr s' →
       ∃ c' requiring',
         s' = ProofsPending c' requiring'
         ∧ proofsRemaining c'
           = (proofsRemaining c - Z.of_nat (length (concat batches)))%Z
         ∧ (0 ≤ proofsRemaining c')%Z
         ∧ (requiring ⊆ list_to_set (concat batches) →
            proofsRemaining c' = 0%Z)).
Proof.
  intros Hreach. pose proof (reachable_counted _ Hreach) as Hc. cbn in Hc.
  split; [lia|split].
  - intros root validators s' Hstep.
    assert (Hr' : reachable s') by (by eapply reachable_step).
    apply step_submit in Hstep as (_ & Hp & ->).
    eexists _, _. split; [done|]. split; [done|].
    apply reachable_counted in Hr'. cbn in *. lia.
  - intros root batches s' Hrun.
    assert (Hr' : reachable s') by (by eapply submit_all_reachable).
    apply submit_all_pending in Hrun as (c' & -> & Hc').
    apply reachable_counted in Hr'. cbn in Hr'.
    eexists _, _. split; [done|]. split; [done|]. split; [lia|].
    intros Hall. rewrite Hr'.
    replace (requiring ∖ list_to_set (concat batches)) with (∅ : gset N)
      by set_solver.
    by rewrite size_empty.
Qed.

End CheckpointProperties.

(** ** [CredentialsCommand] *)

Section CredentialsCommandProperties.

Import Commands.

Variable core : Core.

(** Unfolding one run of a command into its cases. *)
Ltac run :=
  unfold CredentialsCommand, when, PanicOnError, Panic, lift, emit,
    Go.PanicOnError, mbind, mret, Cmd_bind, Cmd_ret;
  cbn beta iota.

Lemma simulate_with_sender_run args tr :
  SimulateTransaction args = true →
  Sender args ≠ "" →
  CredentialsCommand core args tr =
    (Go.Fatal
       (match (GetClients core (Node args) (BeaconNode args) (isVerbose args)).2 with
        | Some _ => "failed to reach ethereum clients"
        | None => "if using --print-calldata, please do not specify a --sender."
        end),
     tr ++ prelude args).
Proof.
  intros Hsim Hsender. run. unfold prelude. rewrite Hsim.
  assert (Hlen : (String.length (Sender args) =? 0)%nat = false)
    by (by destruct (Sender args)).
  rewrite Hlen. cbn [negb andb].
  destruct (DisableColor args);
    destruct (GetClients core _ _ _) as [clients [e|]]; cbn;
    by rewrite <- ?app_assoc.
Qed.

Lemma print_hashes_run txns : ∀ i tr,
  ∃ lines,
    print_hashes i txns tr = (Go.Ok tt, tr ++ lines)
    ∧ generate_requests lines = []
    ∧ filter is_network_call lines = [].
Proof.
  induction txns as [|txn txns IH]; intros i tr.
  - exists []. by rewrite app_nil_r.
  - cbn [print_hashes]. unfold mbind, Cmd_bind, emit.
    destruct (IH (N.succ i) (tr ++ [Green "transaction(%d): %s"
                                       [AUint i; AStr (Hash txn)]]))
      as (lines & -> & Hg & Hn).
    eexists (_ :: lines). by rewrite <- app_assoc.
Qed.

(** Whatever the environment answers, a run calls [GenerateValidatorProof]
    at most once, and with the pointer that [SpecificValidator] decides. *)
Lemma generate_requests_run args tr :
  ∃ events,
    (CredentialsCommand core args tr).2 = tr ++ events
    ∧ (generate_requests events = []
       ∨ generate_requests events = [specificValidatorIndex args]).
Proof.
  run. repeat case_match; simplify_eq; cbn [snd].
  all: try match goal with
    | H : print_hashes ?i ?t ?tr = _ |- _ =>
        destruct (print_hashes_run t i tr) as (lines & Hrun & Hg & _);
        rewrite Hrun in H; simplify_eq
    end.
  all: rewrite <- ?app_assoc; eexists; (split; [reflexivity|]).
  all: unfold generate_requests in *; rewrite ?omap_app; cbn.
  all: rewrite ?Hg; cbn; auto.
Qed.

(** C2, as the code has it. With simulate-only mode and a sender both set,
    the run ends in a fatal error once the clients have been asked for: the
    flag error if they were reached, the connection error if not. Nothing
    happens before but the optional colour switch and the one call of
    [GetClients]; no proof is generated and nothing is submitted. *)
Theorem simulate_with_sender_rejected args tr :
  SimulateTransaction args = true →
  Sender args ≠ "" →
  CredentialsCommand core args tr =
    (Go.Fatal
       (match (GetClients core (Node args) (BeaconNode args) (isVerbose args)).2 with
        | Some _ => "failed to reach ethereum clients"
        | None => "if using --print-calldata, please do not specify a --sender."
        end),
     tr ++ prelude args)
  ∧ filter is_network_call (prelude args)
    = [CallGetClients (Node args) (BeaconNode args) (isVerbose args)]
  ∧ generate_requests (prelude args) = [].
Proof.
  intros Hsim Hsender. split; [by apply simulate_with_sender_run|].
  unfold prelude. by destruct (DisableColor args).
Qed.

(** With the clients reached, both flags unset or only one of them set,
    and a proof generation that returns no proofs and no error, the command
    ends with the fatal message of its guard. *)
Lemma no_proofs_run args tr clients timestamp :
  GetClients core (Node args) (BeaconNode args) (isVerbose args)
    = (clients, None) →
  SimulateTransaction args && negb (String.length (Sender args) =? 0)%nat
    = false →
  GenerateValidatorProof core (EigenpodAddress args) clients
    (specificValidatorIndex args) (isVerbose args) = (None, timestamp, None) →
  ∃ events,
    CredentialsCommand core args tr
      = (Go.Fatal "no inactive validators", tr ++ events)
    ∧ generate_requests events = [specificValidatorIndex args].
Proof.
  intros Hclients Hflags Hgen. run. rewrite Hclients, Hflags. cbn.
  rewrite Hgen. cbn.
  destruct (DisableColor args), (is_specific args && isVerbose args);
    cbn; rewrite <- ?app_assoc; eexists; (split; [reflexivity|]);
    unfold generate_requests; by rewrite ?omap_app.
Qed.

(** An error of proof generation, such as a validator that is not found,
    ends the command with its own fatal message. *)
Lemma generation_error_run args tr clients proofs timestamp e :
  GetClients core (Node args) (BeaconNode args) (isVerbose args)
    = (clients, None) →
  SimulateTransaction args && negb (String.length (Sender args) =? 0)%nat
    = false →
  GenerateValidatorProof core (EigenpodAddress args) clients
    (specificValidatorIndex args) (isVerbose args)
    = (proofs, timestamp, Some e) →
  ∃ events,
    CredentialsCommand core args tr
      = (Go.Fatal "Failed to generate validator proof", tr ++ events)
    ∧ generate_requests events = [specificValidatorIndex args].
Proof.
  intros Hclients Hflags Hgen. run. rewrite Hclients, Hflags. cbn.
  rewrite Hgen. cbn.
  destruct (DisableColor args), (is_specific args && isVerbose args), proofs;
    cbn; rewrite <- ?app_assoc; eexists; (split; [reflexivity|]);
    unfold generate_requests; by rewrite ?omap_app.
Qed.

Lemma print_hashes_quiet txns : ∀ i tr,
  ∃ lines,
    print_hashes i txns tr = (Go.Ok tt, tr ++ lines)
    ∧ generate_requests lines = []
    ∧ submitted_indices lines = [].
Proof.
  induction txns as [|txn txns IH]; intros i tr.
  - exists []. by rewrite app_nil_r.
  - cbn [print_hashes]. unfold mbind, Cmd_bind, emit.
    destruct (IH (N.succ i) (tr ++ [Green "transaction(%d): %s"
                                       [AUint i; AStr (Hash txn)]]))
      as (lines & -> & Hg & Hn).
    eexists (_ :: lines). by rewrite <- app_assoc.
Qed.

(** The print of a simulation never exits. *)
Lemma aMap_txns_no_exit indices txns message :
  aMap_txns indices txns ≠ Go.Fatal message.
Proof.
  induction txns as [|txn txns IH]; [done|].
  cbn [aMap_txns]. unfold To_Hex.
  destruct (To txn); [|done]. cbn.
  by destruct (aMap_txns indices txns).
Qed.

(** A proof generation that fails, or has nothing to prove, ends the
    command before anything is submitted. *)
Lemma generation_failed_run args tr clients proofs timestamp err :
  GetClients core (Node args) (BeaconNode args) (isVerbose args)
    = (clients, None) →
  SimulateTransaction args && negb (String.length (Sender args) =? 0)%nat
    = false →
  GenerateValidatorProof core (EigenpodAddress args) clients
    (specificValidatorIndex args) (isVerbose args) = (proofs, timestamp, err) →
  is_Some err ∨ proofs = None →
  ∃ events,
    CredentialsCommand core args tr
      = (Go.Fatal (match err with
                 | Some _ => "Failed to generate validator proof"
                 | None => "no inactive validators"
                 end), tr ++ events)
    ∧ generate_requests events = [specificValidatorIndex args]
    ∧ submitted_indices events = [].
Proof.
  intros Hclients Hflags Hgen Hfail. run. rewrite Hclients, Hflags. cbn.
  rewrite Hgen. cbn.
  destruct err as [e|], proofs as [p|];
    try (destruct Hfail as [[? [=]]|[=]]; fail).
  all: destruct (DisableColor args), (is_specific args && isVerbose args);
    cbn; rewrite <- ?app_assoc; eexists; (split; [reflexivity|]);
    unfold generate_requests, submitted_indices; by rewrite ?omap_app.
Qed.

(** A proof generation that yields proofs: the command hands these proofs,
    and no others, to the one call of [SubmitValidatorProof], if it is to
    submit or simulate at all. *)
Lemma generated_run args tr clients proofs timestamp :
  GetClients core (Node args) (BeaconNode args) (isVerbose args)
    = (clients, None) →
  SimulateTransaction args && negb (String.length (Sender args) =? 0)%nat
    = false →
  GenerateValidatorProof core (EigenpodAddress args) clients
    (specificValidatorIndex args) (isVerbose args)
    = (Some proofs, timestamp, None) →
  ∃ events,
    (CredentialsCommand core args tr).2 = tr ++ events
    ∧ generate_requests events = [specificValidatorIndex args]
    ∧ submitted_indices events
      = (if negb (String.length (Sender args) =? 0)%nat
            || SimulateTransaction args
         then [ProvenValidatorIndices proofs] else [])
    ∧ (CredentialsCommand core args tr).1
      ≠ Go.Fatal "Failed to generate validator proof"
    ∧ (CredentialsCommand core args tr).1 ≠ Go.Fatal "no inactive validators".
Proof.
  intros Hclients Hflags Hgen. run. rewrite Hclients, Hflags. cbn.
  rewrite Hgen. cbn.
  destruct (negb (String.length (Sender args) =? 0)%nat
            || SimulateTransaction args).
  2:{ destruct (DisableColor args), (is_specific args && isVerbose args);
        cbn; rewrite <- ?app_assoc; eexists; (split; [reflexivity|]);
        unfold generate_requests, submitted_indices; by rewrite ?omap_app. }
  destruct (SubmitValidatorProof core _ _ _ _ _ _ _ _ _)
    as [[txns indices] [e|]]; cbn.
  { destruct (DisableColor args), (is_specific args && isVerbose args),
      (SimulateTransaction args);
      cbn; rewrite <- ?app_assoc; eexists; (split; [reflexivity|]);
      unfold generate_requests, submitted_indices; by rewrite ?omap_app. }
  destruct (SimulateTransaction args).
  - pose proof (aMap_txns_no_exit indices txns) as Hexit.
    destruct (aMap_txns indices txns) as [out|m|]; [|by destruct (Hexit m)|];
      destruct (DisableColor args), (is_specific args && isVerbose args);
      cbn; rewrite <- ?app_assoc; eexists; (split; [reflexivity|]);
      unfold generate_requests, submitted_indices; by rewrite ?omap_app.
  - destruct (DisableColor args), (is_specific args && isVerbose args); cbn.
    all: match goal with
         | |- context [print_hashes ?i ?t ?tr] =>
             destruct (print_hashes_quiet t i tr) as (lines & -> & Hg & Hs)
         end.
    all: cbn; rewrite <- ?app_assoc; eexists; (split; [reflexivity|]).
    all: unfold generate_requests, submitted_indices in *;
      rewrite ?omap_app; cbn; by rewrite ?Hg, ?Hs.
Qed.

Lemma is_specific_sentinel args :
  SpecificValidator args = 0 ∨ SpecificValidator args = MaxUint64 →
  is_specific args = false.
Proof.
  unfold is_specific. intros [->| ->]; [done|].
  by rewrite N.eqb_refl.
Qed.

Lemma is_specific_true args :
  SpecificValidator args ≠ 0 → SpecificValidator args ≠ MaxUint64 →
  is_specific args = true.
Proof.
  intros H0 Hmax. unfold is_specific.
  by rewrite (proj2 (N.eqb_neq _ _) H0), (proj2 (N.eqb_neq _ _) Hmax).
Qed.

(** A command that is not given a specific validator does not read
    [SpecificValidator] any further. *)
Lemma unspecific_run args n tr :
  is_specific args = false →
  is_specific (with_SpecificValidator n args) = false →
  CredentialsCommand core args tr
  = CredentialsCommand core (with_SpecificValidator n args) tr.
Proof.
  intros Ha Hn. run. unfold specificValidatorIndex, isVerbose.
  rewrite Ha, Hn. reflexivity.
Qed.

(** C9. A requested index of 0, like the sentinel 2^64-1, counts as no
    index: the pointer handed to proof generation is nil, the run is the
    run of the command without a specific validator, and no run ever asks
    proof generation for validator 0 alone. *)
Theorem index_zero_is_no_index args tr :
  SpecificValidator args = 0 ∨ SpecificValidator args = MaxUint64 →
  specificValidatorIndex args = None
  ∧ CredentialsCommand core args tr
    = CredentialsCommand core (with_SpecificValidator MaxUint64 args) tr
  ∧ Forall (λ request, request = None)
      (generate_requests (CredentialsCommand core args []).2)
  ∧ ∀ args', Some 0 ∉ generate_requests (CredentialsCommand core args' []).2.
Proof.
  intros Hzero. pose proof (is_specific_sentinel _ Hzero) as Hs.
  assert (Hnone : specificValidatorIndex args = None)
    by (unfold specificValidatorIndex; by rewrite Hs).
  split; [done|split; [|split]].
  - apply unspecific_run; [done|]. apply is_specific_sentinel. by right.
  - destruct (generate_requests_run args []) as (events & -> & Hreq).
    cbn [app]. destruct Hreq as [->| ->]; [constructor|].
    rewrite Hnone. by repeat constructor.
  - intros args'.
    destruct (generate_requests_run args' []) as (events & -> & Hreq).
    cbn [app]. destruct Hreq as [->| ->]; [apply not_elem_of_nil|].
    intros Hin%list_elem_of_singleton. unfold specificValidatorIndex in Hin.
    destruct (is_specific args') eqn:Hsp; [|done].
    injection Hin as Hin. unfold is_specific in Hsp. rewrite <- Hin in Hsp.
    by rewrite andb_false_r in Hsp.
Qed.

End CredentialsCommandProperties.

(** ** The [credentials] action of [cli/main.go] *)

Section CredentialsActionProperties.

Variable env : Env.

Lemma getClients_run nodeUri beaconUri chain tr :
  ethclient_Dial env nodeUri = None →
  eth_ChainID env = (chain, None) →
  beacon_NewBeaconClient env beaconUri = None →
  getClients env nodeUri beaconUri tr
  = (Go.Ok chain, tr ++ [Dial nodeUri; ChainID; NewBeaconClient beaconUri]).
Proof.
  intros Hdial Hchain Hbeacon.
  unfold getClients, getBeaconClient, PanicOnError, lift, emit,
    Go.PanicOnError, mbind, mret, Cmd_bind, Cmd_ret.
  rewrite Hdial, Hchain, Hbeacon. cbn. by rewrite <- !app_assoc.
Qed.

(** With the clients reached and no proofs generated, the action returns
    nil after the call of [GenerateValidatorProof]. *)
Lemma credentials_action_nothing f chain tr :
  ethclient_Dial env (node f) = None →
  eth_ChainID env = (chain, None) →
  beacon_NewBeaconClient env (beacon f) = None →
  (GenerateValidatorProof env (eigenpodAddress f) chain).1 = None
  ∨ (GenerateValidatorProof env (eigenpodAddress f) chain).2 = None →
  credentials_action env f tr
  = (Go.Ok None,
     tr ++ (if disableColor f then [SetNoColor] else [])
        ++ [Dial (node f); ChainID; NewBeaconClient (beacon f);
            CallGenerateValidatorProof (eigenpodAddress f) chain]).
Proof.
  intros Hdial Hchain Hbeacon Hnil.
  unfold credentials_action, when, mbind, Cmd_bind.
  destruct (disableColor f); unfold emit at 1, mret at 1, Cmd_ret at 1;
    cbn beta iota; rewrite (getClients_run _ _ chain) by done;
    unfold emit, mret, Cmd_ret;
    destruct (GenerateValidatorProof env (eigenpodAddress f) chain)
      as [[p|] [i|]]; cbn in Hnil; try (by destruct Hnil);
    by rewrite <- ?app_assoc.
Qed.

End CredentialsActionProperties.

(** ** No validator to prove *)

(** C3, as the code has it. When proof generation returns nothing, the
    [credentials] action of [cli/main.go] returns nil: no error, nothing
    written, nothing sent. [CredentialsCommand] ends the same situation with
    the fatal message of its guard. *)
Theorem nothing_to_prove env f chain core args clients timestamp tr tr' :
  ethclient_Dial env (node f) = None →
  eth_ChainID env = (chain, None) →
  beacon_NewBeaconClient env (beacon f) = None →
  (GenerateValidatorProof env (eigenpodAddress f) chain).1 = None
  ∨ (GenerateValidatorProof env (eigenpodAddress f) chain).2 = None →
  Commands.GetClients core (Commands.Node args) (Commands.BeaconNode args)
    (Commands.isVerbose args) = (clients, None) →
  Commands.SimulateTransaction args
  && negb (String.length (Commands.Sender args) =? 0)%nat = false →
  Commands.GenerateValidatorProof core (Commands.EigenpodAddress args) clients
    (Commands.specificValidatorIndex args) (Commands.isVerbose args)
    = (None, timestamp, None) →
  (∃ events,
     credentials_action env f tr = (Go.Ok None, tr ++ events)
     ∧ Forall (λ e, is_transaction e = false
                    ∧ ∀ json out, e ≠ WriteOutputToFileOrStdout json out) events)
  ∧ ∃ events',
      Commands.CredentialsCommand core args tr'
      = (Go.Fatal "no inactive validators", tr' ++ events').
Proof.
  intros Hdial Hchain Hbeacon Hnil Hclients Hflags Hgen. split.
  - eexists. split; [by apply credentials_action_nothing|].
    destruct (disableColor f); by repeat constructor.
  - destruct (no_proofs_run core args tr' clients timestamp)
      as (events & Hrun & _); by eauto.
Qed.

(** ** A specific validator *)

(** The scan without a filter and with one, on a fetched state with
    32-byte credentials. *)
Lemma findMatchingValidators_cases FromHex snapshot vs poolAddress :
  Validators snapshot = (vs, None) →
  credentials_wf vs →
  findMatchingValidators FromHex snapshot poolAddress None
  = Go.Ok (matching_from (FromHex poolAddress) 0 vs, None)
  ∧ ∀ index,
      findMatchingValidators FromHex snapshot poolAddress (Some index)
      = match vs !! N.to_nat index with
        | Some (Some v) =>
            if decide (credentials_match (FromHex poolAddress) v)
            then Go.Ok ([ {| Validator := v; Index := index |} ], None)
            else Go.Ok ([], Some (ValidatorNotFoundError index))
        | _ => Go.Ok ([], Some (ValidatorNotFoundError index))
        end.
Proof.
  intros Hst Hwf.
  unfold findMatchingValidators, findAllValidatorsForEigenpod.
  rewrite Hst. cbn. rewrite scan_loop_matching by done. cbn.
  split; [done|]. intros index.
  rewrite filter_index_matching, decide_True, N.sub_0_r by lia.
  destruct (vs !! N.to_nat index) as [[v|]|]; [|done..].
  by case_decide.
Qed.

(** C8, as the code has it. A specific validator index other than 0 and
    2^64-1 is handed to proof generation as it is; with a proof generation
    that selects as section 4.3 says, the scan is filtered to that one
    validator and the command submits the proof of that index alone, and
    if the index is absent from the snapshot or its credentials do not
    match the pool the filter fails with [ValidatorNotFoundError] and the
    command ends with the fatal error of proof generation, nothing
    submitted. An index of 0, like 2^64-1, is handed on as no index: no
    filter is applied and the proofs are those of all the matching
    validators that are eligible. *)
Theorem specific_index_filter FromHex eligible core snapshot vs args clients tr :
  Validators snapshot = (vs, None) →
  credentials_wf vs →
  Commands.GetClients core (Commands.Node args) (Commands.BeaconNode args)
    (Commands.isVerbose args) = (clients, None) →
  Commands.SimulateTransaction args
  && negb (String.length (Commands.Sender args) =? 0)%nat = false →
  generates_as_specified FromHex eligible core snapshot
    (Commands.EigenpodAddress args) clients (Commands.isVerbose args) →
  let index := Commands.SpecificValidator args in
  let poolAddress := Commands.EigenpodAddress args in
  let submitting := negb (String.length (Commands.Sender args) =? 0)%nat
                    || Commands.SimulateTransaction args in
  ∃ events,
    (Commands.CredentialsCommand core args tr).2 = tr ++ events
    ∧ (index ≠ 0 → index ≠ Commands.MaxUint64 →
       Commands.generate_requests events = [Some index]
       ∧ (∀ v, vs !! N.to_nat index = Some (Some v) →
               credentials_match (FromHex poolAddress) v →
               findMatchingValidators FromHex snapshot poolAddress (Some index)
               = Go.Ok ([ {| Validator := v; Index := index |} ], None)
               ∧ (eligible {| Validator := v; Index := index |} = true →
                  submitted_indices events
                  = (if submitting then [[index]] else [])
                  ∧ (Commands.CredentialsCommand core args tr).1
                    ≠ Go.Fatal "Failed to generate validator proof")
               ∧ (eligible {| Validator := v; Index := index |} = false →
                  submitted_indices events = []
                  ∧ (Commands.CredentialsCommand core args tr).1
                    = Go.Fatal "no inactive validators"))
       ∧ ((∀ v, vs !! N.to_nat index = Some (Some v) →
                ¬ credentials_match (FromHex poolAddress) v) →
          findMatchingValidators FromHex snapshot poolAddress (Some index)
          = Go.Ok ([], Some (ValidatorNotFoundError index))
          ∧ submitted_indices events = []
          ∧ (Commands.CredentialsCommand core args tr).1
            = Go.Fatal "Failed to generate validator proof"))
    ∧ (index = 0 ∨ index = Commands.MaxUint64 →
       Commands.generate_requests events = [None]
       ∧ findMatchingValidators FromHex snapshot poolAddress None
         = Go.Ok (matching_from (FromHex poolAddress) 0 vs, None)
       ∧ (filter eligible (matching_from (FromHex poolAddress) 0 vs) ≠ [] →
          submitted_indices events
          = (if submitting
             then [Index <$> filter eligible
                               (matching_from (FromHex poolAddress) 0 vs)]
             else []))).
Proof.
  intros Hst Hwf Hclients Hflags Hspec index poolAddress submitting.
  subst poolAddress.
  destruct (findMatchingValidators_cases FromHex snapshot vs
              (Commands.EigenpodAddress args) Hst Hwf) as [Hall Hone].
  destruct (generate_requests_run core args tr) as (events & Htr & _).
  exists events. split; [done|].
  specialize (Hspec (Commands.specificValidatorIndex args)).
  unfold selectValidators in Hspec.
  (* the run, by what proof generation answered *)
  assert (Hfailed : ∀ proofs timestamp err,
    Commands.GenerateValidatorProof core (Commands.EigenpodAddress args) clients
      (Commands.specificValidatorIndex args) (Commands.isVerbose args)
      = (proofs, timestamp, err) →
    is_Some err ∨ proofs = None →
    Commands.generate_requests events = [Commands.specificValidatorIndex args]
    ∧ submitted_indices events = []
    ∧ (Commands.CredentialsCommand core args tr).1
      = Go.Fatal (match err with
                  | Some _ => "Failed to generate validator proof"
                  | None => "no inactive validators"
                  end)).
  { intros proofs timestamp err Hgen Hfail.
    destruct (generation_failed_run core args tr clients proofs timestamp err
                Hclients Hflags Hgen Hfail) as (events' & Hrun & Hg & Hs).
    rewrite Hrun in Htr |- *. cbn in Htr. by apply app_inv_head in Htr as <-. }
  assert (Hgenerated : ∀ p timestamp,
    Commands.GenerateValidatorProof core (Commands.EigenpodAddress args) clients
      (Commands.specificValidatorIndex args) (Commands.isVerbose args)
      = (Some p, timestamp, None) →
    Commands.generate_requests events = [Commands.specificValidatorIndex args]
    ∧ submitted_indices events
      = (if submitting then [Commands.ProvenValidatorIndices p] else [])
    ∧ (Commands.CredentialsCommand core args tr).1
      ≠ Go.Fatal "Failed to generate validator proof").
  { intros p timestamp Hgen.
    destruct (generated_run core args tr clients p timestamp
                Hclients Hflags Hgen) as (events' & Hrun & Hg & Hs & Hf & _).
    rewrite Hrun in Htr. by apply app_inv_head in Htr as <-. }
  assert (Herror :
    is_Some (Commands.GenerateValidatorProof core (Commands.EigenpodAddress args) clients
               (Commands.specificValidatorIndex args)
               (Commands.isVerbose args)).2 →
    Commands.generate_requests events = [Commands.specificValidatorIndex args]
    ∧ submitted_indices events = []
    ∧ (Commands.CredentialsCommand core args tr).1
      = Go.Fatal "Failed to generate validator proof").
  { destruct (Commands.GenerateValidatorProof core (Commands.EigenpodAddress args) clients
                (Commands.specificValidatorIndex args) (Commands.isVerbose args))
      as [[proofs timestamp] err] eqn:Hgen.
    cbn. intros Herr.
    destruct (Hfailed proofs timestamp err eq_refl (or_introl Herr))
      as (Hg & Hs & Hf).
    by destruct Herr as [e ->]. }
  split.
  - intros H0 Hmax.
    assert (Hidx : Commands.specificValidatorIndex args = Some index).
    { unfold Commands.specificValidatorIndex.
      by rewrite (is_specific_true args H0 Hmax). }
    rewrite Hidx in *. rewrite Hone in Hspec |- *. clear Hall.
    destruct (vs !! N.to_nat index) as [[v|]|] eqn:Hv.
    + destruct (decide (credentials_match (FromHex (Commands.EigenpodAddress args)) v)) as [Hm|Hm].
      * cbn in Hspec.
        destruct (eligible {| Validator := v; Index := index |}) eqn:Hel.
        -- rewrite !decide_True in Hspec by done.
           destruct Hspec as (p & ts & Hgen & Hp).
           destruct (Hgenerated p ts Hgen) as (Hg & Hs & Hf).
           split; [done|]. split.
           ++ intros v' [= <-] _. split; [done|]. split; [|congruence].
              intros _. by rewrite Hs, Hp.
           ++ intros Hnone. by destruct (Hnone v eq_refl).
        -- rewrite !decide_False in Hspec by (by intros []).
           destruct Hspec as (ts & Hgen).
           destruct (Hfailed None ts None Hgen) as (Hg & Hs & Hf); [by right|].
           split; [done|]. split.
           ++ intros v' [= <-] _. split; [done|]. split; [congruence|].
              by intros _.
           ++ intros Hnone. by destruct (Hnone v eq_refl).
      * cbn in Hspec. destruct (Herror Hspec) as (Hg & Hs & Hf).
        split; [done|]. split; [by intros v' [= <-] ?|done].
    + cbn in Hspec. destruct (Herror Hspec) as (Hg & Hs & Hf).
      split; [done|]. split; [by intros v' [=]|done].
    + cbn in Hspec. destruct (Herror Hspec) as (Hg & Hs & Hf).
      split; [done|]. split; [by intros v' [=]|done].
  - intros Hzero.
    assert (Hidx : Commands.specificValidatorIndex args = None).
    { unfold Commands.specificValidatorIndex.
      by rewrite (is_specific_sentinel args Hzero). }
    rewrite Hidx in *. rewrite Hall in Hspec. cbn in Hspec.
    destruct (filter eligible (matching_from (FromHex (Commands.EigenpodAddress args)) 0 vs))
      as [|x selected] eqn:Hsel.
    + destruct Hspec as (ts & Hgen).
      destruct (Hfailed None ts None Hgen) as (Hg & Hs & Hf); [by right|]. done.
    + destruct Hspec as (p & ts & Hgen & Hp).
      destruct (Hgenerated p ts Hgen) as (Hg & Hs & Hf).
      split; [done|]. split; [done|]. intros _. by rewrite Hs, Hp.
Qed.

(** ** The lookup keys of [getOnchainValidatorInfo] *)

Section OnchainInfoProperties.

Variable env : Env.

Lemma pubKeyHash_padded (v : ValidatorWithIndex) :
  length (PublicKey (Validator v)) = 48%nat →
  pubKeyHash env v = padded_key_hash env (PublicKey (Validator v))
  ∧ length (PublicKey (Validator v) ++ zeroes) = 64%nat.
Proof.
  intros Hlen. unfold pubKeyHash, padded_key_hash.
  rewrite length_app, Hlen. done.
Qed.

(** The loop looks the validators up in order, one key each, and stops at
    the first lookup that fails. *)
Lemma lookup_loop_keys rest : ∀ validatorInfo tr,
  ∃ events n,
    (lookup_loop env rest validatorInfo tr).2 = tr ++ events
    ∧ lookup_keys events = take n (pubKeyHash env <$> rest)
    ∧ ∀ infos,
        (lookup_loop env rest validatorInfo tr).1 = Go.Ok infos →
        n = length rest
        ∧ infos = validatorInfo ++
            ((λ v, (eigenPod_ValidatorPubkeyHashToInfo env (pubKeyHash env v)).1)
               <$> rest).
Proof.
  induction rest as [|v rest IH]; intros validatorInfo tr.
  - exists [], 0%nat. cbn. rewrite !app_nil_r.
    split; [done|split; [done|]]. by intros infos [= <-].
  - cbn [lookup_loop].
    unfold mbind, Cmd_bind, emit, PanicOnError, lift, Go.PanicOnError.
    destruct (eigenPod_ValidatorPubkeyHashToInfo env (pubKeyHash env v))
      as [info [e|]] eqn:Hinfo; cbn.
    + exists [CallValidatorPubkeyHashToInfo (pubKeyHash env v)], 1%nat.
      split; [done|]. split; [cbn; by rewrite take_0|]. intros infos [=].
    + destruct (IH (validatorInfo ++ [info])
                  (tr ++ [CallValidatorPubkeyHashToInfo (pubKeyHash env v)]))
        as (events & n & Htr & Hkeys & Hok).
      exists (CallValidatorPubkeyHashToInfo (pubKeyHash env v) :: events), (S n).
      split; [by rewrite Htr, <- app_assoc|].
      split; [cbn; by rewrite <- Hkeys|].
      intros infos Hinfos. destruct (Hok infos Hinfos) as [-> ->].
      split; [done|]. rewrite <- app_assoc. cbn. by rewrite Hinfo.
Qed.

(** C10. For every validator the key that [getOnchainValidatorInfo] looks
    up is the SHA-256 hash of the 48-byte public key padded on the right
    with 16 zero bytes, a buffer of 64 bytes: the keys looked up are, in
    order, those of the validators, all of them when the call returns. *)
Theorem lookup_key_is_padded_hash eigenpodAddress allValidators tr :
  Forall (λ v, length (PublicKey (Validator v)) = 48%nat) allValidators →
  Forall (λ v, pubKeyHash env v
               = sha256_Sum256 env (PublicKey (Validator v) ++ replicate 16 x00)
               ∧ length (PublicKey (Validator v) ++ replicate 16 x00)
                 = (2 * 32)%nat)
    allValidators
  ∧ ∃ events n,
      (getOnchainValidatorInfo env eigenpodAddress allValidators tr).2
      = tr ++ events
      ∧ lookup_keys events
        = take n ((λ v, padded_key_hash env (PublicKey (Validator v)))
                    <$> allValidators)
      ∧ ∀ infos,
          (getOnchainValidatorInfo env eigenpodAddress allValidators tr).1
          = Go.Ok infos →
          n = length allValidators ∧ length infos = length allValidators.
Proof.
  intros Hwf.
  assert (Hkeys : pubKeyHash env <$> allValidators
                  = (λ v, padded_key_hash env (PublicKey (Validator v)))
                      <$> allValidators).
  { apply Forall_fmap_ext_1. eapply Forall_impl; [exact Hwf|].
    intros v Hv. by apply pubKeyHash_padded. }
  split.
  - eapply Forall_impl; [exact Hwf|]. intros v Hv. cbn beta in Hv.
    split; [done|]. by rewrite length_app, Hv.
  - unfold getOnchainValidatorInfo, mbind, Cmd_bind, emit, PanicOnError,
      lift, Go.PanicOnError.
    destruct (onchain_NewEigenPod env eigenpodAddress) as [e|]; cbn.
    + exists [NewEigenPod eigenpodAddress], 0%nat.
      split; [done|]. split; [by rewrite take_0|]. intros infos [=].
    + destruct (lookup_loop_keys allValidators []
                  (tr ++ [NewEigenPod eigenpodAddress]))
        as (events & n & Htr & Hk & Hok).
      exists (NewEigenPod eigenpodAddress :: events), n.
      split; [by rewrite Htr, <- app_assoc|].
      split.
      { assert (lookup_keys (NewEigenPod eigenpodAddress :: events)
                = lookup_keys events) as -> by done.
        by rewrite Hk, Hkeys. }
      intros infos Hinfos. destruct (Hok infos Hinfos) as [-> ->].
      split; [done|]. by rewrite app_nil_l, length_fmap.
Qed.

End OnchainInfoProperties.

(** ** The [status] action *)

Section StatusProperties.

Import Status.

Variable Float : Type.
Variable Float_Sub : Float → Float → Float.
Variable Float_String : Float → string.
Variable Float_verb_f : Float → string.
Variable time_String : Z → string.
Variable gweiToEther : N → Float.
Variable getStatus : string → EigenpodStatus * gmap positive Float.
Variable json_MarshalIndent :
  EigenpodStatus → gmap positive Float → string * Go.error.
Variable env : Env.

Implicit Types (s : store Float) (e : event).

(** *** Read-only commands compose *)

Lemma read_only_ret {A} (a : A) : read_only (mret a : Cmd (store Float) A).
Proof. intros s. split; [done|]. exists []. by rewrite app_nil_r. Qed.

Lemma read_only_lift {A} (o : Go.outcome A) :
  read_only (lift o : Cmd (store Float) A).
Proof. intros s. split; [done|]. exists []. by rewrite app_nil_r. Qed.

Lemma read_only_bind {A B} (c : Cmd (store Float) A)
    (k : A → Cmd (store Float) B) :
  read_only c → (∀ a, read_only (k a)) → read_only (c ≫= k).
Proof.
  intros Hc Hk s. unfold mbind, Cmd_bind.
  destruct (Hc s) as (Hsub & events & Htr & Hev).
  destruct (c s) as [[a|message|] s1]; cbn in *; [|by eauto..].
  destruct (Hk a s1) as (Hsub' & events' & Htr' & Hev').
  split; [by etrans|]. exists (events ++ events').
  rewrite Htr', Htr, <- app_assoc. split; [done|]. by apply Forall_app.
Qed.

Lemma read_only_emitS e :
  is_transaction e = false → read_only (emitS (Float := Float) e).
Proof. intros He s. split; [done|]. exists [e]. by repeat constructor. Qed.

Lemma read_only_PanicOnError message err :
  read_only (PanicOnError message err : Cmd (store Float) unit).
Proof. apply read_only_lift. Qed.

Lemma read_only_alloc (v : Float) : read_only (alloc v).
Proof.
  intros s. split; cbn.
  - apply insert_subseteq, not_elem_of_dom, is_fresh.
  - exists []. by rewrite app_nil_r.
Qed.

Lemma read_only_deref (p : pointer) : read_only (deref (Float := Float) p).
Proof.
  intros s. unfold deref. destruct (p ≫= _); cbn;
    (split; [done|]; exists []; by rewrite app_nil_r).
Qed.

Lemma read_only_new_Float_Sub (x y : pointer) :
  read_only (new_Float_Sub Float_Sub x y).
Proof.
  unfold new_Float_Sub.
  apply read_only_bind; [apply read_only_deref|]. intros vx.
  apply read_only_bind; [apply read_only_deref|]. intros vy.
  apply read_only_alloc.
Qed.

Lemma read_only_print_validators (verbose : bool) entries :
  read_only (print_validators (Float := Float) verbose entries).
Proof.
  induction entries as [|[index validator] entries IH]; cbn [print_validators].
  - apply read_only_ret.
  - apply read_only_bind; [|by intros []].
    unfold print_validator.
    destruct (Status.Status validator), (Status.Slashed validator), verbose;
      (apply read_only_bind;
         [first [apply read_only_ret | apply read_only_lift]
         |intros publicKey; by apply read_only_emitS]).
Qed.

Create HintDb read_only.
#[local] Hint Resolve read_only_ret read_only_lift read_only_PanicOnError
  read_only_alloc read_only_deref read_only_new_Float_Sub
  read_only_print_validators : read_only.




(** *** The projected share delta *)

Lemma deref_fresh (m : gmap positive Float) (v : Float) l w :
  m !! l = Some w → <[fresh (dom m) := v]> m !! l = Some w.
Proof.
  intros Hl. rewrite lookup_insert_ne; [done|].
  intros <-. by apply (is_fresh (dom m)), elem_of_dom.
Qed.

(** With a checkpoint active: pending shares in ether minus the current
    total shares. *)
Lemma print_delta_active status s checkpoint current (shares : Float) :
  ActiveCheckpoint status = Some checkpoint →
  CurrentTotalSharesETH status = Some current →
  floats s !! current = Some shares →
  let endShares := gweiToEther (PendingSharesGwei checkpoint) in
  ∃ s',
    print_delta Float_Sub Float_String Float_verb_f time_String gweiToEther
      status s = (Go.Ok tt, s')
    ∧ trace s' = trace s ++
        [ Printf bold "!NOTE: There is a checkpoint active! (started at: %s)\n"
            [AStr (time_String (int64_of_uint64 (StartedAt checkpoint)))];
          Printf ital
            "\t- If you finish it, you may receive up to %s shares. (%s -> %s)\n"
            [AStr (Float_String (Float_Sub endShares shares));
             AStr (Float_String shares);
             AStr (Float_String endShares)];
          Printf ital "\t- %d proof(s) remaining until completion.\n"
            [AUint (ProofsRemaining checkpoint)] ].
Proof.
  intros Hcp Hcur Hshares endShares.
  unfold print_delta, gweiToEther_new, new_Float_Sub, deref, alloc, emitS,
    mbind, Cmd_bind.
  rewrite Hcp, Hcur. cbn.
  rewrite lookup_insert_eq. cbn.
  rewrite (deref_fresh _ _ _ _ Hshares). cbn.
  rewrite lookup_insert_eq. cbn.
  rewrite (deref_fresh _ _ _ _ (deref_fresh _ _ _ _ Hshares)). cbn.
  rewrite lookup_insert_ne, lookup_insert_eq.
  - cbn. eexists. split; [reflexivity|]. cbn. by rewrite <- !app_assoc.
  - intros Heq. unfold endShares in *.
    apply (is_fresh (dom (<[fresh (dom (floats s))
                             := gweiToEther (PendingSharesGwei checkpoint)]>
                            (floats s)))).
    rewrite Heq at 1. apply elem_of_dom. rewrite lookup_insert_eq. by eexists.
Qed.

(** With no checkpoint active: shares after a checkpoint minus the current
    shares. *)
Lemma print_delta_preview status s current after (shares afterShares : Float) :
  ActiveCheckpoint status = None →
  CurrentTotalSharesETH status = Some current →
  TotalSharesAfterCheckpointETH status = Some after →
  floats s !! current = Some shares →
  floats s !! after = Some afterShares →
  ∃ s',
    print_delta Float_Sub Float_String Float_verb_f time_String gweiToEther
      status s = (Go.Ok tt, s')
    ∧ trace s' = trace s ++
        [ Printf bold "Runing a `checkpoint` right now will result in: \n" [];
          Printf ital "\t%f new shares issued (%f ==> %f)\n"
            [AStr (Float_verb_f (Float_Sub afterShares shares));
             AStr (Float_verb_f shares);
             AStr (Float_verb_f afterShares)] ].
Proof.
  intros Hcp Hcur Hafter Hshares Hafters.
  unfold print_delta, new_Float_Sub, deref, alloc, emitS, mbind, Cmd_bind.
  rewrite Hcp, Hcur, Hafter. cbn.
  rewrite Hafters. cbn. rewrite Hshares. cbn.
  rewrite lookup_insert_eq. cbn.
  rewrite (deref_fresh _ _ _ _ Hshares). cbn.
  rewrite (deref_fresh _ _ _ _ Hafters). cbn.
  eexists. split; [reflexivity|]. cbn. by rewrite <- !app_assoc.
Qed.

(** *** The whole action *)



End StatusProperties.

(** ** The statements at concrete inputs *)

(** The scan of the five validators finds those at index 2 and 4. *)
Example scan_five_validators :
  findAllValidatorsForEigenpod Examples.FromHex Examples.pool Examples.snapshot
  = Go.Ok [ {| Validator := Examples.validator xa2 Examples.pool_credentials;
               Index := 2 |};
            {| Validator := Examples.validator xa4 Examples.pool_credentials;
               Index := 4 |} ].
Proof. vm_compute. reflexivity. Qed.

(** A nil entry is skipped; credentials too short for the slice panic. *)
Example scan_short_credentials :
  findAllValidatorsForEigenpod Examples.FromHex Examples.pool
    {| Validators := ([None; Some (Examples.validator xa1 [x01; x00])], None) |}
  = Go.RuntimePanic.
Proof. vm_compute. reflexivity. Qed.

Lemma findAllValidatorsForEigenpod_exact_witness :
  ∃ out,
    findAllValidatorsForEigenpod Examples.FromHex Examples.pool Examples.snapshot
      = Go.Ok out
    ∧ (∀ v i, {| Validator := v; Index := i |} ∈ out ↔
         Examples.five_validators !! N.to_nat i = Some (Some v)
         ∧ credentials_match (Examples.FromHex Examples.pool) v)
    ∧ StronglySorted N.lt (Index <$> out).
Proof.
  apply (findAllValidatorsForEigenpod_exact Examples.FromHex Examples.pool
           Examples.snapshot Examples.five_validators).
  - reflexivity.
  - apply (bool_decide_unpack _). vm_compute. exact I.
Defined.

Example build_four_leaves :
  match Merkle.build Examples.digest Examples.four_leaves 6 with
  | inr proof => Some (Merkle.leaf proof, Merkle.path proof)
  | inl _ => None
  end
  = Some ([x03],
          [ Merkle.pad_leaf (replicate 32 x04);
            Merkle.hash_pair Examples.digest
              (Merkle.pad_leaf [x01]) (Merkle.pad_leaf [x02]) ]).
Proof. vm_compute. reflexivity. Qed.

Example build_three_leaves :
  Merkle.build Examples.digest [ [x01]; [x02]; [x03] ] 4 = inl MalformedTreeError.
Proof. vm_compute. reflexivity. Qed.

Lemma verify_build_witness :
  ∃ proof r,
    Merkle.build Examples.digest Examples.four_leaves 6 = inr proof
    ∧ Merkle.tree_root Examples.digest Examples.four_leaves = Some r
    ∧ Merkle.verify Examples.digest proof r = true
    ∧ Merkle.root proof = r
    ∧ Merkle.generalizedIndex proof = 6
    ∧ Examples.four_leaves !! N.to_nat (6 - N.of_nat (length Examples.four_leaves))
      = Some (Merkle.leaf proof)
    ∧ length (Merkle.path proof) = 2%nat.
Proof.
  apply (verify_build Examples.digest Examples.four_leaves 6 2).
  - reflexivity.
  - simpl. lia.
Defined.

Example partition_five_by_two :
  Batcher.partition [10; 11; 12; 13; 14] 2 = inr [ [10; 11]; [12; 13]; [14] ].
Proof. reflexivity. Qed.

Example partition_zero : Batcher.partition [10; 11] 0 = inl ValidationError.
Proof. reflexivity. Qed.

Lemma partition_arithmetic_witness :
  ∃ batches,
    Batcher.partition [10; 11; 12; 13; 14] 2 = inr batches
    ∧ concat batches = [10; 11; 12; 13; 14]
    ∧ Z.of_nat (length batches) = Batcher.ceil_div 5 2
    ∧ (∀ i batch, batches !! i = Some batch →
         (i + 1 < length batches)%nat → Z.of_nat (length batch) = 2%Z)
    ∧ (∀ batch, last batches = Some batch →
         Z.of_nat (length batch) = (5 - 2 * (Batcher.ceil_div 5 2 - 1))%Z).
Proof.
  apply (partition_arithmetic [10; 11; 12; 13; 14] 2). lia.
Defined.

Lemma counted_checkpoint_reachable :
  CheckpointProtocol.reachable
    (CheckpointProtocol.ProofsPending Examples.counted_checkpoint
       Examples.three_requiring).
Proof.
  eapply CheckpointProtocol.reachable_step
    with (r := CheckpointProtocol.Count Examples.three_requiring 0).
  - eapply CheckpointProtocol.reachable_step
      with (r := CheckpointProtocol.Start true false 1700000000
                   Examples.block_root).
    + apply CheckpointProtocol.reachable_init.
    + reflexivity.
  - reflexivity.
Defined.

Example submit_two_then_one :
  CheckpointProtocol.proofsRemaining <$>
    match CheckpointProtocol.submit_all
            (CheckpointProtocol.ProofsPending Examples.counted_checkpoint
               Examples.three_requiring)
            Examples.block_root [ [1; 2]; [3] ] with
    | inr (CheckpointProtocol.ProofsPending c _) => Some c
    | _ => None
    end
  = Some 0%Z.
Proof. vm_compute. reflexivity. Qed.

Example submit_stale_root :
  CheckpointProtocol.step
    (CheckpointProtocol.ProofsPending Examples.counted_checkpoint
       Examples.three_requiring)
    (CheckpointProtocol.Submit (replicate 32 x08) [1])
  = inl StaleCheckpointRootError.
Proof. vm_compute. reflexivity. Qed.

Lemma checkpoint_monotonicity_witness :
  (0 ≤ CheckpointProtocol.proofsRemaining Examples.counted_checkpoint)%Z
  ∧ (∀ root validators s',
       CheckpointProtocol.step
         (CheckpointProtocol.ProofsPending Examples.counted_checkpoint
            Examples.three_requiring)
         (CheckpointProtocol.Submit root validators) = inr s' →
       ∃ c' requiring',
         s' = CheckpointProtocol.ProofsPending c' requiring'
         ∧ CheckpointProtocol.proofsRemaining c'
           = (CheckpointProtocol.proofsRemaining Examples.counted_checkpoint
              - Z.of_nat (length validators))%Z
         ∧ (0 ≤ CheckpointProtocol.proofsRemaining c')%Z)
  ∧ (∀ root batches s',
       CheckpointProtocol.submit_all
         (CheckpointProtocol.ProofsPending Examples.counted_checkpoint
            Examples.three_requiring) root batches = inr s' →
       ∃ c' requiring',
         s' = CheckpointProtocol.ProofsPending c' requiring'
         ∧ CheckpointProtocol.proofsRemaining c'
           = (CheckpointProtocol.proofsRemaining Examples.counted_checkpoint
              - Z.of_nat (length (concat batches)))%Z
         ∧ (0 ≤ CheckpointProtocol.proofsRemaining c')%Z
         ∧ (Examples.three_requiring ⊆ list_to_set (concat batches) →
            CheckpointProtocol.proofsRemaining c' = 0%Z)).
Proof.
  apply (checkpoint_monotonicity Examples.counted_checkpoint
           Examples.three_requiring).
  exact counted_checkpoint_reachable.
Defined.

(** Simulate-only mode with a sender: the flag error comes after the call
    that connects to the two endpoints. *)
Lemma validation_follows_client_connection :
  Commands.CredentialsCommand Examples.busy_core (Examples.args true "0xkey" 0) []
  = (Go.Fatal "if using --print-calldata, please do not specify a --sender.",
     [ Commands.CallGetClients "http://localhost:8545"
         "http://localhost:5052" false ])
  ∧ existsb Commands.is_network_call
      (Commands.CredentialsCommand Examples.busy_core
         (Examples.args true "0xkey" 0) []).2 = true.
Proof. vm_compute. done. Qed.

Lemma simulate_with_sender_rejected_witness :
  Commands.CredentialsCommand Examples.busy_core (Examples.args true "0xkey" 0) []
  = (Go.Fatal "if using --print-calldata, please do not specify a --sender.",
     [] ++ Commands.prelude (Examples.args true "0xkey" 0))
  ∧ filter Commands.is_network_call
      (Commands.prelude (Examples.args true "0xkey" 0))
    = [ Commands.CallGetClients "http://localhost:8545"
          "http://localhost:5052" false ]
  ∧ Commands.generate_requests
      (Commands.prelude (Examples.args true "0xkey" 0)) = [].
Proof.
  apply (simulate_with_sender_rejected Examples.busy_core
           (Examples.args true "0xkey" 0) []).
  - reflexivity.
  - discriminate.
Defined.

(** No validator awaits a proof: [CredentialsCommand] ends in a fatal error. *)
Lemma no_inactive_validators_is_fatal :
  Commands.GenerateValidatorProof Examples.idle_core Examples.pool
    Examples.clients None true = (None, 0, None)
  ∧ Commands.CredentialsCommand Examples.idle_core (Examples.args false "" 0) []
    = (Go.Fatal "no inactive validators",
       [ Commands.CallGetClients "http://localhost:8545"
           "http://localhost:5052" true;
         Commands.CallGenerateValidatorProof Examples.pool None true ]).
Proof. vm_compute. done. Qed.

Lemma nothing_to_prove_witness :
  (∃ events,
     credentials_action Examples.idle_env Examples.flags [] = (Go.Ok None, [] ++ events)
     ∧ Forall (λ e, is_transaction e = false
                    ∧ ∀ json out, e ≠ WriteOutputToFileOrStdout json out) events)
  ∧ ∃ events',
      Commands.CredentialsCommand Examples.idle_core (Examples.args false "" 0) []
      = (Go.Fatal "no inactive validators", [] ++ events').
Proof.
  apply (nothing_to_prove Examples.idle_env Examples.flags 17000%Z
           Examples.idle_core (Examples.args false "" 0) Examples.clients 0 [] []).
  - reflexivity.
  - reflexivity.
  - reflexivity.
  - left. reflexivity.
  - reflexivity.
  - reflexivity.
  - reflexivity.
Defined.

(** Validator 4 asked for and found; validator 1 asked for and not found. *)
Example find_validator_four :
  findMatchingValidators Examples.FromHex Examples.snapshot Examples.pool (Some 4)
  = Go.Ok ([ {| Validator := Examples.validator xa4 Examples.pool_credentials;
                Index := 4 |} ], None).
Proof. vm_compute. reflexivity. Qed.

Example find_validator_one :
  findMatchingValidators Examples.FromHex Examples.snapshot Examples.pool (Some 1)
  = Go.Ok ([], Some (ValidatorNotFoundError 1)).
Proof. vm_compute. reflexivity. Qed.

Example index_zero_generates_for_all :
  (Commands.CredentialsCommand Examples.busy_core (Examples.args false "" 0) []).2
  = [ Commands.CallGetClients "http://localhost:8545" "http://localhost:5052" true;
      Commands.CallGenerateValidatorProof Examples.pool None true ].
Proof. vm_compute. reflexivity. Qed.

(** A proof generation on the five validators that selects as section 4.3
    says. *)
Lemma engine_core_as_specified poolAddress clients isVerbose :
  generates_as_specified Examples.FromHex MoreExamples.not_yet_proven
    MoreExamples.engine_core Examples.snapshot poolAddress clients isVerbose.
Proof.
  intros specificIndex. unfold MoreExamples.engine_core.
  cbn [Commands.GenerateValidatorProof].
  destruct (selectValidators Examples.FromHex MoreExamples.not_yet_proven
              Examples.snapshot poolAddress specificIndex)
    as [[e|[|x selected]]|message|]; cbn; eauto.
Qed.

Lemma specific_index_filter_witness :
  ∃ events,
    (Commands.CredentialsCommand MoreExamples.engine_core
       (Examples.args false "0xsender" 4) []).2 = [] ++ events
    ∧ ((4 : N) ≠ 0 → 4 ≠ Commands.MaxUint64 →
       Commands.generate_requests events = [Some 4]
       ∧ (∀ v, Examples.five_validators !! N.to_nat 4 = Some (Some v) →
               credentials_match (Examples.FromHex Examples.pool) v →
               findMatchingValidators Examples.FromHex Examples.snapshot
                 Examples.pool (Some 4)
               = Go.Ok ([ {| Validator := v; Index := 4 |} ], None)
               ∧ (MoreExamples.not_yet_proven {| Validator := v; Index := 4 |}
                  = true →
                  submitted_indices events = [[4]]
                  ∧ (Commands.CredentialsCommand MoreExamples.engine_core
                       (Examples.args false "0xsender" 4) []).1
                    ≠ Go.Fatal "Failed to generate validator proof")
               ∧ (MoreExamples.not_yet_proven {| Validator := v; Index := 4 |}
                  = false →
                  submitted_indices events = []
                  ∧ (Commands.CredentialsCommand MoreExamples.engine_core
                       (Examples.args false "0xsender" 4) []).1
                    = Go.Fatal "no inactive validators"))
       ∧ ((∀ v, Examples.five_validators !! N.to_nat 4 = Some (Some v) →
                ¬ credentials_match (Examples.FromHex Examples.pool) v) →
          findMatchingValidators Examples.FromHex Examples.snapshot
            Examples.pool (Some 4)
          = Go.Ok ([], Some (ValidatorNotFoundError 4))
          ∧ submitted_indices events = []
          ∧ (Commands.CredentialsCommand MoreExamples.engine_core
               (Examples.args false "0xsender" 4) []).1
            = Go.Fatal "Failed to generate validator proof"))
    ∧ ((4 : N) = 0 ∨ 4 = Commands.MaxUint64 →
       Commands.generate_requests events = [None]
       ∧ findMatchingValidators Examples.FromHex Examples.snapshot
           Examples.pool None
         = Go.Ok (matching_from (Examples.FromHex Examples.pool) 0
                    Examples.five_validators, None)
       ∧ (filter MoreExamples.not_yet_proven
            (matching_from (Examples.FromHex Examples.pool) 0
               Examples.five_validators) ≠ [] →
          submitted_indices events
          = [Index <$> filter MoreExamples.not_yet_proven
                         (matching_from (Examples.FromHex Examples.pool) 0
                            Examples.five_validators)])).
Proof.
  apply (specific_index_filter Examples.FromHex MoreExamples.not_yet_proven
           MoreExamples.engine_core Examples.snapshot Examples.five_validators
           (Examples.args false "0xsender" 4) Examples.clients []).
  - reflexivity.
  - apply (bool_decide_unpack _). vm_compute. exact I.
  - reflexivity.
  - reflexivity.
  - apply engine_core_as_specified.
Defined.

(** Validator 4 asked for: the proof of validator 4 alone is submitted.
    Validator 1 asked for: its credentials do not match the pool, and the
    command ends with the error of proof generation. *)
Example specific_validator_submitted :
  Commands.CredentialsCommand MoreExamples.engine_core
    (Examples.args false "0xsender" 4) []
  = (Go.Ok None,
     [ Commands.CallGetClients "http://localhost:8545" "http://localhost:5052"
         true;
       Commands.Printf "Using specific validator: %d" [AUint 4];
       Commands.CallGenerateValidatorProof Examples.pool (Some 4) true;
       Commands.CallSubmitValidatorProof "0xsender" Examples.pool 2
         {| Commands.ProvenValidatorIndices := [4];
            Commands.ProofPayload := [] |}
         1700000000 true false true;
       Commands.Green "transaction(%d): %s" [AUint 0; AStr "0xfeed"] ]).
Proof. vm_compute. reflexivity. Qed.

(** Any error of proof generation ends the command in the same way. *)
Example generation_error_is_fatal :
  Commands.CredentialsCommand Examples.missing_core (Examples.args false "" 4) []
  = (Go.Fatal "Failed to generate validator proof",
     [ Commands.CallGetClients "http://localhost:8545" "http://localhost:5052"
         true;
       Commands.Printf "Using specific validator: %d" [AUint 4];
       Commands.CallGenerateValidatorProof Examples.pool (Some 4) true ]).
Proof. vm_compute. reflexivity. Qed.

Example specific_validator_not_found :
  Commands.CredentialsCommand MoreExamples.engine_core
    (Examples.args false "0xsender" 1) []
  = (Go.Fatal "Failed to generate validator proof",
     [ Commands.CallGetClients "http://localhost:8545" "http://localhost:5052"
         true;
       Commands.Printf "Using specific validator: %d" [AUint 1];
       Commands.CallGenerateValidatorProof Examples.pool (Some 1) true ]).
Proof. vm_compute. reflexivity. Qed.

(** Validator 0 asked for. Its credentials do not match the pool, so the
    filter of section 4.3 at index 0 is a [ValidatorNotFoundError]; but the
    command hands on no index at all, proof generation applies no filter,
    and the run ends well with the proofs of validators 2 and 4
    submitted. *)
Lemma zero_index_passes_unfiltered :
  Commands.SpecificValidator (Examples.args false "0xsender" 0) = 0
  ∧ generates_as_specified Examples.FromHex MoreExamples.not_yet_proven
      MoreExamples.engine_core Examples.snapshot Examples.pool Examples.clients
      true
  ∧ findMatchingValidators Examples.FromHex Examples.snapshot Examples.pool
      (Some 0)
    = Go.Ok ([], Some (ValidatorNotFoundError 0))
  ∧ Commands.CredentialsCommand MoreExamples.engine_core
      (Examples.args false "0xsender" 0) []
    = (Go.Ok None,
       [ Commands.CallGetClients "http://localhost:8545"
           "http://localhost:5052" true;
         Commands.CallGenerateValidatorProof Examples.pool None true;
         Commands.CallSubmitValidatorProof "0xsender" Examples.pool 2
           {| Commands.ProvenValidatorIndices := [2; 4];
              Commands.ProofPayload := [] |}
           1700000000 true false true;
         Commands.Green "transaction(%d): %s" [AUint 0; AStr "0xfeed"] ]).
Proof.
  split; [reflexivity|]. split; [apply engine_core_as_specified|].
  split; vm_compute; reflexivity.
Qed.

Lemma index_zero_is_no_index_witness :
  Commands.specificValidatorIndex (Examples.args false "" 0) = None
  ∧ Commands.CredentialsCommand Examples.busy_core (Examples.args false "" 0) []
    = Commands.CredentialsCommand Examples.busy_core
        (Commands.with_SpecificValidator Commands.MaxUint64
           (Examples.args false "" 0)) []
  ∧ Forall (λ request, request = None)
      (Commands.generate_requests
         (Commands.CredentialsCommand Examples.busy_core
            (Examples.args false "" 0) []).2)
  ∧ ∀ args', Some 0 ∉ Commands.generate_requests
                        (Commands.CredentialsCommand Examples.busy_core args' []).2.
Proof.
  apply (index_zero_is_no_index Examples.busy_core (Examples.args false "" 0) []).
  left. reflexivity.
Defined.

Example lookup_keys_of_two :
  lookup_keys
    (getOnchainValidatorInfo Examples.idle_env Examples.pool
       [ {| Validator := Examples.validator xa2 Examples.pool_credentials;
            Index := 2 |};
         {| Validator := Examples.validator xa4 Examples.pool_credentials;
            Index := 4 |} ] []).2
  = [ Examples.digest (replicate 48 xa2 ++ replicate 16 x00);
      Examples.digest (replicate 48 xa4 ++ replicate 16 x00) ].
Proof. vm_compute. reflexivity. Qed.

Lemma lookup_key_is_padded_hash_witness :
  Forall (λ v, pubKeyHash Examples.idle_env v
               = sha256_Sum256 Examples.idle_env
                   (PublicKey (Validator v) ++ replicate 16 x00)
               ∧ length (PublicKey (Validator v) ++ replicate 16 x00)
                 = (2 * 32)%nat)
    [ {| Validator := Examples.validator xa2 Examples.pool_credentials;
         Index := 2 |} ]
  ∧ ∃ events n,
      (getOnchainValidatorInfo Examples.idle_env Examples.pool
         [ {| Validator := Examples.validator xa2 Examples.pool_credentials;
              Index := 2 |} ] []).2 = [] ++ events
      ∧ lookup_keys events
        = take n ((λ v, padded_key_hash Examples.idle_env (PublicKey (Validator v)))
                    <$> [ {| Validator :=
                               Examples.validator xa2 Examples.pool_credentials;
                             Index := 2 |} ])
      ∧ ∀ infos,
          (getOnchainValidatorInfo Examples.idle_env Examples.pool
             [ {| Validator := Examples.validator xa2 Examples.pool_credentials;
                  Index := 2 |} ] []).1 = Go.Ok infos →
          n = length [ {| Validator :=
                            Examples.validator xa2 Examples.pool_credentials;
                          Index := 2 |} ]
          ∧ length infos
            = length [ {| Validator :=
                            Examples.validator xa2 Examples.pool_credentials;
                          Index := 2 |} ].
Proof.
  apply (lookup_key_is_padded_hash Examples.idle_env Examples.pool
           [ {| Validator := Examples.validator xa2 Examples.pool_credentials;
                Index := 2 |} ] []).
  apply (bool_decide_unpack _). vm_compute. exact I.
Defined.

(** The report with a checkpoint pending, in gwei: 96 - 64. *)
Example status_with_checkpoint :
  (Status.print_delta Z.sub Examples.no_text Examples.no_text Examples.no_text
     Z.of_N (Examples.status_of (Some Examples.pending_checkpoint))
     (Examples.store_of Examples.shares)).2
  = {| Status.trace :=
         [ Printf Status.bold
             "!NOTE: There is a checkpoint active! (started at: %s)\n" [AStr ""];
           Printf Status.ital
             "\t- If you finish it, you may receive up to %s shares. (%s -> %s)\n"
             [AStr ""; AStr ""; AStr ""];
           Printf Status.ital "\t- %d proof(s) remaining until completion.\n"
             [AUint 3] ];
       Status.floats :=
         <[4%positive := 32000000000%Z]>
           (<[3%positive := 96000000000%Z]> Examples.shares) |}.
Proof. vm_compute. reflexivity. Qed.


(* ================================================================== *)
(** * Further properties of the code *)
(* ================================================================== *)

(** ** The scan on arbitrary credentials *)

Section ScanEdges.

Variable FromHex : string → list byte.

(** One turn of the loop: a panic on credentials out of range, and otherwise
    the validator appended exactly when it passes the test. *)
Lemma scan_step_cases addr i o out :
  (out_of_range_credentials o ∧ scan_step addr i o out = Go.RuntimePanic)
  ∨ (¬ out_of_range_credentials o
     ∧ scan_step addr i o out = Go.Ok (out ++ scanned_from addr i [o])).
Proof.
  destruct o as [v|]; cbn [scan_step scanned_from out_of_range_credentials].
  2: { right. split; [tauto|]. by rewrite !app_nil_r. }
  unfold scan_test.
  destruct (WithdrawalCredentials v) as [|b0 cs] eqn:Hc.
  { left. split; [by left|done]. }
  cbn [Go.index0 head].
  unfold mbind, outcome_bind, Go.bind, Go.slice_from, Go.bytes_Equal.
  destruct (decide (b0 = x01)) as [->|Hb].
  - rewrite bool_decide_eq_true_2 by done. cbn [negb].
    destruct (decide (12 ≤ length (x01 :: cs))%nat) as [Hlen|Hlen].
    + right. split; [intros [?|[_ ?]]; [done|lia]|].
      destruct (decide (addr = drop 12 (x01 :: cs))) as [Heq|Hne].
      * rewrite bool_decide_eq_true_2 by done.
        rewrite decide_True by done. by rewrite app_nil_r.
      * rewrite bool_decide_eq_false_2 by done.
        rewrite decide_False by (intros [_ ?]; congruence).
        by rewrite !app_nil_r.
    + left. split; [right; split; [done|lia]|done].
  - right. rewrite bool_decide_eq_false_2 by done. cbn [negb].
    split; [intros [?|[[= ?] _]]; done|].
    rewrite decide_False by (intros [[= ?] _]; done).
    by rewrite !app_nil_r.
Qed.

Lemma scanned_from_cons addr i o vs :
  scanned_from addr i (o :: vs)
  = scanned_from addr i [o] ++ scanned_from addr (N.succ i) vs.
Proof. cbn [scanned_from]. by rewrite app_nil_r. Qed.

Lemma scan_loop_cases addr vs : ∀ i out,
  (Exists out_of_range_credentials vs
   ∧ scan_loop addr i vs out = Go.RuntimePanic)
  ∨ (Forall (λ o, ¬ out_of_range_credentials o) vs
     ∧ scan_loop addr i vs out = Go.Ok (out ++ scanned_from addr i vs)).
Proof.
  induction vs as [|o vs IH]; intros i out.
  - right. split; [constructor|]. cbn. by rewrite app_nil_r.
  - cbn [scan_loop].
    destruct (scan_step_cases addr i o out) as [[Ho ->]|[Ho ->]].
    + left. split; [by left|done].
    + unfold mbind, outcome_bind, Go.bind.
      destruct (IH (N.succ i) (out ++ scanned_from addr i [o]))
        as [[Hex ->]|[Hall ->]].
      * left. split; [by right|done].
      * right. split; [by constructor|].
        by rewrite (scanned_from_cons addr i o vs), app_assoc.
Qed.

Lemma elem_of_scanned_from addr vs : ∀ i v j,
  {| Validator := v; Index := j |} ∈ scanned_from addr i vs ↔
  i ≤ j ∧ vs !! N.to_nat (j - i) = Some (Some v) ∧ scan_test addr v.
Proof.
  induction vs as [|o vs IH]; intros i v j.
  - cbn [scanned_from]. rewrite elem_of_nil, lookup_nil. naive_solver.
  - rewrite scanned_from_cons, elem_of_app, IH.
    assert (Hnow : {| Validator := v; Index := j |} ∈ scanned_from addr i [o]
                   ↔ i = j ∧ o = Some v ∧ scan_test addr v).
    { cbn [scanned_from]. rewrite app_nil_r. destruct o as [w|].
      - destruct (decide (scan_test addr w)) as [Hw|Hw].
        + rewrite list_elem_of_singleton. split.
          * by intros [= -> ->].
          * by intros (-> & [= ->] & _).
        + rewrite elem_of_nil. split; [done|].
          by intros (_ & [= ->] & ?).
      - rewrite elem_of_nil. naive_solver. }
    rewrite Hnow. split.
    + intros [(-> & -> & Ht)|(Hle & Hl & Ht)].
      * replace (N.to_nat (j - j)) with 0%nat by lia. split; [lia|done].
      * replace (N.to_nat (j - i)) with (S (N.to_nat (j - N.succ i))) by lia.
        split; [lia|done].
    + intros (Hle & Hl & Ht). destruct (decide (i = j)) as [->|Hne].
      * replace (N.to_nat (j - j)) with 0%nat in Hl by lia.
        left. by injection Hl as ->.
      * replace (N.to_nat (j - i)) with (S (N.to_nat (j - N.succ i))) in Hl
          by lia.
        right. split; [lia|done].
Qed.

Lemma scanned_from_length addr vs : ∀ i,
  (length (scanned_from addr i vs) ≤ length vs)%nat.
Proof.
  induction vs as [|o vs IH]; intros i; [done|].
  rewrite scanned_from_cons, length_app. specialize (IH (N.succ i)).
  cbn [scanned_from]. rewrite app_nil_r.
  destruct o as [v|]; [destruct (decide (scan_test addr v))|]; simpl; lia.
Qed.

(** X1. The scan ends in a run-time panic exactly when the state was
    fetched and some validator has no credentials at all, or credentials
    with first byte 1 and fewer than 12 bytes; it ends in a fatal exit
    exactly when the fetch failed, whatever the validators are. *)
Theorem findAllValidatorsForEigenpod_failures eigenpodAddress beaconState :
  (findAllValidatorsForEigenpod FromHex eigenpodAddress beaconState
     = Go.RuntimePanic
   ↔ (Validators beaconState).2 = None
     ∧ Exists out_of_range_credentials (Validators beaconState).1)
  ∧ ∀ message,
      findAllValidatorsForEigenpod FromHex eigenpodAddress beaconState
        = Go.Fatal message
      ↔ is_Some (Validators beaconState).2
        ∧ message = "failed to fetch beacon state".
Proof.
  unfold findAllValidatorsForEigenpod.
  destruct (Validators beaconState) as [vs [e|]]; cbn.
  - split; [split; [done|by intros [? _]]|].
    intros message. split; [by intros [= <-]; eauto|by intros [_ ->]].
  - destruct (scan_loop_cases (FromHex eigenpodAddress) vs 0 [])
      as [[Hex ->]|[Hall ->]].
    + split; [done|]. intros message. split; [done|].
      intros [[? [=]] _].
    + split.
      * split; [done|]. intros [_ Hex]. exfalso.
        apply Exists_exists in Hex as (o & Ho & Hbad).
        by apply (proj1 (Forall_forall _ _) Hall o Ho).
      * intros message. split; [done|]. intros [[? [=]] _].
Qed.

(** X2. When the scan returns, whatever the lengths of the credentials, it
    returns exactly the validators whose first credential byte is 1 and
    whose credentials from byte 12 on equal the address bytes, each under
    its position in the state; no index reaches the number of validators
    and the result is no longer than the state. *)
Theorem findAllValidatorsForEigenpod_returns eigenpodAddress beaconState out :
  findAllValidatorsForEigenpod FromHex eigenpodAddress beaconState = Go.Ok out →
  (∀ v i, {| Validator := v; Index := i |} ∈ out ↔
     (Validators beaconState).1 !! N.to_nat i = Some (Some v)
     ∧ scan_test (FromHex eigenpodAddress) v)
  ∧ Forall (λ x, (N.to_nat (Index x) < length (Validators beaconState).1)%nat) out
  ∧ (length out ≤ length (Validators beaconState).1)%nat.
Proof.
  unfold findAllValidatorsForEigenpod.
  destruct (Validators beaconState) as [vs [e|]]; cbn; [done|].
  destruct (scan_loop_cases (FromHex eigenpodAddress) vs 0 [])
    as [[_ ->]|[_ ->]]; [done|].
  intros [= <-]. cbn [app].
  assert (Hmem : ∀ v i,
    {| Validator := v; Index := i |} ∈ scanned_from (FromHex eigenpodAddress) 0 vs
    ↔ vs !! N.to_nat i = Some (Some v) ∧ scan_test (FromHex eigenpodAddress) v).
  { intros v i. rewrite elem_of_scanned_from, N.sub_0_r.
    split; [naive_solver|]. intros [? ?]. split; [lia|done]. }
  split; [done|split].
  - apply Forall_forall. intros [v i] Hx. apply Hmem in Hx as [Hl _].
    by apply lookup_lt_Some in Hl.
  - apply scanned_from_length.
Qed.

(** Scanning a slice in two consecutive parts. *)
Lemma scan_loop_app addr vs1 : ∀ vs2 i out,
  scan_loop addr i (vs1 ++ vs2) out
  = scan_loop addr i vs1 out
    ≫= scan_loop addr (i + N.of_nat (length vs1)) vs2.
Proof.
  induction vs1 as [|o vs1 IH]; intros vs2 i out.
  - cbn. by rewrite N.add_0_r.
  - cbn [app scan_loop length].
    destruct (scan_step addr i o out) as [out'| |]; cbn; [|done..].
    rewrite IH. by replace (N.succ i + N.of_nat (length vs1))
      with (i + N.of_nat (S (length vs1))) by lia.
Qed.

Lemma out_of_range_excl vs :
  Exists out_of_range_credentials vs →
  Forall (λ o, ¬ out_of_range_credentials o) vs → False.
Proof.
  intros Hex Hall. apply Exists_exists in Hex as (o & Hin & Hbad).
  by apply (proj1 (Forall_forall _ _) Hall o Hin).
Qed.

(** X3. The validators may be scanned in two consecutive parts: the scan of
    the whole is the scan of the first part followed by the scan of the
    second, counted from where the first ends, with the results appended
    (and a panic in either part is a panic of the whole). *)
Theorem scan_in_two_parts addr vs1 vs2 i :
  scan_loop addr i (vs1 ++ vs2) []
  = out1 ← scan_loop addr i vs1 [] ;
    out2 ← scan_loop addr (i + N.of_nat (length vs1)) vs2 [] ;
    mret (out1 ++ out2).
Proof.
  rewrite scan_loop_app.
  destruct (scan_loop_cases addr vs1 i []) as [[_ ->]|[_ ->]]; [done|].
  cbn [app]. unfold mbind, outcome_bind, Go.bind at 1 2.
  destruct (scan_loop_cases addr vs2 (i + N.of_nat (length vs1))
              (scanned_from addr i vs1)) as [[Hex ->]|[Hall ->]],
    (scan_loop_cases addr vs2 (i + N.of_nat (length vs1)) [])
      as [[Hex' ->]|[Hall' ->]]; cbn.
  - done.
  - by destruct (out_of_range_excl vs2).
  - by destruct (out_of_range_excl vs2).
  - done.
Qed.

Lemma well_formed_in_range vs :
  credentials_wf vs → Forall (λ o, ¬ out_of_range_credentials o) vs.
Proof.
  intros Hwf. eapply Forall_impl; [exact Hwf|].
  intros [v|]; cbn; [|tauto]. intros Hlen [Hnil|[_ Hshort]].
  - by rewrite Hnil in Hlen.
  - lia.
Qed.

Lemma scanned_from_wrong_length addr vs : ∀ i,
  credentials_wf vs → length addr ≠ 20%nat → scanned_from addr i vs = [].
Proof.
  induction vs as [|o vs IH]; intros i Hwf Hlen; [done|].
  apply Forall_cons in Hwf as [Ho Hwf].
  rewrite scanned_from_cons, IH, app_nil_r by done.
  cbn [scanned_from]. rewrite app_nil_r.
  destruct o as [v|]; [|done]. cbn in Ho.
  rewrite decide_False; [done|]. intros [_ Hdrop].
  apply (f_equal length) in Hdrop. rewrite length_drop, Ho in Hdrop.
  by apply Hlen.
Qed.

(** X4. An address that does not decode to 20 bytes matches no validator:
    with 32-byte credentials throughout, the scan returns the empty list and
    reports nothing. *)
Theorem scan_with_malformed_address eigenpodAddress beaconState :
  (Validators beaconState).2 = None →
  credentials_wf (Validators beaconState).1 →
  length (FromHex eigenpodAddress) ≠ 20%nat →
  findAllValidatorsForEigenpod FromHex eigenpodAddress beaconState = Go.Ok [].
Proof.
  unfold findAllValidatorsForEigenpod.
  destruct (Validators beaconState) as [vs err]. cbn. intros -> Hwf Hlen. cbn.
  destruct (scan_loop_cases (FromHex eigenpodAddress) vs 0 [])
    as [[Hex _]|[_ ->]].
  - by destruct (out_of_range_excl vs Hex (well_formed_in_range vs Hwf)).
  - by rewrite scanned_from_wrong_length.
Qed.

End ScanEdges.

(** ** [CredentialsCommand]: what it submits and when it returns *)

Section CommandEdges.

Import Commands.

Variable core : Core.

Ltac run :=
  unfold CredentialsCommand, when, PanicOnError, Panic, lift, emit,
    Go.PanicOnError, mbind, mret, Cmd_bind, Cmd_ret;
  cbn beta iota.

Lemma hash_lines_cons i txn txns :
  hash_lines i (txn :: txns)
  = Green "transaction(%d): %s" [AUint i; AStr (Hash txn)]
    :: hash_lines (N.succ i) txns.
Proof.
  unfold hash_lines. cbn [imap]. rewrite N.add_0_r. f_equal.
  apply imap_ext. intros k t _. cbn. do 3 f_equal. lia.
Qed.

(** The loop over the transactions prints one line each, in order. *)
Lemma print_hashes_lines txns : ∀ i tr,
  print_hashes i txns tr = (Go.Ok tt, tr ++ hash_lines i txns).
Proof.
  induction txns as [|txn txns IH]; intros i tr.
  - cbn. by rewrite app_nil_r.
  - cbn [print_hashes]. unfold mbind, Cmd_bind, emit.
    by rewrite IH, hash_lines_cons, <- app_assoc.
Qed.

Lemma hash_lines_no_call i txns :
  Forall (λ e, is_network_call e = false) (hash_lines i txns).
Proof.
  unfold hash_lines. apply Forall_forall. intros e He.
  apply elem_of_lookup_imap in He as (k & txn & -> & _). done.
Qed.

(** The print of a simulation: a transaction without destination panics,
    and there is no other failure. *)
Lemma aMap_txns_cases indices txns :
  (Exists (λ txn, To txn = None) txns
   ∧ aMap_txns indices txns = Go.RuntimePanic)
  ∨ (Forall (λ txn, is_Some (To txn)) txns
     ∧ ∃ out,
         aMap_txns indices txns = Go.Ok out
         ∧ Forall2 (λ txn entry,
                      To txn = Some (To_ (Transaction_ entry))
                      ∧ CallData (Transaction_ entry) = Data txn
                      ∧ Type_ (Transaction_ entry) = "credential_proof"
                      ∧ ValidatorIndices entry = Uint64 <$> concat indices)
             txns out).
Proof.
  induction txns as [|txn txns IH].
  - right. split; [constructor|]. exists []. split; [done|constructor].
  - cbn [aMap_txns]. unfold To_Hex.
    destruct (To txn) as [to|] eqn:Hto; cbn.
    + destruct IH as [[Hex ->]|(Hall & out & -> & Hout)]; cbn.
      * left. split; [by right|done].
      * right. split; [constructor; [by rewrite Hto|done]|].
        eexists. split; [done|]. constructor; [by rewrite Hto|done].
    + left. split; [by left|done].
Qed.

(** The indices as printed: each is below 2^64, and they are the indices
    given exactly when all of those are. *)
Lemma Uint64_indices (l : list N) :
  Forall (λ i, i < 2 ^ 64) (Uint64 <$> l)
  ∧ (Uint64 <$> l = l ↔ Forall (λ i, i < 2 ^ 64) l).
Proof.
  split.
  - apply Forall_fmap, Forall_true. intros i. unfold Uint64. cbn.
    apply N.mod_lt. lia.
  - induction l as [|i l IH]; [by split; [constructor|]|]. cbn. split.
    + intros [= Hi Hl]. constructor; [|by apply IH].
      rewrite <- Hi. unfold Uint64. apply N.mod_lt. lia.
    + intros [Hi Hl]%Forall_cons. f_equal; [|by apply IH].
      unfold Uint64. by apply N.mod_small.
Qed.

(** X5. In simulate-only mode every transaction that is printed carries the
    destination and call data of its transaction and lists the validator
    indices of all the batches together, each through [Uint64()]: position
    by position the low 64 bits of the index given, so the list is the one
    given exactly when every index is below 2^64. The print panics exactly
    when some transaction has no destination, and never exits otherwise. *)
Theorem simulated_transactions_printed indices txns :
  (aMap_txns indices txns = Go.RuntimePanic
   ↔ Exists (λ txn, To txn = None) txns)
  ∧ (∀ message, aMap_txns indices txns ≠ Go.Fatal message)
  ∧ (∀ out,
       aMap_txns indices txns = Go.Ok out ↔
       Forall2 (λ txn entry,
                  To txn = Some (To_ (Transaction_ entry))
                  ∧ CallData (Transaction_ entry) = Data txn
                  ∧ Type_ (Transaction_ entry) = "credential_proof"
                  ∧ ValidatorIndices entry = Uint64 <$> concat indices)
         txns out)
  ∧ ∀ out entry,
      aMap_txns indices txns = Go.Ok out → entry ∈ out →
      (∀ k, ValidatorIndices entry !! k
            = (λ i, i mod 2 ^ 64) <$> concat indices !! k)
      ∧ Forall (λ i, i < 2 ^ 64) (ValidatorIndices entry)
      ∧ (ValidatorIndices entry = concat indices
         ↔ Forall (λ i, i < 2 ^ 64) (concat indices)).
Proof.
  assert (Hlisted : ∀ out entry,
    aMap_txns indices txns = Go.Ok out → entry ∈ out →
    ValidatorIndices entry = Uint64 <$> concat indices).
  { intros out entry Hok Hin.
    destruct (aMap_txns_cases indices txns)
      as [[_ Hp]|(_ & out' & Hok' & Hall)]; [congruence|].
    rewrite Hok in Hok'. injection Hok' as <-.
    apply list_elem_of_lookup in Hin as [k Hk].
    by destruct (Forall2_lookup_r _ _ _ _ _ Hall Hk) as (txn & _ & _ & _ & _ & ?). }
  match goal with
  | |- ?A ∧ ?B ∧ ?C ∧ _ =>
      cut (A ∧ B ∧ C);
      [intros (HA & HB & HC); do 3 (split; [assumption|])|clear Hlisted]
  end.
  { intros out entry Hok Hin. rewrite (Hlisted out entry Hok Hin).
    split; [|apply Uint64_indices].
    intros k. by rewrite list_lookup_fmap. }
  assert (Hexcl : Exists (λ txn, To txn = None) txns →
                  Forall (λ txn, is_Some (To txn)) txns → False).
  { intros Hex Hall. apply Exists_exists in Hex as (txn & Hin & Hnone).
    apply (proj1 (Forall_forall _ _) Hall) in Hin as [? ?]. congruence. }
  assert (Hinj : ∀ out1 out2,
    Forall2 (λ txn entry,
               To txn = Some (To_ (Transaction_ entry))
               ∧ CallData (Transaction_ entry) = Data txn
               ∧ Type_ (Transaction_ entry) = "credential_proof"
               ∧ ValidatorIndices entry = Uint64 <$> concat indices) txns out1 →
    Forall2 (λ txn entry,
               To txn = Some (To_ (Transaction_ entry))
               ∧ CallData (Transaction_ entry) = Data txn
               ∧ Type_ (Transaction_ entry) = "credential_proof"
               ∧ ValidatorIndices entry = Uint64 <$> concat indices) txns out2 →
    out1 = out2).
  { clear. induction txns as [|txn txns IH]; intros out1 out2 H1 H2.
    - apply Forall2_nil_inv_l in H1, H2. by subst.
    - apply Forall2_cons_inv_l in H1 as (e1 & o1 & (Ht1 & Hc1 & Hy1 & Hv1) & H1 & ->).
      apply Forall2_cons_inv_l in H2 as (e2 & o2 & (Ht2 & Hc2 & Hy2 & Hv2) & H2 & ->).
      f_equal; [|by apply IH].
      destruct e1 as [[y1 t1 c1] v1], e2 as [[y2 t2 c2] v2]. cbn in *.
      by simplify_eq. }
  destruct (aMap_txns_cases indices txns) as [[Hex ->]|(Hall & out & -> & Hout)].
  - split; [done|]. split; [done|]. intros out. split; [done|].
    intros Hout. exfalso. apply Hexcl; [done|].
    apply Forall_forall. intros txn Hin.
    apply list_elem_of_lookup in Hin as [k Hk].
    destruct (Forall2_lookup_l _ _ _ _ _ Hout Hk) as (entry & _ & Hto & _).
    by rewrite Hto.
  - split; [split; [done|by intros ?%Hexcl]|]. split; [done|].
    intros out'. split; [by intros [= <-]|].
    intros Hout'. f_equal. by apply Hinj.
Qed.

(** X6. Whatever the environment answers, a run submits or simulates at most
    with what the command line asked for: the call of [SubmitValidatorProof]
    carries the sender, batch size and mode of the arguments, exactly one of
    "sender set" and "simulate-only" holds, and the proofs and the timestamp
    are those that proof generation returned, with no error, from the
    clients that were reached. *)
Theorem submits_generated_proofs args :
  Forall (λ e,
    match e with
    | CallSubmitValidatorProof sender pod batchSize proofs timestamp noPrompt
        simulate verbose =>
        sender = Sender args ∧ pod = EigenpodAddress args
        ∧ batchSize = BatchSize args ∧ noPrompt = NoPrompt args
        ∧ simulate = SimulateTransaction args
        ∧ (simulate = true ∧ sender = "" ∨ simulate = false ∧ sender ≠ "")
        ∧ ∃ clients,
            GetClients core (Node args) (BeaconNode args) (isVerbose args)
              = (clients, None)
            ∧ GenerateValidatorProof core pod clients
                (specificValidatorIndex args) (isVerbose args)
              = (Some proofs, timestamp, None)
    | _ => True
    end) (CredentialsCommand core args []).2.
Proof.
  run. repeat case_match; simplify_eq; cbn [snd app].
  all: try match goal with
    | H : print_hashes ?i ?t ?tr = _ |- _ =>
        rewrite print_hashes_lines in H; simplify_eq
    end.
  all: rewrite ?Forall_app, ?Forall_cons, ?Forall_nil.
  all: repeat split; try done.
  all: try (eapply Forall_impl; [apply hash_lines_no_call|];
            by intros [] ?).
  all: try by eauto.
  all: match goal with
       | H : _ && negb (String.length ?s =? 0)%nat = false |- _ =>
           destruct s; cbn in *; try done;
           destruct (SimulateTransaction args); cbn in *; try done;
           auto
       end.
Qed.

Lemma no_destination_excl (txns : list types_Transaction) :
  Exists (λ txn, To txn = None) txns →
  Forall (λ txn, is_Some (To txn)) txns → False.
Proof.
  intros Hex Hall. apply Exists_exists in Hex as (txn & Hin & Hnone).
  apply (proj1 (Forall_forall _ _) Hall) in Hin as [? ?]. congruence.
Qed.

(** X7. [CredentialsCommand] returns exactly when the clients are reached,
    the two flags are not both set, proof generation yields proofs and no
    error and, if something is to be submitted or simulated, that succeeds
    (and every simulated transaction has a destination to print). The error
    it returns is always nil: every failure is an exit or a panic. *)
Theorem returns_iff args :
  ((CredentialsCommand core args []).1 = Go.Ok None ↔ returns_normally core args)
  ∧ ∀ e, (CredentialsCommand core args []).1 ≠ Go.Ok (Some e).
Proof.
  run. unfold returns_normally.
  destruct (GetClients core (Node args) (BeaconNode args) (isVerbose args))
    as [clients [e1|]].
  { destruct (DisableColor args); cbn; (split; [split; [done|by intros [? _]]|done]). }
  destruct (SimulateTransaction args) eqn:Hsim, (Sender args) as [|a sender] eqn:Hs;
    cbn [negb andb orb String.length Nat.eqb].
  all: destruct (GenerateValidatorProof core (EigenpodAddress args) clients
                   (specificValidatorIndex args) (isVerbose args))
         as [[[proofs|] timestamp] [e2|]].
  all: try destruct (SubmitValidatorProof core _ _ _ _ _ _ _ _ _)
         as [[txns indices] [e3|]].
  all: try destruct (aMap_txns_cases indices txns)
         as [[Hex Hmap]|(Hall & out & Hmap & _)].
  all: destruct (DisableColor args), (is_specific args && isVerbose args); cbn.
  all: rewrite ?Hmap, ?print_hashes_lines; cbn.
  all: split; [|done].
  all: split.
  all: try done.
  all: try (intros (He & Hflag & Hrest); try done;
            destruct Hflag; try done;
            destruct Hrest as [[? ?]|[? Hf]]; try done;
            exfalso; apply (no_destination_excl txns); auto).
  all: try (intros _; split; [done|]; split; [auto|];
            first [ by left | right; split; [done|]; by intros ]).
Qed.

(** X8. A run that sends: with the clients reached, a sender and no
    simulation, proofs generated and submitted without error, the command
    returns nil, and after the calls it prints one line per transaction, in
    order and numbered from 0, and nothing else. *)
Theorem send_run args clients proofs timestamp txns indices tr :
  GetClients core (Node args) (BeaconNode args) (isVerbose args)
    = (clients, None) →
  SimulateTransaction args = false →
  Sender args ≠ "" →
  GenerateValidatorProof core (EigenpodAddress args) clients
    (specificValidatorIndex args) (isVerbose args)
    = (Some proofs, timestamp, None) →
  SubmitValidatorProof core (Sender args) (EigenpodAddress args) clients
    (BatchSize args) proofs timestamp (NoPrompt args) false (isVerbose args)
    = (txns, indices, None) →
  CredentialsCommand core args tr
  = (Go.Ok None,
     tr ++ prelude args
        ++ (if is_specific args && isVerbose args
            then [Printf "Using specific validator: %d"
                    [AUint (SpecificValidator args)]]
            else [])
        ++ [ CallGenerateValidatorProof (EigenpodAddress args)
               (specificValidatorIndex args) (isVerbose args);
             CallSubmitValidatorProof (Sender args) (EigenpodAddress args)
               (BatchSize args) proofs timestamp (NoPrompt args) false
               (isVerbose args) ]
        ++ hash_lines 0 txns).
Proof.
  intros Hclients Hsim Hsender Hgen Hsub. run. unfold prelude.
  rewrite Hclients, Hsim. cbn.
  assert (Hlen : (String.length (Sender args) =? 0)%nat = false)
    by (by destruct (Sender args)).
  rewrite Hgen, Hlen. cbn. rewrite Hsub. cbn.
  destruct (DisableColor args), (is_specific args && isVerbose args); cbn;
    rewrite print_hashes_lines; cbn; by rewrite <- ?app_assoc.
Qed.

End CommandEdges.

(** ** The helpers and the [credentials] action of [cli/main.go] *)

Section MainEdges.

Variable env : Env.

Ltac run_main :=
  unfold credentials_action, getClients, getBeaconClient, when, PanicOnError,
    lift, emit, Go.PanicOnError, mbind, mret, Cmd_bind, Cmd_ret;
  cbn beta iota.

(** X9. [getClients] stops at the first failure: it asks for the chain id
    only after the node was dialled, and for the beacon client only after
    the chain id was fetched; it returns exactly when all three succeed, with
    the chain id of the node, and never panics. *)
Theorem getClients_fail_fast nodeUri beaconUri tr :
  (getClients env nodeUri beaconUri tr).2
  = tr ++ Dial nodeUri ::
      match ethclient_Dial env nodeUri with
      | Some _ => []
      | None =>
          ChainID ::
            match (eth_ChainID env).2 with
            | Some _ => []
            | None => [NewBeaconClient beaconUri]
            end
      end
  ∧ (∀ chainId,
       (getClients env nodeUri beaconUri tr).1 = Go.Ok chainId ↔
       ethclient_Dial env nodeUri = None
       ∧ eth_ChainID env = (chainId, None)
       ∧ beacon_NewBeaconClient env beaconUri = None)
  ∧ (getClients env nodeUri beaconUri tr).1 ≠ Go.RuntimePanic.
Proof.
  run_main.
  destruct (ethclient_Dial env nodeUri) as [e1|]; cbn.
  { split; [done|]. split; [|done]. intros c. split; [done|by intros [? _]]. }
  destruct (eth_ChainID env) as [chain [e2|]]; cbn.
  { split; [by rewrite <- app_assoc|]. split; [|done].
    intros c. split; [done|by intros (_ & ? & _)]. }
  destruct (beacon_NewBeaconClient env beaconUri) as [e3|]; cbn.
  - split; [by rewrite <- !app_assoc|]. split; [|done].
    intros c. split; [done|by intros (_ & _ & ?)].
  - split; [by rewrite <- !app_assoc|]. split; [|done].
    intros c. split; [by intros [= ->]|by intros (_ & [= ->] & _)].
Qed.

(** X10. A run of the [credentials] action that sends a transaction has an
    owner key, and has done all of this before, in this order: reached the
    clients, generated proofs, written them out, prepared the account, bound
    the contract and read the latest block, whose time goes into the call.
    It sends one transaction and then at most prints its hash. *)
Theorem credentials_action_transaction f :
  existsb is_transaction (credentials_action env f []).2 = true →
  ∃ owner chainId proofs indices jsonString time rest,
    nonempty (flag_owner f) = Some owner
    ∧ eth_ChainID env = (chainId, None)
    ∧ GenerateValidatorProof env (eigenpodAddress f) chainId
      = (Some proofs, Some indices)
    ∧ json_Marshal env proofs = (jsonString, None)
    ∧ eth_BlockByNumber env = (time, None)
    ∧ (credentials_action env f []).2
      = (if disableColor f then [SetNoColor] else [])
        ++ [ Dial (node f); ChainID; NewBeaconClient (beacon f);
             CallGenerateValidatorProof (eigenpodAddress f) chainId;
             WriteOutputToFileOrStdout jsonString (nonempty (flag_out f));
             CallPrepareAccount owner chainId;
             NewEigenPod (eigenpodAddress f);
             BlockByNumber;
             Printf [FgGreen] "submitting onchain..." [];
             CallVerifyWithdrawalCredentials time
               (ToByteSlice env (StateRootProof_Proof (StateRootProof_ proofs)))
               (BeaconStateRoot (StateRootProof_ proofs))
               (Uint64ArrayToBigIntArray env indices)
               (ToByteSlice env <$> ValidatorFieldsProofs proofs)
               (castValidatorFields env (ValidatorFields proofs)) ]
        ++ rest
    ∧ Forall (λ e, is_transaction e = false) rest.
Proof.
  run_main.
  destruct (disableColor f), (ethclient_Dial env (node f)) as [e1|],
    (eth_ChainID env) as [chain [e2|]],
    (beacon_NewBeaconClient env (beacon f)) as [e3|]; cbn; try done.
  all: destruct (GenerateValidatorProof env (eigenpodAddress f) chain)
         as [[proofs|] [indices|]] eqn:Hgen; cbn; try done.
  all: destruct (json_Marshal env proofs) as [jsonString [e4|]] eqn:Hjson;
         cbn; try done.
  all: destruct (nonempty (flag_owner f)) as [owner|]; cbn; try done.
  all: destruct (prepareAccount env owner chain) as [e5|]; cbn; try done.
  all: destruct (onchain_NewEigenPod env (eigenpodAddress f)) as [e6|];
         cbn; try done.
  all: destruct (eth_BlockByNumber env) as [time [e7|]]; cbn; try done.
  all: destruct (eigenPod_VerifyWithdrawalCredentials env _ _ _ _ _ _)
         as [hash [e8|]]; cbn; intros _.
  all: eexists owner, chain, proofs, indices, jsonString, time, _.
  all: repeat (split; [done|]).
  all: try (split; [reflexivity|]).
  all: by repeat constructor.
Qed.

(** The loop of lookups: all succeed and the infos come back in order, or
    one fails and the run exits. *)
Lemma lookup_loop_cases rest : ∀ validatorInfo tr,
  (Forall (λ v, (eigenPod_ValidatorPubkeyHashToInfo env (pubKeyHash env v)).2
                = None) rest
   ∧ (lookup_loop env rest validatorInfo tr).1
     = Go.Ok (validatorInfo ++
              ((λ v, (eigenPod_ValidatorPubkeyHashToInfo env
                        (pubKeyHash env v)).1) <$> rest)))
  ∨ (Exists (λ v, is_Some (eigenPod_ValidatorPubkeyHashToInfo env
                             (pubKeyHash env v)).2) rest
     ∧ (lookup_loop env rest validatorInfo tr).1
       = Go.Fatal "failed to fetch validator eigeninfo.").
Proof.
  induction rest as [|v rest IH]; intros validatorInfo tr.
  - left. split; [constructor|]. cbn. by rewrite app_nil_r.
  - cbn [lookup_loop].
    unfold mbind, Cmd_bind, emit, PanicOnError, lift, Go.PanicOnError.
    destruct (eigenPod_ValidatorPubkeyHashToInfo env (pubKeyHash env v))
      as [info [e|]] eqn:Hinfo; cbn.
    + right. split; [|done]. left. rewrite Hinfo. by eexists.
    + destruct (IH (validatorInfo ++ [info])
                  (tr ++ [CallValidatorPubkeyHashToInfo (pubKeyHash env v)]))
        as [[Hall ->]|[Hex ->]].
      * left. split; [constructor; [by rewrite Hinfo|done]|].
        rewrite <- app_assoc. cbn. by rewrite Hinfo.
      * right. split; [by right|done].
Qed.

(** X11. [getOnchainValidatorInfo] returns exactly when the contract is
    bound and every lookup succeeds, and then with one info per validator,
    in the order of the validators; otherwise it exits with one of its two
    messages; it never panics. An empty list of validators still binds the
    contract. *)
Theorem getOnchainValidatorInfo_outcome eigenpodAddress allValidators tr :
  (∀ infos,
     (getOnchainValidatorInfo env eigenpodAddress allValidators tr).1
       = Go.Ok infos ↔
     onchain_NewEigenPod env eigenpodAddress = None
     ∧ Forall (λ v, (eigenPod_ValidatorPubkeyHashToInfo env
                       (pubKeyHash env v)).2 = None) allValidators
     ∧ infos = (λ v, (eigenPod_ValidatorPubkeyHashToInfo env
                        (pubKeyHash env v)).1) <$> allValidators)
  ∧ (∀ message,
       (getOnchainValidatorInfo env eigenpodAddress allValidators tr).1
         = Go.Fatal message →
       message = "failed to locate Eigenpod. Is your address correct?"
       ∨ message = "failed to fetch validator eigeninfo.")
  ∧ (getOnchainValidatorInfo env eigenpodAddress allValidators tr).1
    ≠ Go.RuntimePanic
  ∧ ∃ events,
      (getOnchainValidatorInfo env eigenpodAddress allValidators tr).2
      = tr ++ NewEigenPod eigenpodAddress :: events.
Proof.
  unfold getOnchainValidatorInfo, mbind, Cmd_bind, emit, PanicOnError, lift,
    Go.PanicOnError.
  destruct (onchain_NewEigenPod env eigenpodAddress) as [e|]; cbn.
  { split; [intros infos; split; [done|by intros [? _]]|].
    split; [intros message [= <-]; by left|]. split; [done|]. by exists []. }
  assert (Hexcl :
    Exists (λ v, is_Some (eigenPod_ValidatorPubkeyHashToInfo env
                            (pubKeyHash env v)).2) allValidators →
    Forall (λ v, (eigenPod_ValidatorPubkeyHashToInfo env
                    (pubKeyHash env v)).2 = None) allValidators → False).
  { intros Hex Hall. apply Exists_exists in Hex as (v & Hin & [x Hx]).
    apply (proj1 (Forall_forall _ _) Hall) in Hin. congruence. }
  destruct (lookup_loop_keys env allValidators []
              (tr ++ [NewEigenPod eigenpodAddress]))
    as (events & n & Htr & _).
  destruct (lookup_loop_cases allValidators []
              (tr ++ [NewEigenPod eigenpodAddress])) as [[Hall Hr]|[Hex Hr]];
    rewrite Hr.
  - split; [intros infos; split|].
    + by intros [= <-].
    + by intros (_ & _ & ->).
    + split; [done|]. split; [done|]. exists events.
      by rewrite Htr, <- app_assoc.
  - split; [intros infos; split; [done|]|].
    + intros (_ & Hall & _). by destruct (Hexcl Hex Hall).
    + split; [intros message [= <-]; by right|]. split; [done|].
      exists events. by rewrite Htr, <- app_assoc.
Qed.

End MainEdges.

(** ** The [status] action: where it panics *)

Lemma string_length_append (s1 s2 : string) :
  String.length (s1 ++ s2) = (String.length s1 + String.length s2)%nat.
Proof.
  induction s1 as [|a s1 IH]; [done|].
  cbn [String.length Nat.add]. rewrite <- IH. reflexivity.
Qed.

Lemma string_length_substring (s : string) : ∀ n m,
  (n + m ≤ String.length s)%nat → String.length (String.substring n m s) = m.
Proof.
  induction s as [|a s IH]; intros [|n] [|m] Hlen; cbn in *; try done; try lia.
  - f_equal. apply (IH 0%nat m). lia.
  - apply (IH n 0%nat). lia.
  - apply (IH n (S m)). lia.
Qed.

Lemma string_substring_append (s1 s2 : string) :
  String.substring 0 (String.length s1) (s1 ++ s2) = s1.
Proof.
  induction s1 as [|a s1 IH]; [by destruct s2|].
  change (String a (String.substring 0 (String.length s1) (s1 ++ s2))
          = String a s1).
  by rewrite IH.
Qed.

(** X12. [shortenHex] panics exactly on strings shorter than 6 bytes; on
    every other string it returns 12 bytes that begin with the first 6 bytes
    of the string. *)
Theorem shortenHex_shape (publicKey : string) :
  (shortenHex publicKey = Go.RuntimePanic ↔ (String.length publicKey < 6)%nat)
  ∧ ∀ short,
      shortenHex publicKey = Go.Ok short →
      String.length short = 12%nat
      ∧ String.substring 0 6 short = String.substring 0 6 publicKey
      ∧ short = shown_key false publicKey.
Proof.
  unfold shortenHex.
  destruct (decide (6 ≤ String.length publicKey)%nat) as [Hlen|Hlen].
  - split; [split; [done|lia]|]. intros short [= <-].
    split; [|split; [|done]].
    + rewrite !string_length_append, !string_length_substring by lia. done.
    + rewrite <- (string_length_substring publicKey 0 6) at 1 by lia.
      apply string_substring_append.
  - split; [split; [lia|done]|]. by intros short.
Qed.

Section StatusEdges.

Import Status.

Variable Float : Type.
Variable Float_Sub : Float → Float → Float.
Variable Float_String : Float → string.
Variable Float_verb_f : Float → string.
Variable time_String : Z → string.
Variable gweiToEther : N → Float.
Variable getStatus : string → EigenpodStatus * gmap positive Float.
Variable json_MarshalIndent :
  EigenpodStatus → gmap positive Float → string * Go.error.
Variable env : Env.

Implicit Types (s : store Float).

Lemma print_validator_cases (verbose : bool) entry s :
  print_validator verbose entry s
  = if decide (verbose = false ∧ short_key entry)
    then (Go.RuntimePanic, s)
    else (Go.Ok tt,
          {| trace := trace s ++
               [validator_line (shown_key verbose (PublicKey entry.2)) entry];
             floats := floats s |}).
Proof.
  destruct entry as [index validator]. unfold print_validator, short_key.
  cbn [fst snd]. unfold shown_key, validator_line. cbn [fst snd].
  destruct verbose.
  - rewrite decide_False by (by intros [? _]).
    unfold mbind, Cmd_bind, mret, Cmd_ret, emitS.
    by destruct (Status.Status validator), (Status.Slashed validator).
  - unfold shortenHex, lift, mbind, Cmd_bind, emitS.
    destruct (decide (6 ≤ String.length (PublicKey validator))%nat).
    + rewrite decide_False by (intros [_ ?]; lia).
      by destruct (Status.Status validator), (Status.Slashed validator).
    + rewrite decide_True by (split; [done|lia]).
      by destruct (Status.Status validator), (Status.Slashed validator).
Qed.

(** X13. The listing of validators prints one line per validator in the
    order given and leaves the [big.Float]s alone. When not verbose it
    panics at the first public key shorter than 6 bytes, after the lines of
    the validators before it; when verbose it never panics. *)
Theorem print_validators_outcome (verbose : bool) entries s :
  print_validators verbose entries s
  = (if decide (verbose = false ∧ Exists short_key entries)
     then Go.RuntimePanic else Go.Ok tt,
     {| trace := trace s ++
          ((λ entry, validator_line (shown_key verbose (PublicKey entry.2)) entry)
             <$> listed verbose entries);
        floats := floats s |}).
Proof.
  revert s. induction entries as [|entry entries IH]; intros s.
  - cbn. rewrite decide_False by (intros [_ ?%Exists_nil]; done).
    rewrite app_nil_r. by destruct s.
  - cbn [print_validators listed]. unfold mbind, Cmd_bind.
    rewrite print_validator_cases.
    destruct (decide (verbose = false ∧ short_key entry)) as [[Hv Hs]|Hno].
    + rewrite decide_True by (split; [done|by left]).
      cbn. rewrite app_nil_r. by destruct s.
    + rewrite IH. cbn. rewrite <- app_assoc. cbn.
      destruct (decide (verbose = false ∧ Exists short_key entries))
        as [[Hv Hex]|Hno'].
      * by rewrite decide_True by (split; [done|by right]).
      * rewrite decide_False; [done|].
        intros [Hv [Hs|Hex]%Exists_cons]; [by apply Hno|by apply Hno'].
Qed.

(** X14. With share pointers that are nil or point into the store, the
    report of the share delta panics exactly when the pointer to the current
    total shares is nil or, with no checkpoint active, the pointer to the
    shares after a checkpoint is nil; it never exits. *)
Theorem print_delta_panics status s :
  nil_or_allocated (floats s) (CurrentTotalSharesETH status) →
  nil_or_allocated (floats s) (TotalSharesAfterCheckpointETH status) →
  ((print_delta Float_Sub Float_String Float_verb_f time_String gweiToEther
      status s).1 = Go.RuntimePanic
   ↔ CurrentTotalSharesETH status = None
     ∨ (ActiveCheckpoint status = None
        ∧ TotalSharesAfterCheckpointETH status = None))
  ∧ ∀ message,
      (print_delta Float_Sub Float_String Float_verb_f time_String gweiToEther
         status s).1 ≠ Go.Fatal message.
Proof.
  intros Hcur Hafter.
  destruct (ActiveCheckpoint status) as [checkpoint|] eqn:Hcp,
    (CurrentTotalSharesETH status) as [current|] eqn:Hc.
  - destruct Hcur as [shares Hshares].
    destruct (print_delta_active Float Float_Sub Float_String Float_verb_f
                time_String gweiToEther status s checkpoint current shares)
      as (s' & -> & _); [done..|].
    split; [|done]. split; [done|]. by intros [?|[? _]].
  - unfold print_delta, gweiToEther_new, new_Float_Sub, deref, alloc, emitS,
      mbind, Cmd_bind. rewrite Hcp, Hc. cbn. rewrite lookup_insert_eq. cbn.
    split; [|done]. split; [by left|done].
  - destruct (TotalSharesAfterCheckpointETH status) as [after|] eqn:Ha.
    + destruct Hcur as [shares Hshares], Hafter as [afterShares Hafters].
      destruct (print_delta_preview Float Float_Sub Float_String Float_verb_f
                  time_String gweiToEther status s current after shares
                  afterShares) as (s' & -> & _); [done..|].
      split; [|done]. split; [done|]. by intros [?|[_ ?]].
    + unfold print_delta, new_Float_Sub, deref, alloc, emitS, mbind, Cmd_bind.
      rewrite Hcp, Hc, Ha. cbn.
      split; [|done]. split; [by right|done].
  - unfold print_delta, new_Float_Sub, deref, alloc, emitS, mbind, Cmd_bind.
    rewrite Hcp, Hc. cbn.
    destruct (TotalSharesAfterCheckpointETH status) as [after|]; cbn.
    + destruct Hafter as [afterShares ->]. cbn.
      split; [|done]. split; [by left|done].
    + split; [|done]. split; [by left|done].
Qed.

(** X15. With [--json] the action prints nothing but the JSON, one plain
    line at most and no formatted line, keeps the [big.Float]s of the status
    untouched, and never panics, whatever keys and pointers the status
    holds. *)
Theorem status_json_plain f s :
  useJson f = true →
  ∃ events,
    trace (status_action Float_Sub Float_String Float_verb_f time_String
             gweiToEther getStatus json_MarshalIndent env f s).2
    = trace s ++ events
    ∧ Forall (λ e, is_Printf e = false) events
    ∧ (length (filter (λ e, is_Println e = true) events) ≤ 1)%nat
    ∧ (CallGetStatus (eigenpodAddress f) ∈ events →
       floats (status_action Float_Sub Float_String Float_verb_f time_String
                 gweiToEther getStatus json_MarshalIndent env f s).2
       = (getStatus (eigenpodAddress f)).2)
    ∧ (status_action Float_Sub Float_String Float_verb_f time_String
         gweiToEther getStatus json_MarshalIndent env f s).1
      ≠ Go.RuntimePanic.
Proof.
  intros Hjson. unfold status_action, report. rewrite Hjson.
  destruct (getStatus (eigenpodAddress f)) as [status heap].
  unfold when, on_trace, getBeaconClient, allocated, PanicOnError, lift, emit,
    emitS, Go.PanicOnError, mbind, mret, Cmd_bind, Cmd_ret. cbn.
  destruct (disableColor f), (ethclient_Dial env (node f)) as [e1|],
    (beacon_NewBeaconClient env (beacon f)) as [e2|]; cbn.
  all: try destruct (json_MarshalIndent status heap) as [statusStr [e3|]]; cbn.
  all: rewrite <- ?app_assoc; eexists; (split; [reflexivity|]).
  all: split; [by repeat constructor|].
  all: split; [vm_compute; lia|].
  all: split; [|done].
  all: try done.
  all: intros Hin; exfalso; revert Hin; cbn [app];
       rewrite ?elem_of_cons, elem_of_nil; naive_solver.
Qed.

End StatusEdges.

(** ** The [checkpoint] action *)

Section CheckpointEdges.

Import CheckpointAction.

Variable env : CheckpointAction.Env.

Ltac run_checkpoint :=
  unfold checkpoint_action, getCurrentCheckpoint, ensure_checkpoint,
    submit_checkpoint_proof, on_main, getClients, getBeaconClient, when,
    PanicOnError, lift, emit, Go.PanicOnError, mbind, mret, Cmd_bind, Cmd_ret;
  cbn beta iota.

(** X16. The action starts a checkpoint only when the contract reports no
    active one (timestamp 0) and an owner key is given, and with the
    [--force] flag as given; it submits a proof only with an owner key, and
    then the proof that was generated in this run. Without an owner key it
    sends no transaction at all. *)
Theorem checkpoint_transactions_gated f forceCheckpoint :
  Forall (λ e,
    match e with
    | CallStartCheckpoint pod owner chainId force =>
        nonempty (flag_owner f) = Some owner
        ∧ pod = eigenpodAddress f
        ∧ force = forceCheckpoint
        ∧ chainId = (eth_ChainID (main env)).1
        ∧ eigenPod_CurrentCheckpointTimestamp env = (0, None)
    | CallVerifyCheckpointProofs root proofBytes balanceProofs =>
        is_Some (nonempty (flag_owner f))
        ∧ ∃ p,
            GenerateCheckpointProof env (eigenpodAddress f)
              (eth_ChainID (main env)).1 = Some p
            ∧ root = ValidatorBalancesRoot p
            ∧ proofBytes
              = ToByteSlice (main env) (ValidatorBalancesRootProof p)
            ∧ balanceProofs = castBalanceProofs env (BalanceProofs p)
    | e => nonempty (flag_owner f) = None → is_transaction e = false
    end) (checkpoint_action env f forceCheckpoint []).2.
Proof.
  run_checkpoint.
  destruct (disableColor f), (ethclient_Dial (main env) (node f)) as [e1|],
    (eth_ChainID (main env)) as [chain [e2|]],
    (beacon_NewBeaconClient (main env) (beacon f)) as [e3|]; cbn.
  all: try destruct (onchain_NewEigenPod (main env) (eigenpodAddress f))
         as [e4|]; cbn.
  all: try destruct (eigenPod_CurrentCheckpointTimestamp env)
         as [timestamp [e5|]]; cbn.
  all: destruct (nonempty (flag_owner f)) as [owner|]; cbn.
  all: try (destruct (timestamp =? 0) eqn:Hts;
            [apply N.eqb_eq in Hts; subst timestamp|]); cbn.
  all: try destruct (startCheckpoint env (eigenpodAddress f) owner chain
                       forceCheckpoint) as [newCheckpoint [e6|]]; cbn.
  all: try destruct (GenerateCheckpointProof env (eigenpodAddress f) chain)
         as [p|] eqn:Hgen; cbn.
  all: try destruct (json_Marshal env _) as [jsonString [e7|]]; cbn.
  all: try destruct (prepareAccount (main env) owner chain) as [e8|]; cbn.
  all: try destruct (eigenPod_VerifyCheckpointProofs env _ _ _)
         as [hash [e9|]]; cbn.
  all: repeat (apply Forall_cons; split; [try done|]); try apply Forall_nil.
  all: try (repeat split; try done; by eauto).
Qed.

(** X17. With no checkpoint active and no owner key, the action exits with
    its message once it has read the timestamp: no checkpoint is started, no
    proof is generated, nothing is written. *)
Theorem checkpoint_needs_owner f forceCheckpoint chainId tr :
  ethclient_Dial (main env) (node f) = None →
  eth_ChainID (main env) = (chainId, None) →
  beacon_NewBeaconClient (main env) (beacon f) = None →
  onchain_NewEigenPod (main env) (eigenpodAddress f) = None →
  eigenPod_CurrentCheckpointTimestamp env = (0, None) →
  flag_owner f = "" →
  checkpoint_action env f forceCheckpoint tr
  = (Go.Fatal "no checkpoint active and no private key provided to start one",
     tr ++ (if disableColor f then [Main SetNoColor] else [])
        ++ [ Main (Dial (node f)); Main ChainID;
             Main (NewBeaconClient (beacon f));
             Main (NewEigenPod (eigenpodAddress f));
             CallCurrentCheckpointTimestamp ]).
Proof.
  intros Hdial Hchain Hbeacon Hpod Hts Howner. run_checkpoint.
  rewrite Hdial, Hchain, Hbeacon, Hpod, Hts, Howner. cbn.
  destruct (disableColor f); cbn; by rewrite <- ?app_assoc.
Qed.

(** X18. A run that submits a checkpoint proof has, before the submission
    and in this order, read the checkpoint timestamp, started a checkpoint
    if and only if that timestamp was 0, announced the timestamp it goes on
    with (the new one if it started one), generated the proof, written it
    out, prepared the account and bound the contract; after the one
    submission it prints at most the transaction hash. *)
Theorem checkpoint_submission_order f forceCheckpoint :
  existsb is_verify_checkpoint (checkpoint_action env f forceCheckpoint []).2
    = true →
  ∃ owner chainId timestamp p jsonString rest,
    nonempty (flag_owner f) = Some owner
    ∧ eth_ChainID (main env) = (chainId, None)
    ∧ eigenPod_CurrentCheckpointTimestamp env = (timestamp, None)
    ∧ GenerateCheckpointProof env (eigenpodAddress f) chainId = Some p
    ∧ json_Marshal env (Some p) = (jsonString, None)
    ∧ (checkpoint_action env f forceCheckpoint []).2
      = (if disableColor f then [Main SetNoColor] else [])
        ++ [ Main (Dial (node f)); Main ChainID;
             Main (NewBeaconClient (beacon f));
             Main (NewEigenPod (eigenpodAddress f));
             CallCurrentCheckpointTimestamp ]
        ++ (if timestamp =? 0
            then [CallStartCheckpoint (eigenpodAddress f) owner chainId
                    forceCheckpoint]
            else [])
        ++ [ Main (Printf [FgGreen]
                     "pod has active checkpoint! checkpoint timestamp: %d"
                     [AUint (if timestamp =? 0
                             then (startCheckpoint env (eigenpodAddress f)
                                     owner chainId forceCheckpoint).1
                             else timestamp)]);
             CallGenerateCheckpointProof (eigenpodAddress f) chainId;
             Main (WriteOutputToFileOrStdout jsonString
                     (nonempty (flag_out f)));
             Main (CallPrepareAccount owner chainId);
             Main (NewEigenPod (eigenpodAddress f));
             Main (Printf [FgGreen]
                     "calling EigenPod.VerifyCheckpointProofs()..." []);
             CallVerifyCheckpointProofs (ValidatorBalancesRoot p)
               (ToByteSlice (main env) (ValidatorBalancesRootProof p))
               (castBalanceProofs env (BalanceProofs p)) ]
        ++ rest
    ∧ Forall (λ e, is_transaction e = false) rest.
Proof.
  run_checkpoint.
  destruct (disableColor f), (ethclient_Dial (main env) (node f)) as [e1|],
    (eth_ChainID (main env)) as [chain [e2|]],
    (beacon_NewBeaconClient (main env) (beacon f)) as [e3|]; cbn;
    try (intros H; discriminate H).
  all: destruct (onchain_NewEigenPod (main env) (eigenpodAddress f)) as [e4|];
         cbn; try (intros H; discriminate H).
  all: destruct (eigenPod_CurrentCheckpointTimestamp env) as [timestamp [e5|]];
         cbn; try (intros H; discriminate H).
  all: destruct (nonempty (flag_owner f)) as [owner|]; cbn.
  all: destruct (timestamp =? 0) eqn:Hts; cbn; try (intros H; discriminate H).
  all: try (destruct (startCheckpoint env (eigenpodAddress f) owner chain
                        forceCheckpoint) as [newCheckpoint [e6|]] eqn:Hstart;
            cbn; try (intros H; discriminate H)).
  all: destruct (GenerateCheckpointProof env (eigenpodAddress f) chain)
         as [p|] eqn:Hgen; cbn.
  all: destruct (json_Marshal env _) as [jsonString [e7|]] eqn:Hjson;
         cbn; try (intros H; discriminate H).
  all: try (destruct (prepareAccount (main env) owner chain) as [e8|];
            cbn; try (intros H; discriminate H)).
  all: destruct (eigenPod_VerifyCheckpointProofs env _ _ _) as [hash [e9|]];
         cbn; intros _.
  all: eexists owner, chain, timestamp, p, jsonString, _.
  all: rewrite ?Hts, ?Hstart; cbn [fst].
  all: repeat (split; [first [reflexivity|assumption]|]).
  all: repeat (apply Forall_cons; split; [reflexivity|]); try apply Forall_nil.
  all: exact I.
Qed.

(** X19. The two reads of the checkpoint bind the contract first and ask it
    only if that succeeded; each returns exactly when both steps succeed,
    with what the contract answered, and exits otherwise. The error that
    [getCurrentCheckpointBlockRoot] returns beside the root is always nil. *)
Theorem checkpoint_reads eigenpodAddress tr :
  (∀ timestamp,
     (getCurrentCheckpoint env eigenpodAddress tr).1 = Go.Ok timestamp ↔
     onchain_NewEigenPod (main env) eigenpodAddress = None
     ∧ eigenPod_CurrentCheckpointTimestamp env = (timestamp, None))
  ∧ (∀ root err,
       (getCurrentCheckpointBlockRoot env eigenpodAddress tr).1
         = Go.Ok (root, err) ↔
       err = None
       ∧ onchain_NewEigenPod (main env) eigenpodAddress = None
       ∧ eigenPod_CurrentCheckpoint env = (root, None))
  ∧ (getCurrentCheckpoint env eigenpodAddress tr).2
    = tr ++ Main (NewEigenPod eigenpodAddress) ::
        match onchain_NewEigenPod (main env) eigenpodAddress with
        | Some _ => []
        | None => [CallCurrentCheckpointTimestamp]
        end
  ∧ (getCurrentCheckpointBlockRoot env eigenpodAddress tr).2
    = tr ++ Main (NewEigenPod eigenpodAddress) ::
        match onchain_NewEigenPod (main env) eigenpodAddress with
        | Some _ => []
        | None => [CallCurrentCheckpoint]
        end.
Proof.
  unfold getCurrentCheckpoint, getCurrentCheckpointBlockRoot, PanicOnError,
    lift, emit, Go.PanicOnError, mbind, mret, Cmd_bind, Cmd_ret.
  destruct (onchain_NewEigenPod (main env) eigenpodAddress) as [e1|]; cbn.
  { repeat split; try done; by intros (? & ? & ?) || by intros [? ?]. }
  destruct (eigenPod_CurrentCheckpointTimestamp env) as [ts [e2|]],
    (eigenPod_CurrentCheckpoint env) as [root [e3|]]; cbn.
  all: rewrite <- ?app_assoc.
  all: repeat split; try done.
  all: try by simplify_eq.
  all: try (by intros [= ->]).
  all: try (by intros [_ [= ->]]).
  all: try (by intros (-> & _ & [= ->])).
  all: try (by intros (_ & _ & [=])).
  all: try (by intros [_ [=]]).
Qed.

End CheckpointEdges.

(** ** The further statements at concrete inputs *)

Lemma findAllValidatorsForEigenpod_returns_witness :
  (∀ v i,
     {| Validator := v; Index := i |}
       ∈ [ {| Validator := Examples.validator xa2 Examples.pool_credentials;
              Index := 2 |};
           {| Validator := Examples.validator xa4 Examples.pool_credentials;
              Index := 4 |} ] ↔
     (Validators Examples.snapshot).1 !! N.to_nat i = Some (Some v)
     ∧ scan_test (Examples.FromHex Examples.pool) v)
  ∧ Forall (λ x, (N.to_nat (Index x) < length (Validators Examples.snapshot).1)%nat)
      [ {| Validator := Examples.validator xa2 Examples.pool_credentials;
           Index := 2 |};
        {| Validator := Examples.validator xa4 Examples.pool_credentials;
           Index := 4 |} ]
  ∧ (length [ {| Validator := Examples.validator xa2 Examples.pool_credentials;
                 Index := 2 |};
              {| Validator := Examples.validator xa4 Examples.pool_credentials;
                 Index := 4 |} ]
     ≤ length (Validators Examples.snapshot).1)%nat.
Proof.
  apply (findAllValidatorsForEigenpod_returns Examples.FromHex Examples.pool
           Examples.snapshot).
  vm_compute. reflexivity.
Defined.

(** An index of 2^64 + 5 is printed as 5. *)
Example simulated_index_cut_down :
  Commands.aMap_txns [[2 ^ 64 + 5; 4]] [Examples.txn]
  = Go.Ok [ {| Commands.Transaction_ :=
                 {| Commands.Type_ := "credential_proof";
                    Commands.To_ := Examples.pool;
                    Commands.CallData := "3f65cf19" |};
               Commands.ValidatorIndices := [5; 4] |} ].
Proof. vm_compute. reflexivity. Qed.

Example scan_with_short_address :
  findAllValidatorsForEigenpod Examples.FromHex "0x1111" Examples.snapshot
  = Go.Ok [].
Proof. vm_compute. reflexivity. Qed.

Lemma scan_with_malformed_address_witness :
  findAllValidatorsForEigenpod Examples.FromHex "0x1111" Examples.snapshot
  = Go.Ok [].
Proof.
  apply (scan_with_malformed_address Examples.FromHex "0x1111" Examples.snapshot).
  - reflexivity.
  - apply (bool_decide_unpack _). vm_compute. exact I.
  - vm_compute. discriminate.
Defined.

Lemma send_run_witness :
  Commands.CredentialsCommand Examples.busy_core (Examples.args false "0xkey" 0) []
  = (Go.Ok None,
     [] ++ Commands.prelude (Examples.args false "0xkey" 0)
        ++ (if Commands.is_specific (Examples.args false "0xkey" 0)
               && Commands.isVerbose (Examples.args false "0xkey" 0)
            then [Commands.Printf "Using specific validator: %d"
                    [AUint (Commands.SpecificValidator
                              (Examples.args false "0xkey" 0))]]
            else [])
        ++ [ Commands.CallGenerateValidatorProof
               (Commands.EigenpodAddress (Examples.args false "0xkey" 0))
               (Commands.specificValidatorIndex (Examples.args false "0xkey" 0))
               (Commands.isVerbose (Examples.args false "0xkey" 0));
             Commands.CallSubmitValidatorProof
               (Commands.Sender (Examples.args false "0xkey" 0))
               (Commands.EigenpodAddress (Examples.args false "0xkey" 0))
               (Commands.BatchSize (Examples.args false "0xkey" 0))
               Examples.proofs 1700000000
               (Commands.NoPrompt (Examples.args false "0xkey" 0)) false
               (Commands.isVerbose (Examples.args false "0xkey" 0)) ]
        ++ hash_lines 0 [Examples.txn]).
Proof.
  apply (send_run Examples.busy_core (Examples.args false "0xkey" 0)
           Examples.clients Examples.proofs 1700000000 [Examples.txn] [[4]] []).
  - reflexivity.
  - reflexivity.
  - discriminate.
  - reflexivity.
  - reflexivity.
Defined.

Example credentials_action_sends :
  (credentials_action MoreExamples.busy_env MoreExamples.owner_flags []).1
  = Go.Ok None
  ∧ length (filter (λ e, is_transaction e = true)
              (credentials_action MoreExamples.busy_env
                 MoreExamples.owner_flags []).2) = 1%nat.
Proof. vm_compute. done. Qed.

Lemma credentials_action_transaction_witness :
  ∃ owner chainId proofs indices jsonString time rest,
    nonempty (flag_owner MoreExamples.owner_flags) = Some owner
    ∧ eth_ChainID MoreExamples.busy_env = (chainId, None)
    ∧ GenerateValidatorProof MoreExamples.busy_env
        (eigenpodAddress MoreExamples.owner_flags) chainId
      = (Some proofs, Some indices)
    ∧ json_Marshal MoreExamples.busy_env proofs = (jsonString, None)
    ∧ eth_BlockByNumber MoreExamples.busy_env = (time, None)
    ∧ (credentials_action MoreExamples.busy_env MoreExamples.owner_flags []).2
      = (if disableColor MoreExamples.owner_flags then [SetNoColor] else [])
        ++ [ Dial (node MoreExamples.owner_flags); ChainID;
             NewBeaconClient (beacon MoreExamples.owner_flags);
             CallGenerateValidatorProof
               (eigenpodAddress MoreExamples.owner_flags) chainId;
             WriteOutputToFileOrStdout jsonString
               (nonempty (flag_out MoreExamples.owner_flags));
             CallPrepareAccount owner chainId;
             NewEigenPod (eigenpodAddress MoreExamples.owner_flags);
             BlockByNumber;
             Printf [FgGreen] "submitting onchain..." [];
             CallVerifyWithdrawalCredentials time
               (ToByteSlice MoreExamples.busy_env
                  (StateRootProof_Proof (StateRootProof_ proofs)))
               (BeaconStateRoot (StateRootProof_ proofs))
               (Uint64ArrayToBigIntArray MoreExamples.busy_env indices)
               (ToByteSlice MoreExamples.busy_env <$> ValidatorFieldsProofs proofs)
               (castValidatorFields MoreExamples.busy_env
                  (ValidatorFields proofs)) ]
        ++ rest
    ∧ Forall (λ e, is_transaction e = false) rest.
Proof.
  apply (credentials_action_transaction MoreExamples.busy_env
           MoreExamples.owner_flags).
  vm_compute. reflexivity.
Defined.

Lemma print_delta_panics_witness :
  ((Status.print_delta Z.sub Examples.no_text Examples.no_text Examples.no_text
      Z.of_N (Examples.status_of None) (Examples.store_of Examples.shares)).1
   = Go.RuntimePanic
   ↔ Status.CurrentTotalSharesETH (Examples.status_of None) = None
     ∨ (Status.ActiveCheckpoint (Examples.status_of None) = None
        ∧ Status.TotalSharesAfterCheckpointETH (Examples.status_of None) = None))
  ∧ ∀ message,
      (Status.print_delta Z.sub Examples.no_text Examples.no_text
         Examples.no_text Z.of_N (Examples.status_of None)
         (Examples.store_of Examples.shares)).1 ≠ Go.Fatal message.
Proof.
  apply (print_delta_panics Z Z.sub Examples.no_text Examples.no_text
           Examples.no_text Z.of_N (Examples.status_of None)
           (Examples.store_of Examples.shares)).
  - vm_compute. eexists. reflexivity.
  - vm_compute. eexists. reflexivity.
Defined.

(** A status whose pointer to the current shares is nil. *)
Example print_delta_nil_pointer :
  (Status.print_delta Z.sub Examples.no_text Examples.no_text Examples.no_text
     Z.of_N
     {| Status.Validators := [];
        Status.ActiveCheckpoint := Some Examples.pending_checkpoint;
        Status.CurrentTotalSharesETH := None;
        Status.TotalSharesAfterCheckpointETH := Some 2%positive |}
     (Examples.store_of Examples.shares)).1
  = Go.RuntimePanic.
Proof. vm_compute. reflexivity. Qed.

Lemma status_json_plain_witness :
  ∃ events,
    Status.trace
      (Status.status_action Z.sub Examples.no_text Examples.no_text
         Examples.no_text Z.of_N
         (λ _, (Examples.status_of None, Examples.shares))
         (λ _ _, ("{}", None)) Examples.idle_env MoreExamples.json_flags
         (Examples.store_of ∅)).2
    = Status.trace (Examples.store_of ∅) ++ events
    ∧ Forall (λ e, is_Printf e = false) events
    ∧ (length (filter (λ e, is_Println e = true) events) ≤ 1)%nat
    ∧ (CallGetStatus (eigenpodAddress MoreExamples.json_flags) ∈ events →
       Status.floats
         (Status.status_action Z.sub Examples.no_text Examples.no_text
            Examples.no_text Z.of_N
            (λ _, (Examples.status_of None, Examples.shares))
            (λ _ _, ("{}", None)) Examples.idle_env MoreExamples.json_flags
            (Examples.store_of ∅)).2
       = ((λ _ : string, (Examples.status_of None, Examples.shares))
            (eigenpodAddress MoreExamples.json_flags)).2)
    ∧ (Status.status_action Z.sub Examples.no_text Examples.no_text
         Examples.no_text Z.of_N
         (λ _, (Examples.status_of None, Examples.shares))
         (λ _ _, ("{}", None)) Examples.idle_env MoreExamples.json_flags
         (Examples.store_of ∅)).1
      ≠ Go.RuntimePanic.
Proof.
  apply (status_json_plain Z Z.sub Examples.no_text Examples.no_text
           Examples.no_text Z.of_N
           (λ _, (Examples.status_of None, Examples.shares))
           (λ _ _, ("{}", None)) Examples.idle_env MoreExamples.json_flags
           (Examples.store_of ∅)).
  reflexivity.
Defined.

Lemma checkpoint_needs_owner_witness :
  CheckpointAction.checkpoint_action MoreExamples.checkpoint_env Examples.flags
    false []
  = (Go.Fatal "no checkpoint active and no private key provided to start one",
     [] ++ (if disableColor Examples.flags
            then [CheckpointAction.Main SetNoColor] else [])
        ++ [ CheckpointAction.Main (Dial (node Examples.flags));
             CheckpointAction.Main ChainID;
             CheckpointAction.Main (NewBeaconClient (beacon Examples.flags));
             CheckpointAction.Main (NewEigenPod (eigenpodAddress Examples.flags));
             CheckpointAction.CallCurrentCheckpointTimestamp ]).
Proof.
  apply (checkpoint_needs_owner MoreExamples.checkpoint_env Examples.flags
           false 17000%Z []); reflexivity.
Defined.

Example checkpoint_started_and_submitted :
  (CheckpointAction.checkpoint_action MoreExamples.checkpoint_env
     MoreExamples.owner_flags true []).1 = Go.Ok None
  ∧ filter (λ e, CheckpointAction.is_transaction e = true)
      (CheckpointAction.checkpoint_action MoreExamples.checkpoint_env
         MoreExamples.owner_flags true []).2
    = [ CheckpointAction.CallStartCheckpoint Examples.pool "0xkey" 17000 true;
        CheckpointAction.CallVerifyCheckpointProofs (replicate 32 x0d)
          (replicate 32 x0e) [ [x01]; [x02] ] ].
Proof. vm_compute. done. Qed.

Lemma checkpoint_submission_order_witness :
  ∃ owner chainId timestamp p jsonString rest,
    nonempty (flag_owner MoreExamples.owner_flags) = Some owner
    ∧ eth_ChainID (CheckpointAction.main MoreExamples.checkpoint_env)
      = (chainId, None)
    ∧ CheckpointAction.eigenPod_CurrentCheckpointTimestamp
        MoreExamples.checkpoint_env = (timestamp, None)
    ∧ CheckpointAction.GenerateCheckpointProof MoreExamples.checkpoint_env
        (eigenpodAddress MoreExamples.owner_flags) chainId = Some p
    ∧ CheckpointAction.json_Marshal MoreExamples.checkpoint_env (Some p)
      = (jsonString, None)
    ∧ (CheckpointAction.checkpoint_action MoreExamples.checkpoint_env
         MoreExamples.owner_flags true []).2
      = (if disableColor MoreExamples.owner_flags
         then [CheckpointAction.Main SetNoColor] else [])
        ++ [ CheckpointAction.Main (Dial (node MoreExamples.owner_flags));
             CheckpointAction.Main ChainID;
             CheckpointAction.Main
               (NewBeaconClient (beacon MoreExamples.owner_flags));
             CheckpointAction.Main
               (NewEigenPod (eigenpodAddress MoreExamples.owner_flags));
             CheckpointAction.CallCurrentCheckpointTimestamp ]
        ++ (if timestamp =? 0
            then [CheckpointAction.CallStartCheckpoint
                    (eigenpodAddress MoreExamples.owner_flags) owner chainId
                    true]
            else [])
        ++ [ CheckpointAction.Main
               (Printf [FgGreen]
                  "pod has active checkpoint! checkpoint timestamp: %d"
                  [AUint (if timestamp =? 0
                          then (CheckpointAction.startCheckpoint
                                  MoreExamples.checkpoint_env
                                  (eigenpodAddress MoreExamples.owner_flags)
                                  owner chainId true).1
                          else timestamp)]);
             CheckpointAction.CallGenerateCheckpointProof
               (eigenpodAddress MoreExamples.owner_flags) chainId;
             CheckpointAction.Main
               (WriteOutputToFileOrStdout jsonString
                  (nonempty (flag_out MoreExamples.owner_flags)));
             CheckpointAction.Main (CallPrepareAccount owner chainId);
             CheckpointAction.Main
               (NewEigenPod (eigenpodAddress MoreExamples.owner_flags));
             CheckpointAction.Main
               (Printf [FgGreen]
                  "calling EigenPod.VerifyCheckpointProofs()..." []);
             CheckpointAction.CallVerifyCheckpointProofs
               (CheckpointAction.ValidatorBalancesRoot p)
               (ToByteSlice (CheckpointAction.main MoreExamples.checkpoint_env)
                  (CheckpointAction.ValidatorBalancesRootProof p))
               (CheckpointAction.castBalanceProofs MoreExamples.checkpoint_env
                  (CheckpointAction.BalanceProofs p)) ]
        ++ rest
    ∧ Forall (λ e, CheckpointAction.is_transaction e = false) rest.
Proof.
  apply (checkpoint_submission_order MoreExamples.checkpoint_env
           MoreExamples.owner_flags true).
  vm_compute. reflexivity.
Defined.
